(** * Sandbox repository manager (cli-integ/lib/staging/codeartifact.ts)

    A shallow embedding of [TestRepository] and of its [retry] helper.

    The program talks to an artifact registry through asynchronous calls
    that either resolve with a response or reject with an error.  The
    registry, the clock, the console and the builtin [Number] are not part
    of the program: they are gathered in a [Host], and every definition of
    the program is parametric in it.  A run threads the host state, may
    throw, and records the calls it makes in a trace. *)

From Stdlib Require Import String Ascii List ZArith QArith Bool Arith Lia.
From Stdlib Require Import DecimalString DecimalZ.
Import ListNotations.

Set Implicit Arguments.
Unset Strict Implicit.

Local Open Scope string_scope.
Local Open Scope list_scope.
Local Open Scope Z_scope.

(** ** JavaScript numbers, as far as [<] sees them

    Every finite double is a rational, so the order of two numbers is the
    order of their values; [NaN] compares false with everything. *)

Inductive JsNumber : Type :=
| NaN
| NegInfinity
| PosInfinity
| Finite (q : Q).

Definition Qltb (x y : Q) : bool := negb (Qle_bool y x).

(** [x < y] on numbers. *)
Definition js_lt (x y : JsNumber) : bool :=
  match x, y with
  | NaN, _ | _, NaN => false
  | NegInfinity, NegInfinity => false
  | NegInfinity, _ => true
  | _, NegInfinity => false
  | PosInfinity, _ => false
  | Finite _, PosInfinity => true
  | Finite a, Finite b => Qltb a b
  end.

Definition of_Z (z : Z) : JsNumber := Finite (inject_Z z).

(** The template literal [`${n}`] for an integer [n] (decimal digits, with
    a leading minus sign when negative). *)
Definition string_of_Z (z : Z) : string := NilZero.string_of_int (Z.to_int z).

(** Truthiness of a [string | undefined]. *)
Definition truthy (s : option string) : bool :=
  match s with
  | Some s => negb (String.eqb s "")
  | None => false
  end.

(** ** Data exchanged with the registry *)

Record AWSError : Type := mkError { code : string; message : string }.

Record Tag : Type := mkTag { key : string; value : string }.

Record UpstreamRepository : Type := mkUpstream { repositoryName : string }.

Record RepositorySummary : Type :=
  mkSummary { name : string; domainName : string; arn : string }.

Record ListRepositoriesResult : Type :=
  mkPage { repositories : option (list RepositorySummary);
           nextToken : option string }.

(** The requests the program sends, indexed by the type of the response it
    reads.  Responses the program ignores are [unit]. *)
Inductive Request : Type -> Type :=
| DescribeDomain (domain : string) : Request unit
| CreateDomain (domain : string) (tags : list Tag) : Request unit
| DescribeRepository (domain repository : string) : Request unit
| CreateRepository (domain repository : string)
    (description : option string)
    (upstreams : option (list UpstreamRepository))
    (tags : option (list Tag)) : Request unit
| AssociateExternalConnection (domain repository externalConnection : string)
  : Request unit
| DeleteRepository (domain repository : string) : Request unit
| ListRepositories (nextToken : option string) : Request ListRepositoriesResult
| ListTagsForResource (resourceArn : string) : Request (option (list Tag))
| GetAuthorizationToken (domain : string) (durationSeconds : Z) : Request string
| GetRepositoryEndpoint (domain repository format : string) : Request string.

(** What a run leaves behind, in order. *)
Inductive Event : Type :=
| EvAws (R : Type) (q : Request R) (a : AWSError + R)
| EvNow (t : Z)
| EvSleep (ms : Z)
| EvLog (args : list string)
| EvDebug (msg : string).

(** ** The host *)

Record Host (W : Type) : Type := mkHost {
  aws : forall R : Type, Request R -> W -> (AWSError + R) * W;
  dateNow : W -> Z * W;
  sleepFor : Z -> W -> W;
  consoleLog : list string -> W -> W;
  consoleDebug : string -> W -> W;
  Number : string -> JsNumber
}.

(** ** Runs *)

Inductive Result (A : Type) : Type :=
| Ok (a : A)
| Throw (e : AWSError)
| OutOfFuel.

Arguments Throw {A} e.
Arguments OutOfFuel {A}.

Record Outcome (W A : Type) : Type :=
  mkOutcome { result : Result A; final : W; trace : list Event }.

Definition M (W A : Type) : Type := W -> Outcome W A.

Section Monad.
Context {W : Type}.

Definition ret {A} (a : A) : M W A :=
  fun s => mkOutcome (Ok a) s [].

Definition throw {A} (e : AWSError) : M W A :=
  fun s => mkOutcome (Throw e) s [].

Definition out_of_fuel {A} : M W A :=
  fun s => mkOutcome OutOfFuel s [].

Definition bind {A B} (m : M W A) (k : A -> M W B) : M W B :=
  fun s =>
    let o := m s in
    match result o with
    | Ok a =>
        let o' := k a (final o) in
        mkOutcome (result o') (final o') (trace o ++ trace o')
    | Throw e => mkOutcome (Throw e) (final o) (trace o)
    | OutOfFuel => mkOutcome OutOfFuel (final o) (trace o)
    end.

(** [try { m } catch (e) { h e }] *)
Definition try_catch {A} (m : M W A) (h : AWSError -> M W A) : M W A :=
  fun s =>
    let o := m s in
    match result o with
    | Throw e =>
        let o' := h e (final o) in
        mkOutcome (result o') (final o') (trace o ++ trace o')
    | _ => o
    end.

Variable host : Host W.

(** [await client.op(params).promise()] *)
Definition call {R} (q : Request R) : M W R :=
  fun s =>
    let (a, s') := aws host q s in
    mkOutcome (match a with inl e => Throw e | inr r => Ok r end)
              s' [EvAws q a].

(** [Date.now()] *)
Definition date_now : M W Z :=
  fun s => let (t, s') := dateNow host s in mkOutcome (Ok t) s' [EvNow t].

(** [await sleep(ms)] *)
Definition sleep (ms : Z) : M W unit :=
  fun s => mkOutcome (Ok tt) (sleepFor host ms s) [EvSleep ms].

Definition console_log (args : list string) : M W unit :=
  fun s => mkOutcome (Ok tt) (consoleLog host args s) [EvLog args].

Definition console_debug (msg : string) : M W unit :=
  fun s => mkOutcome (Ok tt) (consoleDebug host msg s) [EvDebug msg].
End Monad.

Declare Scope prog_scope.
Delimit Scope prog_scope with prog.
Notation "x <- m ;; k" := (bind m (fun x => k))
  (at level 100, m at next level, right associativity) : prog_scope.
Notation "m ;;; k" := (bind m (fun _ => k))
  (at level 100, right associativity) : prog_scope.
Local Open Scope prog_scope.

(** ** The program *)

Definition COLLECT_BY_TAG : string := "collect-by".
Definition REPO_LIFETIME_MS : Z := 24 * 3600 * 1000.
Definition DEFAULT_DOMAIN : string := "test-cdk".
Definition ResourceNotFoundException : string := "ResourceNotFoundException".

(** The fields of a [TestRepository] that do not depend on the instance. *)
Definition npmUpstream : string := "npm-upstream".
Definition pypiUpstream : string := "pypi-upstream".
Definition nugetUpstream : string := "nuget-upstream".
Definition mavenUpstream : string := "maven-upstream".
Definition domain : string := DEFAULT_DOMAIN.

(** [o?.f] *)
Definition optional {A B} (f : A -> option B) (o : option A) : option B :=
  match o with
  | Some a => f a
  | None => None
  end.

(** The [options] argument of [ensureRepository]. *)
Record RepositoryOptions : Type := mkOptions {
  opt_description : option string;
  opt_external : option string;
  opt_upstreams : option (list string);
  opt_tags : option (list (string * string))
}.

Section Program.
Context {W : Type}.
Variable host : Host W.

(** [retry]: the counter starts at 3; a failure is logged, then the
    counter is tested against 0 and decremented, and the loop sleeps
    500 ms before the next attempt. *)
Fixpoint retry_loop {A} (attempts : nat) (block : M W A) : M W A :=
  try_catch block (fun e =>
    console_debug host (message e) ;;;
    match attempts with
    | O => throw e
    | S attempts' => sleep host 500 ;;; retry_loop attempts' block
    end).

Definition retry {A} (block : M W A) : M W A := retry_loop 3 block.

Definition domainExists : M W bool :=
  try_catch (call host (DescribeDomain domain) ;;; ret true)
    (fun e =>
       if negb (String.eqb (code e) ResourceNotFoundException)
       then throw e else ret false).

Definition repositoryExists (name : string) : M W bool :=
  try_catch (call host (DescribeRepository domain name) ;;; ret true)
    (fun e =>
       if negb (String.eqb (code e) ResourceNotFoundException)
       then throw e else ret false).

Definition ensureDomain : M W unit :=
  ex <- domainExists ;;
  if ex then ret tt
  else call host (CreateDomain domain [mkTag "testing" "true"]).

Definition ensureRepository (name : string)
    (options : option RepositoryOptions) : M W unit :=
  ex <- repositoryExists name ;;
  if ex then ret tt
  else
    call host (CreateRepository domain name
      (optional opt_description options)
      (option_map (map mkUpstream) (optional opt_upstreams options))
      (option_map (map (fun kv => mkTag (fst kv) (snd kv)))
                  (optional opt_tags options))) ;;;
    if truthy (optional opt_external options) then
      match optional opt_external options with
      | Some externalConnection =>
          retry (call host
            (AssociateExternalConnection domain name externalConnection))
      | None => ret tt
      end
    else ret tt.

Definition ensureUpstreams : M W unit :=
  ensureRepository npmUpstream
    (Some (mkOptions (Some "The upstream repository for NPM")
                     (Some "public:npmjs") None None)) ;;;
  ensureRepository mavenUpstream
    (Some (mkOptions (Some "The upstream repository for Maven")
                     (Some "public:maven-central") None None)) ;;;
  ensureRepository nugetUpstream
    (Some (mkOptions (Some "The upstream repository for NuGet")
                     (Some "public:nuget-org") None None)) ;;;
  ensureRepository pypiUpstream
    (Some (mkOptions (Some "The upstream repository for PyPI")
                     (Some "public:pypi") None None)).

(** [prepare]: the arguments of the last call, hence [Date.now()], are
    evaluated before [ensureRepository] probes. *)
Definition prepare (repositoryName : string) : M W unit :=
  ensureDomain ;;;
  ensureUpstreams ;;;
  now <- date_now host ;;
  ensureRepository repositoryName
    (Some (mkOptions (Some "Testing repository") None
             (Some [npmUpstream; pypiUpstream; nugetUpstream; mavenUpstream])
             (Some [(COLLECT_BY_TAG, string_of_Z (now + REPO_LIFETIME_MS))]))).

(** [newWithName]; [newRandom] is the same on a name drawn at random.
    An instance is known by its [repositoryName]. *)
Definition newWithName (name : string) : M W string :=
  prepare name ;;; ret name.

Definition existing (repositoryName : string) : string := repositoryName.

Record LoginInformation : Type := mkLogin {
  authToken : string;
  login_repositoryName : string;
  npmEndpoint : string;
  mavenEndpoint : string;
  nugetEndpoint : string;
  pypiEndpoint : string
}.

Definition loginInformation (repositoryName : string) : M W LoginInformation :=
  tok <- call host (GetAuthorizationToken domain (12 * 3600)) ;;
  npm <- call host (GetRepositoryEndpoint domain repositoryName "npm") ;;
  maven <- call host (GetRepositoryEndpoint domain repositoryName "maven") ;;
  nuget <- call host (GetRepositoryEndpoint domain repositoryName "nuget") ;;
  pypi <- call host (GetRepositoryEndpoint domain repositoryName "pypi") ;;
  ret (mkLogin tok repositoryName npm maven nuget pypi).

Definition delete (repositoryName : string) : M W unit :=
  try_catch
    (call host (DeleteRepository domain repositoryName) ;;;
     console_log host ["Deleted"; repositoryName])
    (fun e =>
       if negb (String.eqb (code e) ResourceNotFoundException)
       then throw e else ret tt).

(** The predicate given to [find] in [gc]: [&&] reads the clock only for
    a tag whose key matches. *)
Definition is_collectable (t : Tag) : M W bool :=
  if String.eqb (key t) COLLECT_BY_TAG then
    now <- date_now host ;;
    ret (js_lt (Number host (value t)) (of_Z now))
  else ret false.

(** [Array.prototype.find] *)
Fixpoint find (p : Tag -> M W bool) (l : list Tag) : M W (option Tag) :=
  match l with
  | [] => ret None
  | t :: l' => b <- p t ;; if b then ret (Some t) else find p l'
  end.

(** The body of the [for] loop of [gc]. *)
Definition gc_repo (repo : RepositorySummary) : M W unit :=
  tags <- call host (ListTagsForResource (arn repo)) ;;
  collectable <-
    match tags with
    | Some l => find is_collectable l
    | None => ret None
    end ;;
  match collectable with
  | Some _ =>
      console_log host ["Deleting"; name repo] ;;;
      call host (DeleteRepository (domainName repo) (name repo))
  | None => ret tt
  end.

Fixpoint for_of {A} (l : list A) (body : A -> M W unit) : M W unit :=
  match l with
  | [] => ret tt
  | x :: l' => body x ;;; for_of l' body
  end.

(** The [do ... while (nextToken)] loop of [gc]; [fuel] bounds the number
    of pages requested. *)
Fixpoint gc_pages (fuel : nat) (token : option string) : M W unit :=
  match fuel with
  | O => out_of_fuel
  | S fuel' =>
      page <- call host (ListRepositories token) ;;
      for_of (match repositories page with Some l => l | None => [] end)
             gc_repo ;;;
      if truthy (nextToken page)
      then gc_pages fuel' (nextToken page)
      else ret tt
  end.

Definition gc (fuel : nat) : M W unit :=
  ex <- domainExists ;;
  if negb ex then ret tt else gc_pages fuel None.
End Program.

(** ** What a trace shows *)

(** The repositories returned by the pages of [listRepositories]. *)
Definition listed_of (ev : Event) : list RepositorySummary :=
  match ev with
  | EvAws q a =>
      match q in Request R return AWSError + R -> list RepositorySummary with
      | ListRepositories _ => fun a =>
          match a with
          | inr page =>
              match repositories page with Some l => l | None => [] end
          | inl _ => []
          end
      | _ => fun _ => []
      end a
  | _ => []
  end.

(** The tags read, with the ARN they were asked for. *)
Definition examined_of (ev : Event) : list (string * option (list Tag)) :=
  match ev with
  | EvAws q a =>
      match q in Request R
            return AWSError + R -> list (string * option (list Tag)) with
      | ListTagsForResource resourceArn => fun a =>
          match a with
          | inr tags => [(resourceArn, tags)]
          | inl _ => []
          end
      | _ => fun _ => []
      end a
  | _ => []
  end.

(** The ARNs whose tags were asked for, whatever the answer. *)
Definition tag_requests_of (ev : Event) : list string :=
  match ev with
  | EvAws q _ =>
      match q with
      | ListTagsForResource resourceArn => [resourceArn]
      | _ => []
      end
  | _ => []
  end.

(** The (domain, repository) pairs of the [deleteRepository] requests. *)
Definition delete_requests_of (ev : Event) : list (string * string) :=
  match ev with
  | EvAws q _ =>
      match q with
      | DeleteRepository d n => [(d, n)]
      | _ => []
      end
  | _ => []
  end.

(** Those of the [deleteRepository] requests that resolved. *)
Definition deleted_of (ev : Event) : list (string * string) :=
  match ev with
  | EvAws q (inr _) =>
      match q with
      | DeleteRepository d n => [(d, n)]
      | _ => []
      end
  | _ => []
  end.

(** The repository names of the [createRepository] requests. *)
Definition create_requests_of (ev : Event) : list string :=
  match ev with
  | EvAws q _ =>
      match q with
      | CreateRepository _ n _ _ _ => [n]
      | _ => []
      end
  | _ => []
  end.

(** The repository names of the [describeRepository] probes rejected with
    [ResourceNotFoundException]. *)
Definition missing_of (ev : Event) : list string :=
  match ev with
  | EvAws q (inl e) =>
      match q with
      | DescribeRepository _ n =>
          if String.eqb (code e) ResourceNotFoundException then [n] else []
      | _ => []
      end
  | _ => []
  end.

(** The endpoint lookups, by (repository, format). *)
Definition endpoint_requests_of (ev : Event) : list (string * string) :=
  match ev with
  | EvAws q _ =>
      match q with
      | GetRepositoryEndpoint _ n f => [(n, f)]
      | _ => []
      end
  | _ => []
  end.

(** The (repository, connection) pairs of the association requests. *)
Definition associate_requests_of (ev : Event) : list (string * string) :=
  match ev with
  | EvAws q _ =>
      match q with
      | AssociateExternalConnection _ n ext => [(n, ext)]
      | _ => []
      end
  | _ => []
  end.

Definition readings_of (ev : Event) : list Z :=
  match ev with
  | EvNow t => [t]
  | _ => []
  end.

Definition listed := flat_map listed_of.
Definition examined := flat_map examined_of.
Definition tag_requests := flat_map tag_requests_of.
Definition delete_requests := flat_map delete_requests_of.
Definition deleted := flat_map deleted_of.
Definition create_requests := flat_map create_requests_of.
Definition missing := flat_map missing_of.
Definition endpoint_requests := flat_map endpoint_requests_of.
Definition associate_requests := flat_map associate_requests_of.
Definition readings := flat_map readings_of.

(** How a listed repository is named in a [deleteRepository] request. *)
Definition ident (r : RepositorySummary) : string * string :=
  (domainName r, name r).

(** A tag with key ["collect-by"] whose value converts to a number below
    [now]. *)
Definition expired_tag (number : string -> JsNumber) (now : Z) (t : Tag) : bool :=
  String.eqb (key t) "collect-by" && js_lt (number (value t)) (of_Z now).

Definition expired (number : string -> JsNumber) (now : Z)
    (tags : option (list Tag)) : bool :=
  match tags with
  | Some l => existsb (expired_tag number now) l
  | None => false
  end.

(** Kinds of requests, and the rejection that the probes absorb. *)
Definition is_associate {R} (q : Request R) : bool :=
  match q with
  | AssociateExternalConnection _ _ _ => true
  | _ => false
  end.

Definition is_probe {R} (q : Request R) : bool :=
  match q with
  | DescribeDomain _ | DescribeRepository _ _ => true
  | _ => false
  end.

Definition is_delete {R} (q : Request R) : bool :=
  match q with
  | DeleteRepository _ _ => true
  | _ => false
  end.

Definition not_found (e : AWSError) : bool :=
  String.eqb (code e) "ResourceNotFoundException".

(** ** A reference registry

    An in-memory registry to run the program on: domains and repositories
    are kept in lists, [listRepositories] pages through them [pageSize] at
    a time with the decimal offset as continuation token, and [plan] can
    make the n-th request served fail.  Its [Number] reads strings of
    decimal digits (the empty string is 0, as in ECMAScript) and answers
    [NaN] for every other string. *)
Module Registry.

Record Repository : Type := mkRepository {
  repo_domain : string;
  repo_name : string;
  repo_tags : list Tag;
  repo_upstreams : list UpstreamRepository;
  repo_connections : list string
}.

Record State : Type := mkState {
  domains : list string;
  repos : list Repository;
  clock : Z;
  served : nat
}.

Definition Plan : Type := nat -> forall R : Type, Request R -> option AWSError.

Definition no_faults : Plan := fun _ _ _ => None.

Definition notFound : AWSError :=
  mkError "ResourceNotFoundException" "not found".
Definition conflict : AWSError :=
  mkError "ConflictException" "already exists".

Definition arn_of (d n : string) : string :=
  ("arn:aws:codeartifact:repository/" ++ d ++ "/" ++ n)%string.

Definition summary (r : Repository) : RepositorySummary :=
  mkSummary (repo_name r) (repo_domain r) (arn_of (repo_domain r) (repo_name r)).

Definition is_repo (d n : string) (r : Repository) : bool :=
  String.eqb (repo_domain r) d && String.eqb (repo_name r) n.

Definition has_domain (st : State) (d : string) : bool :=
  existsb (String.eqb d) (domains st).

Definition has_repo (st : State) (d n : string) : bool :=
  existsb (is_repo d n) (repos st).

Definition with_repos (st : State) (l : list Repository) : State :=
  mkState (domains st) l (clock st) (served st).

Definition offset_of (token : option string) : nat :=
  match token with
  | Some s =>
      match NilEmpty.uint_of_string s with
      | Some u => Nat.of_uint u
      | None => O
      end
  | None => O
  end.

Definition token_of (n : nat) : string := string_of_Z (Z.of_nat n).

(** The answer of a registry without faults. *)
Definition serve (pageSize : nat) {R} (q : Request R) (st : State)
  : (AWSError + R) * State :=
  match q in Request R return (AWSError + R) * State with
  | DescribeDomain d =>
      (if has_domain st d then inr tt else inl notFound, st)
  | CreateDomain d _ =>
      if has_domain st d then (inl conflict, st)
      else (inr tt, mkState (d :: domains st) (repos st) (clock st) (served st))
  | DescribeRepository d n =>
      (if has_repo st d n then inr tt else inl notFound, st)
  | CreateRepository d n _ ups tags =>
      if negb (has_domain st d) then (inl notFound, st)
      else if has_repo st d n then (inl conflict, st)
      else (inr tt,
            with_repos st
              (repos st ++
               [mkRepository d n
                  (match tags with Some l => l | None => [] end)
                  (match ups with Some l => l | None => [] end) []]))
  | AssociateExternalConnection d n ext =>
      if has_repo st d n then
        (inr tt,
         with_repos st
           (map (fun r =>
                   if is_repo d n r
                   then mkRepository (repo_domain r) (repo_name r) (repo_tags r)
                          (repo_upstreams r) (ext :: repo_connections r)
                   else r) (repos st)))
      else (inl notFound, st)
  | DeleteRepository d n =>
      if has_repo st d n then
        (inr tt, with_repos st (filter (fun r => negb (is_repo d n r)) (repos st)))
      else (inl notFound, st)
  | ListRepositories token =>
      let from := offset_of token in
      let rest := skipn from (repos st) in
      (inr (mkPage (Some (map summary (firstn pageSize rest)))
              (if Nat.ltb pageSize (length rest)
               then Some (token_of (from + pageSize)) else None)),
       st)
  | ListTagsForResource a =>
      (match List.find (fun r => String.eqb (arn (summary r)) a) (repos st) with
       | Some r => inr (Some (repo_tags r))
       | None => inl notFound
       end, st)
  | GetAuthorizationToken d _ =>
      (if has_domain st d then inr ("token-for-" ++ d)%string else inl notFound, st)
  | GetRepositoryEndpoint d n f =>
      (if has_repo st d n
       then inr ("https://" ++ d ++ ".example/" ++ f ++ "/" ++ n ++ "/")%string
       else inl notFound, st)
  end.

Definition tick (st : State) : State :=
  mkState (domains st) (repos st) (clock st) (S (served st)).

Definition handle (plan : Plan) (pageSize : nat) (R : Type) (q : Request R)
    (st : State) : (AWSError + R) * State :=
  match plan (served st) R q with
  | Some e => (inl e, tick st)
  | None => serve pageSize q (tick st)
  end.

(** [Number] on the strings the scenarios use: a string of decimal
    digits is read as the integer it writes (the empty string as 0), and
    [NaN] is the answer for a string that is no numeric literal, such as
    ["tomorrow"].  It is not [Number] beyond that: numerals with a sign,
    a fraction, an exponent, a radix prefix or blanks around them, and
    integers too long for a double to hold exactly, are read by
    JavaScript in ways this stand-in does not follow, and the scenarios
    use none of them.  The theorems take [Number] from the host and do
    not depend on this definition. *)
Definition decimal_Number (s : string) : JsNumber :=
  match NilEmpty.uint_of_string s with
  | Some u => of_Z (Z.of_uint u)
  | None => NaN
  end.

Definition host (plan : Plan) (pageSize : nat) : Host State :=
  mkHost (handle plan pageSize)
    (fun st => (clock st, st))
    (fun ms st => mkState (domains st) (repos st) (clock st + ms) (served st))
    (fun _ st => st)
    (fun _ st => st)
    decimal_Number.

Definition empty (now : Z) : State := mkState [] [] now O.

End Registry.

(** ** Notions used in the statements *)

(** The state in which [retry] starts its next attempt after the failure
    [e]: the message is logged and the loop sleeps 500 ms. *)
Definition pause {W} (host : Host W) (e : AWSError) (s : W) : W :=
  sleepFor host 500 (consoleDebug host (message e) s).

(** [count] observes how often [block] was invoked: every invocation adds
    one, and neither sleeping nor logging changes it. *)
Definition counts_invocations {W A} (host : Host W) (block : M W A)
    (count : W -> nat) : Prop :=
  (forall s, count (final (block s)) = S (count s)) /\
  (forall ms s, count (sleepFor host ms s) = count s) /\
  (forall msg s, count (consoleDebug host msg s) = count s).

(** A deletion request [dn] seen in [tr] is justified by one of the
    repositories [l]: its tags were read, and one of them has the key
    ["collect-by"] and a value below a clock reading of the run. *)
Definition justified {W} (host : Host W) (tr : list Event)
    (l : list RepositorySummary) (dn : string * string) : Prop :=
  exists r tags t T,
    In r l /\ dn = ident r /\
    In (arn r, Some tags) (examined tr) /\
    In t tags /\ key t = "collect-by" /\
    In T (readings tr) /\
    js_lt (Number host (value t)) (of_Z T) = true.

Definition found {A} (x : option A) : bool :=
  match x with
  | Some _ => true
  | None => false
  end.

(** Rejected requests. *)
Definition rejected (ev : Event) : bool :=
  match ev with
  | EvAws _ (inl _) => true
  | _ => false
  end.

Definition rejection_of (ev : Event) : option AWSError :=
  match ev with
  | EvAws _ (inl e) => Some e
  | _ => None
  end.

(** A run in which a rejected request ends the run with its error. *)
Definition orderly {W A} (o : Outcome W A) : Prop :=
  match result o with
  | Throw e =>
      exists pre ev, trace o = pre ++ [ev] /\
        forallb (fun ev => negb (rejected ev)) pre = true /\
        rejection_of ev = Some e
  | _ => forallb (fun ev => negb (rejected ev)) (trace o) = true
  end.

(** What the sweep owes to the repositories [l] when its run left the
    trace [tr] with result [res]: deletions are justified; and when the
    run completed, every repository had its tags read, and every tag list
    read and expired at the clock reading of the run led to the deletion
    of its repository. *)
Definition sweep_ok {W} (host : Host W) (l : list RepositorySummary)
    (tr : list Event) (res : Result unit) : Prop :=
  (forall dn, In dn (delete_requests tr) -> justified host tr l dn) /\
  (res = Ok tt ->
   forall r, In r l -> exists tags, In (arn r, tags) (examined tr)) /\
  (res = Ok tt ->
   forall now, Forall (eq now) (readings tr) ->
   forall a tags, In (a, tags) (examined tr) ->
     expired (Number host) now tags = true ->
     exists r, In r l /\ arn r = a /\ In (ident r) (deleted tr)).

(** A failed attempt of [retry] on the request [q], and a row of them. *)
Definition failed_attempt {R} (q : Request R) (e : AWSError) : list Event :=
  [EvAws q (inl e); EvDebug (message e); EvSleep 500].

Definition failed_attempts {R} (q : Request R) (fails : list AWSError)
  : list Event :=
  flat_map (failed_attempt q) fails.

(** What [retry] leaves when given a single request and [attempts]
    retries: failed attempts, then either a success, or one more failure
    once the retries are used up. *)
Definition retry_run {R} (attempts : nat) (q : Request R)
    (tr : list Event) (res : Result R) : Prop :=
  exists fails,
    (length fails <= attempts)%nat /\
    ((exists r, tr = failed_attempts q fails ++ [EvAws q (inr r)] /\
                res = Ok r) \/
     (exists e, length fails = attempts /\
                tr = failed_attempts q fails ++
                     [EvAws q (inl e); EvDebug (message e)] /\
                res = Throw e)).

(** The steps of provisioning, as the registry sees them when they
    succeed: a probe that finds the resource, or a probe answered
    not-found followed by the creation (and, for an upstream, by the
    association, after at most three failed attempts). *)
Definition domain_ensured (t : list Event) : Prop :=
  t = [EvAws (DescribeDomain "test-cdk") (inr tt)] \/
  exists e, not_found e = true /\
    t = [EvAws (DescribeDomain "test-cdk") (inl e);
         EvAws (CreateDomain "test-cdk" [mkTag "testing" "true"]) (inr tt)].

Definition upstream_ensured (n description connection : string)
    (t : list Event) : Prop :=
  t = [EvAws (DescribeRepository "test-cdk" n) (inr tt)] \/
  exists e fails, not_found e = true /\ (length fails <= 3)%nat /\
    t = [EvAws (DescribeRepository "test-cdk" n) (inl e);
         EvAws (CreateRepository "test-cdk" n (Some description) None None)
           (inr tt)] ++
        failed_attempts
          (AssociateExternalConnection "test-cdk" n connection) fails ++
        [EvAws (AssociateExternalConnection "test-cdk" n connection) (inr tt)].

Definition sandbox_ensured (n : string) (now : Z) (t : list Event) : Prop :=
  t = [EvAws (DescribeRepository "test-cdk" n) (inr tt)] \/
  exists e, not_found e = true /\
    t = [EvAws (DescribeRepository "test-cdk" n) (inl e);
         EvAws (CreateRepository "test-cdk" n (Some "Testing repository")
                  (Some [mkUpstream "npm-upstream"; mkUpstream "pypi-upstream";
                         mkUpstream "nuget-upstream";
                         mkUpstream "maven-upstream"])
                  (Some [mkTag "collect-by" (string_of_Z (now + 86400000))]))
           (inr tt)].

(** What follows a rejected request [ev] in a run of provisioning with
    result [res], [post] being the rest of the trace: a rejected
    association is logged and, after 500 ms, requested again, unless the
    run ends there with its error; a probe answered not-found goes on;
    any other rejection ends the run with its error. *)
Definition verdict {A} (ev : Event) (post : list Event) (res : Result A)
  : Prop :=
  match ev with
  | EvAws q (inl e) =>
      if is_associate q then
        (post = [EvDebug (message e)] /\ res = Throw e) \/
        (exists a post',
           post = EvDebug (message e) :: EvSleep 500 :: EvAws q a :: post')
      else if is_probe q && not_found e then True
      else post = [] /\ res = Throw e
  | _ => True
  end.

Definition fail_fast {A} (tr : list Event) (res : Result A) : Prop :=
  forall pre ev post, tr = pre ++ ev :: post -> verdict ev post res.

(** [P] holds on, whatever the host does short of deleting a
    repository. *)
Definition keeps {W} (host : Host W) (P : W -> bool) : Prop :=
  (forall R (q : Request R) st,
     is_delete q = false -> P st = true -> P (snd (aws host q st)) = true) /\
  (forall st, P st = true -> P (snd (dateNow host st)) = true) /\
  (forall ms st, P st = true -> P (sleepFor host ms st) = true) /\
  (forall args st, P st = true -> P (consoleLog host args st) = true) /\
  (forall msg st, P st = true -> P (consoleDebug host msg st) = true).

(** A registry that remembers: what a probe has found or a request has
    created stays present until deleted, and what is present is found by
    the probe. *)
Definition remembers {W} (host : Host W)
    (domain_present : W -> bool) (repo_present : string -> W -> bool)
  : Prop :=
  keeps host domain_present /\
  (forall n, keeps host (repo_present n)) /\
  (forall st, domain_present st = true ->
     fst (aws host (DescribeDomain "test-cdk") st) = inr tt) /\
  (forall st, fst (aws host (DescribeDomain "test-cdk") st) = inr tt ->
     domain_present (snd (aws host (DescribeDomain "test-cdk") st)) = true) /\
  (forall tags st,
     fst (aws host (CreateDomain "test-cdk" tags) st) = inr tt ->
     domain_present (snd (aws host (CreateDomain "test-cdk" tags) st)) = true) /\
  (forall n st, repo_present n st = true ->
     fst (aws host (DescribeRepository "test-cdk" n) st) = inr tt) /\
  (forall n st,
     fst (aws host (DescribeRepository "test-cdk" n) st) = inr tt ->
     repo_present n (snd (aws host (DescribeRepository "test-cdk" n) st))
       = true) /\
  (forall n d u t st,
     fst (aws host (CreateRepository "test-cdk" n d u t) st) = inr tt ->
     repo_present n (snd (aws host (CreateRepository "test-cdk" n d u t) st))
       = true).

(** [m] keeps [P] true, and [m] makes [P] true when it succeeds. *)
Definition preserves {W A} (P : W -> bool) (m : M W A) : Prop :=
  forall s, P s = true -> P (final (m s)) = true.

Definition establishes {W A} (P : W -> bool) (m : M W A) : Prop :=
  forall s a, result (m s) = Ok a -> P (final (m s)) = true.

(** In a successful run of [m], with [P] telling whether the repository
    [n] is present: nothing is created but what a probe reported missing;
    [n] is not reported missing when present, is reported missing at most
    once, and is present afterwards if it was present or reported
    missing. *)
Definition tidy {W A} (P : W -> bool) (n : string) (m : M W A) : Prop :=
  forall s a, result (m s) = Ok a ->
    let tr := trace (m s) in
    (P s = true -> ~ In n (missing tr) /\ P (final (m s)) = true) /\
    (count_occ string_dec (missing tr) n <= 1)%nat /\
    (In n (missing tr) -> P (final (m s)) = true) /\
    create_requests tr = missing tr.

(** ** Scenarios on the reference registry *)

Definition throttled : AWSError := mkError "ThrottlingException" "slow down".

(** The first [k] requests served are rejected. *)
Definition fail_first (k : nat) : Registry.Plan :=
  fun n _ _ => if Nat.ltb n k then Some throttled else None.

(** Every association request is rejected. *)
Definition reject_associations : Registry.Plan :=
  fun _ _ q => if is_associate q then Some throttled else None.

(** A registry with the shared domain and nothing else. *)
Definition domain_only : Registry.State :=
  Registry.mkState ["test-cdk"] [] 1700000000000 O.

(** A registry with the shared domain and the npm upstream. *)
Definition with_npm : Registry.State :=
  Registry.mkState ["test-cdk"]
    [Registry.mkRepository "test-cdk" "npm-upstream" [] [] []]
    1700000000000 O.

Definition associate_npm {W} (host : Host W) : M W unit :=
  call host (AssociateExternalConnection "test-cdk" "npm-upstream" "public:npmjs").

Definition npm_options : RepositoryOptions :=
  mkOptions (Some "The upstream repository for NPM") (Some "public:npmjs")
    None None.

Definition denied : AWSError := mkError "AccessDeniedException" "denied".

(** Every deletion request is rejected. *)
Definition reject_deletes : Registry.Plan :=
  fun _ _ q => if is_delete q then Some denied else None.

Definition old_repo : Registry.Repository :=
  Registry.mkRepository "test-cdk" "test-old"
    [mkTag "collect-by" "1699990000000"] [] [].
Definition older_repo : Registry.Repository :=
  Registry.mkRepository "test-cdk" "test-older"
    [mkTag "collect-by" "1699980000000"] [] [].
Definition new_repo : Registry.Repository :=
  Registry.mkRepository "test-cdk" "test-new"
    [mkTag "collect-by" "1700086400000"] [] [].
Definition odd_repo : Registry.Repository :=
  Registry.mkRepository "test-cdk" "test-odd"
    [mkTag "collect-by" "tomorrow"] [] [].
Definition plain_repo : Registry.Repository :=
  Registry.mkRepository "test-cdk" "npm-upstream" [] [] ["public:npmjs"].

(** Four repositories, swept two per page: one without tag, one not yet
    due, one past its time, one with a tag that is not a number. *)
Definition sweep_state : Registry.State :=
  Registry.mkState ["test-cdk"] [plain_repo; new_repo; old_repo; odd_repo]
    1700000000000 O.

(** Two repositories past their time. *)
Definition two_expired : Registry.State :=
  Registry.mkState ["test-cdk"] [old_repo; older_repo] 1700000000000 O.

(** Every creation of a repository is rejected. *)
Definition reject_creations : Registry.Plan :=
  fun _ _ q =>
    match q with
    | CreateRepository _ _ _ _ _ => Some denied
    | _ => None
    end.

(** ** The random name

    [newRandom] names the sandbox after [Math.random().toString(36)]; the
    string so rendered is taken as an argument, and the rest is the
    program's: the characters outside [a-z0-9] are removed, and ["test-"]
    is put in front. *)

Definition is_lower_alnum (c : ascii) : bool :=
  let n := nat_of_ascii c in
  (Nat.leb 97 n && Nat.leb n 122) || (Nat.leb 48 n && Nat.leb n 57).

(** [s.replace(/[^a-z0-9]+/g, '')] *)
Fixpoint strip_non_alnum (s : string) : string :=
  match s with
  | EmptyString => EmptyString
  | String c s' =>
      if is_lower_alnum c then String c (strip_non_alnum s')
      else strip_non_alnum s'
  end.

Definition newRandom {W} (host : Host W) (rendered : string) : M W string :=
  let qualifier := strip_non_alnum rendered in
  let name := ("test-" ++ qualifier)%string in
  prepare host name ;;; ret name.

Fixpoint all_chars (p : ascii -> bool) (s : string) : bool :=
  match s with
  | EmptyString => true
  | String c s' => p c && all_chars p s'
  end.

(** ** More of what a trace shows *)

Definition sleeps_of (ev : Event) : list Z :=
  match ev with
  | EvSleep ms => [ms]
  | _ => []
  end.

(** The continuation tokens the pages were asked with, and the tokens the
    pages came back with. *)
Definition page_requests_of (ev : Event) : list (option string) :=
  match ev with
  | EvAws q _ =>
      match q with
      | ListRepositories token => [token]
      | _ => []
      end
  | _ => []
  end.

Definition page_tokens_of (ev : Event) : list (option string) :=
  match ev with
  | EvAws q a =>
      match q in Request R return AWSError + R -> list (option string) with
      | ListRepositories _ => fun a =>
          match a with
          | inr page => [nextToken page]
          | inl _ => []
          end
      | _ => fun _ => []
      end a
  | _ => []
  end.

(** The repositories created, with the tags given to them. *)
Definition created_tags_of (ev : Event) : list (string * option (list Tag)) :=
  match ev with
  | EvAws q (inr _) =>
      match q with
      | CreateRepository _ n _ _ tags => [(n, tags)]
      | _ => []
      end
  | _ => []
  end.

Definition sleeps := flat_map sleeps_of.
Definition page_requests := flat_map page_requests_of.
Definition page_tokens := flat_map page_tokens_of.
Definition created_tags := flat_map created_tags_of.

Definition total (l : list Z) : Z := fold_right Z.add 0 l.

(** The upstreams and the public sources they are connected to. *)
Definition upstream_connections : list (string * string) :=
  [("npm-upstream", "public:npmjs");
   ("maven-upstream", "public:maven-central");
   ("nuget-upstream", "public:nuget-org");
   ("pypi-upstream", "public:pypi")].

Definition elem (x : string) (l : list string) : bool :=
  existsb (String.eqb x) l.

Definition elem2 (x y : string) (l : list (string * string)) : bool :=
  existsb (fun p => String.eqb x (fst p) && String.eqb y (snd p)) l.

(** What [prepare] may leave in its trace: probes and creations of the
    domain, of the upstreams and of the sandbox, associations of the
    upstreams with their sources, readings of the clock, and the log and
    the sleep of 500 ms of [retry]. *)
Definition prepare_event (repositoryName : string) (ev : Event) : bool :=
  match ev with
  | EvAws q _ =>
      match q with
      | DescribeDomain d => String.eqb d "test-cdk"
      | CreateDomain d tags =>
          String.eqb d "test-cdk" &&
          match tags with
          | [t] => String.eqb (key t) "testing" && String.eqb (value t) "true"
          | _ => false
          end
      | DescribeRepository d n =>
          String.eqb d "test-cdk" &&
          elem n (repositoryName :: map fst upstream_connections)
      | CreateRepository d n _ _ _ =>
          String.eqb d "test-cdk" &&
          elem n (repositoryName :: map fst upstream_connections)
      | AssociateExternalConnection d n ext =>
          String.eqb d "test-cdk" && elem2 n ext upstream_connections
      | _ => false
      end
  | EvNow _ => true
  | EvSleep ms => Z.eqb ms 500
  | EvDebug _ => true
  | EvLog _ => false
  end.

(** What [gc] may leave: the probe of the domain, pages, tags, deletions
    with their log, and readings of the clock. *)
Definition gc_event (ev : Event) : bool :=
  match ev with
  | EvAws q _ =>
      match q with
      | DescribeDomain d => String.eqb d "test-cdk"
      | ListRepositories _ => true
      | ListTagsForResource _ => true
      | DeleteRepository _ _ => true
      | _ => false
      end
  | EvNow _ => true
  | EvLog args =>
      match args with
      | [a; _] => String.eqb a "Deleting"
      | _ => false
      end
  | _ => false
  end.

(** What [loginInformation] may leave: the token request for twelve
    hours and the endpoint lookups of the sandbox. *)
Definition login_event (repositoryName : string) (ev : Event) : bool :=
  match ev with
  | EvAws q _ =>
      match q with
      | GetAuthorizationToken d seconds =>
          String.eqb d "test-cdk" && Z.eqb seconds 43200
      | GetRepositoryEndpoint d n f =>
          String.eqb d "test-cdk" && String.eqb n repositoryName &&
          elem f ["npm"; "maven"; "nuget"; "pypi"]
      | _ => false
      end
  | _ => false
  end.

(** A property of traces that holds of the empty trace and of the
    concatenation of two traces that have it. *)
Definition closed (P : list Event -> Prop) : Prop :=
  P [] /\ forall a b, P a -> P b -> P (a ++ b).

Definition empty_connection : RepositoryOptions :=
  mkOptions (Some "No connection") (Some "") None None.

(** The registry after provisioning the sandbox ["test-abc"]. *)
Definition provisioned : Registry.State :=
  final (prepare (Registry.host Registry.no_faults 2) "test-abc"
           (Registry.empty 1700000000000)).

(** A page that comes back with an empty token, whatever the request. *)
Definition empty_token_host : Host unit :=
  mkHost
    (fun R (q : Request R) st =>
       (match q in Request R return AWSError + R with
        | ListRepositories _ => inr (mkPage None (Some ""))
        | DescribeDomain _ => inr tt
        | _ => inl throttled
        end, st))
    (fun st => (0, st)) (fun _ st => st) (fun _ st => st) (fun _ st => st)
    (fun _ => NaN).

(** Probes, as events. *)
Definition probe_event (ev : Event) : bool :=
  match ev with
  | EvAws q _ => is_probe q
  | _ => false
  end.

(** What the pages of the sweep may leave: everything [gc] may leave but
    the probe of the domain. *)
Definition sweep_event (ev : Event) : bool :=
  gc_event ev && negb (probe_event ev).

(** The tags that make [find] read the clock. *)
Definition collect_keys (l : list Tag) : list Tag :=
  filter (fun t => String.eqb (key t) COLLECT_BY_TAG) l.

(** A budget for the pauses, the associations, the readings of the clock
    and the creations of a run. *)
Definition within (pauses associations clock creations : nat)
    (tr : list Event) : Prop :=
  (length (sleeps tr) <= pauses)%nat /\
  (length (associate_requests tr) <= associations)%nat /\
  (length (readings tr) <= clock)%nat /\
  (length (create_requests tr) <= creations)%nat.

(** Every reading of tags is rejected. *)
Definition reject_tag_reads : Registry.Plan :=
  fun _ _ q =>
    match q with
    | ListTagsForResource _ => Some denied
    | _ => None
    end.

(** A repository with tags, none of which tells when to collect it. *)
Definition kept_repo : Registry.Repository :=
  Registry.mkRepository "test-cdk" "test-kept"
    [mkTag "testing" "true"; mkTag "owner" "integ"] [] [].

Definition kept_state : Registry.State :=
  Registry.mkState ["test-cdk"] [kept_repo] 1700000000000 O.

(** What the examination of one repository may leave: of the events of
    the sweep, all but the requests for a page. *)
Definition repo_event (ev : Event) : bool :=
  sweep_event ev &&
  match page_requests_of ev with
  | [] => true
  | _ => false
  end.

(** The repositories announced on the console before their deletion. *)
Definition announced_of (ev : Event) : list string :=
  match ev with
  | EvLog ["Deleting"; n] => [n]
  | _ => []
  end.

Definition announced := flat_map announced_of.

(** A repository with two tags that tell when to collect it: one that is
    not a number, one past its time. *)
Definition twice_tagged : Registry.Repository :=
  Registry.mkRepository "test-cdk" "test-twice"
    [mkTag "collect-by" "tomorrow"; mkTag "testing" "true";
     mkTag "collect-by" "1699990000000"] [] [].

Definition twice_tagged_state : Registry.State :=
  Registry.mkState ["test-cdk"] [twice_tagged] 1700000000000 O.

(** ** Runs and the host

    [performed host s tr s']: the trace [tr] is what the host did from the
    state [s] to the state [s'].  Every request recorded was sent to the
    host in the state reached so far and got the answer recorded with it,
    every reading recorded is what the clock of the host gave there, and
    sleeping and logging went through the host as well. *)
Fixpoint performed {W} (host : Host W) (s : W) (tr : list Event) (s' : W)
  : Prop :=
  match tr with
  | [] => s' = s
  | EvAws q a :: tr' =>
      fst (aws host q s) = a /\ performed host (snd (aws host q s)) tr' s'
  | EvNow t :: tr' =>
      fst (dateNow host s) = t /\
      performed host (snd (dateNow host s)) tr' s'
  | EvSleep ms :: tr' => performed host (sleepFor host ms s) tr' s'
  | EvLog args :: tr' => performed host (consoleLog host args s) tr' s'
  | EvDebug msg :: tr' => performed host (consoleDebug host msg s) tr' s'
  end.

(** A program whose trace and final state are what the host did. *)
Definition honest {W A} (host : Host W) (m : M W A) : Prop :=
  forall s, performed host s (trace (m s)) (final (m s)).

(** ** The examination of a repository, in the words of the spec

    The first [n] readings of the clock from the state [s] on. *)
Fixpoint clock_readings {W} (host : Host W) (n : nat) (s : W) : list Z :=
  match n with
  | O => []
  | S n' =>
      fst (dateNow host s) :: clock_readings host n' (snd (dateNow host s))
  end.

(** The tags of key ["collect-by"] among the tags read. *)
Definition collect_tags (tags : option (list Tag)) : list Tag :=
  match tags with
  | Some l => collect_keys l
  | None => []
  end.

(** A tag is past its time at the reading taken for it. *)
Definition past (number : string -> JsNumber) (p : Tag * Z) : bool :=
  js_lt (number (value (fst p))) (of_Z (snd p)).

(** The readings taken for the tags [ks], one each, up to and including
    the first at which its tag is past its time. *)
Fixpoint tested (number : string -> JsNumber) (ks : list Tag) (ts : list Z)
  : list Z :=
  match ks, ts with
  | k :: ks', t :: ts' =>
      t :: (if past number (k, t) then [] else tested number ks' ts')
  | _, _ => []
  end.

(** The tags hold a ["collect-by"] tag whose number is below the clock,
    each such tag being compared with a reading of its own, taken from
    the state [s] on. *)
Definition due {W} (host : Host W) (tags : option (list Tag)) (s : W)
  : bool :=
  existsb (past (Number host))
    (combine (collect_tags tags)
       (clock_readings host (length (collect_tags tags)) s)).

(** What follows the reading of the tags of [r], answered with [tags] in
    the state [s], when nothing is rejected: the readings of the clock,
    and the announcement and the deletion of [r] exactly when it is
    due. *)
Definition examination {W} (host : Host W) (r : RepositorySummary)
    (tags : option (list Tag)) (s : W) : list Event :=
  map EvNow
    (tested (Number host) (collect_tags tags)
       (clock_readings host (length (collect_tags tags)) s)) ++
  (if due host tags s
   then [EvLog ["Deleting"; name r];
         EvAws (DeleteRepository (domainName r) (name r)) (inr tt)]
   else []).

(** The rest of a trace begins with the request for the tags of a
    repository or for a page, if it is not empty. *)
Definition begins_afresh (post : list Event) : bool :=
  match post with
  | [] => true
  | ev :: _ =>
      match tag_requests_of ev, page_requests_of ev with
      | [], [] => false
      | _, _ => true
      end
  end.

(** ** Absence

    The requests that create the repository [n]. *)
Definition creates {R} (n : string) (q : Request R) : bool :=
  match q with
  | CreateRepository _ m _ _ _ => String.eqb m n
  | _ => false
  end.

(** On a registry that invents nothing, a repository that is absent is
    reported missing by the probe and stays absent until its creation is
    requested. *)
Definition invents_nothing {W} (host : Host W)
    (repo_present : string -> W -> bool) (n : string) : Prop :=
  (forall R (q : Request R) st,
     creates n q = false -> repo_present n st = false ->
     repo_present n (snd (aws host q st)) = false) /\
  (forall st, repo_present n st = false ->
     repo_present n (snd (dateNow host st)) = false) /\
  (forall ms st, repo_present n st = false ->
     repo_present n (sleepFor host ms st) = false) /\
  (forall args st, repo_present n st = false ->
     repo_present n (consoleLog host args st) = false) /\
  (forall msg st, repo_present n st = false ->
     repo_present n (consoleDebug host msg st) = false) /\
  (forall st, repo_present n st = false ->
     exists e, fst (aws host (DescribeRepository "test-cdk" n) st) = inl e /\
               not_found e = true).

(** ** More scenarios

    The reference registry with a clock that advances by one millisecond
    at every reading. *)
Definition ticking_host (plan : Registry.Plan) (pageSize : nat)
  : Host Registry.State :=
  mkHost (Registry.handle plan pageSize)
    (fun st =>
       (Registry.clock st,
        Registry.mkState (Registry.domains st) (Registry.repos st)
          (Registry.clock st + 1) (Registry.served st)))
    (fun ms st =>
       Registry.mkState (Registry.domains st) (Registry.repos st)
         (Registry.clock st + ms) (Registry.served st))
    (fun _ st => st)
    (fun _ st => st)
    Registry.decimal_Number.

(** Two repositories with the same tag, swept while the clock passes the
    time of the tag. *)
Definition repo_a : Registry.Repository :=
  Registry.mkRepository "test-cdk" "test-a" [mkTag "collect-by" "100"] [] [].
Definition repo_b : Registry.Repository :=
  Registry.mkRepository "test-cdk" "test-b" [mkTag "collect-by" "100"] [] [].
Definition same_tag_state : Registry.State :=
  Registry.mkState ["test-cdk"] [repo_a; repo_b] 100 O.

(** A repository whose first tag is past its time, with two more behind
    it. *)
Definition early_tagged : Registry.Repository :=
  Registry.mkRepository "test-cdk" "test-early"
    [mkTag "collect-by" "1699990000000"; mkTag "collect-by" "tomorrow";
     mkTag "collect-by" "1699980000000"] [] [].

Definition early_tagged_state : Registry.State :=
  Registry.mkState ["test-cdk"] [early_tagged] 1700000000000 O.

(** The sandbox ["test-abc"], provisioned, one day and an hour later. *)
Definition provisioned_later : Registry.State :=
  sleepFor (Registry.host Registry.no_faults 2) (25 * 3600 * 1000)
    provisioned.

(** The characters of [a-z0-9]. *)
Definition lower_alnum : string := "abcdefghijklmnopqrstuvwxyz0123456789".

Definition in_lower_alnum (c : ascii) : bool :=
  existsb (Ascii.eqb c) (list_ascii_of_string lower_alnum).

(** * Properties *)

(** ** Running the primitives *)

Section Exec.
Context {W : Type} (host : Host W).

Lemma call_ok {R} (q : Request R) s r s' :
  aws host q s = (inr r, s') ->
  call host q s = mkOutcome (Ok r) s' [EvAws q (inr r)].
Proof. intros H. unfold call. rewrite H. reflexivity. Qed.

Lemma call_throw {R} (q : Request R) s e s' :
  aws host q s = (inl e, s') ->
  call host q s = mkOutcome (Throw e) s' [EvAws q (inl e)].
Proof. intros H. unfold call. rewrite H. reflexivity. Qed.

Lemma bind_ok {A B} (m : M W A) (k : A -> M W B) s a s' t :
  m s = mkOutcome (Ok a) s' t ->
  bind m k s =
  mkOutcome (result (k a s')) (final (k a s')) (t ++ trace (k a s')).
Proof. intros H. unfold bind. rewrite H. reflexivity. Qed.

Lemma bind_throw {A B} (m : M W A) (k : A -> M W B) s e s' t :
  m s = mkOutcome (Throw e) s' t ->
  bind m k s = mkOutcome (Throw e) s' t.
Proof. intros H. unfold bind. rewrite H. reflexivity. Qed.

(** One round of [retry]: a failed attempt is logged, and either is the
    last one or is followed by a sleep and the remaining rounds. *)
Lemma retry_loop_ok {A} (block : M W A) n s v :
  result (block s) = Ok v ->
  retry_loop host n block s = block s.
Proof.
  intros H. destruct n; simpl; unfold try_catch; rewrite H; reflexivity.
Qed.

Lemma retry_loop_last {A} (block : M W A) s e :
  result (block s) = Throw e ->
  retry_loop host 0 block s =
  mkOutcome (Throw e) (consoleDebug host (message e) (final (block s)))
    (trace (block s) ++ [EvDebug (message e)]).
Proof.
  intros H. simpl. unfold try_catch. rewrite H. reflexivity.
Qed.

Lemma retry_loop_again {A} (block : M W A) n s e :
  result (block s) = Throw e ->
  let o := retry_loop host n block (pause host e (final (block s))) in
  retry_loop host (S n) block s =
  mkOutcome (result o) (final o)
    (trace (block s) ++ [EvDebug (message e); EvSleep 500] ++ trace o).
Proof.
  intros H. simpl. unfold try_catch at 1. rewrite H.
  unfold bind, console_debug, sleep, pause. simpl.
  destruct (result _); reflexivity.
Qed.
End Exec.

(** ** The retry helper *)

(** C3: an action that fails twice and then succeeds is invoked three
    times, with a logged failure and a sleep of 500 ms between two
    attempts, and its value is returned; an action whose four attempts
    fail is invoked four times, with three such pauses, and the failure of
    the fourth attempt is thrown.  The run of [retry] is the attempts in
    sequence, and any observer that counts invocations reads 3, resp. 4,
    more at the end. *)
Theorem retry_attempts :
  forall (W A : Type) (host : Host W) (block : M W A) (s0 : W),
    let o1 := block s0 in
    (forall e1 e2 v,
       let o2 := block (pause host e1 (final o1)) in
       let o3 := block (pause host e2 (final o2)) in
       result o1 = Throw e1 -> result o2 = Throw e2 -> result o3 = Ok v ->
       retry host block s0 =
         mkOutcome (Ok v) (final o3)
           (trace o1 ++ [EvDebug (message e1); EvSleep 500] ++
            trace o2 ++ [EvDebug (message e2); EvSleep 500] ++
            trace o3) /\
       forall count, counts_invocations host block count ->
         count (final (retry host block s0)) = (count s0 + 3)%nat) /\
    (forall e1 e2 e3 e4,
       let o2 := block (pause host e1 (final o1)) in
       let o3 := block (pause host e2 (final o2)) in
       let o4 := block (pause host e3 (final o3)) in
       result o1 = Throw e1 -> result o2 = Throw e2 ->
       result o3 = Throw e3 -> result o4 = Throw e4 ->
       retry host block s0 =
         mkOutcome (Throw e4) (consoleDebug host (message e4) (final o4))
           (trace o1 ++ [EvDebug (message e1); EvSleep 500] ++
            trace o2 ++ [EvDebug (message e2); EvSleep 500] ++
            trace o3 ++ [EvDebug (message e3); EvSleep 500] ++
            trace o4 ++ [EvDebug (message e4)]) /\
       forall count, counts_invocations host block count ->
         count (final (retry host block s0)) = (count s0 + 4)%nat).
Proof.
  intros W A host block s0 o1. split.
  - intros e1 e2 v o2 o3 H1 H2 H3.
    assert (E : retry host block s0 =
         mkOutcome (Ok v) (final o3)
           (trace o1 ++ [EvDebug (message e1); EvSleep 500] ++
            trace o2 ++ [EvDebug (message e2); EvSleep 500] ++
            trace o3)).
    { unfold retry. subst o1 o2 o3.
      rewrite (retry_loop_again host 2 H1). cbv zeta.
      rewrite (retry_loop_again host 1 H2). cbv zeta.
      rewrite (retry_loop_ok host 1 H3). simpl. rewrite H3. reflexivity. }
    split; [exact E|].
    intros count (Hb & Hs & Hd). rewrite E. simpl.
    unfold o3, o2, o1, pause. repeat first [rewrite Hb | rewrite Hs | rewrite Hd]. lia.
  - intros e1 e2 e3 e4 o2 o3 o4 H1 H2 H3 H4.
    assert (E : retry host block s0 =
         mkOutcome (Throw e4) (consoleDebug host (message e4) (final o4))
           (trace o1 ++ [EvDebug (message e1); EvSleep 500] ++
            trace o2 ++ [EvDebug (message e2); EvSleep 500] ++
            trace o3 ++ [EvDebug (message e3); EvSleep 500] ++
            trace o4 ++ [EvDebug (message e4)])).
    { unfold retry. subst o1 o2 o3 o4.
      rewrite (retry_loop_again host 2 H1). cbv zeta.
      rewrite (retry_loop_again host 1 H2). cbv zeta.
      rewrite (retry_loop_again host 0 H3). cbv zeta.
      rewrite (retry_loop_last host H4). reflexivity. }
    split; [exact E|].
    intros count (Hb & Hs & Hd). rewrite E. simpl.
    unfold o4, o3, o2, o1, pause. repeat first [rewrite Hb | rewrite Hs | rewrite Hd]. lia.
Qed.

Lemma served_counts_associate_npm k :
  let h := Registry.host (fail_first k) 2 in
  counts_invocations h (associate_npm h) Registry.served.
Proof.
  intros h. repeat split.
  intros s. unfold associate_npm, call, h. simpl.
  unfold Registry.handle, fail_first.
  destruct (Nat.ltb (Registry.served s) k); simpl; [reflexivity|].
  destruct (Registry.has_repo _ _ _); reflexivity.
Qed.

Lemma retry_attempts_witness :
  (let h := Registry.host (fail_first 2) 2 in
   result (retry h (associate_npm h) with_npm) = Ok tt /\
   Registry.served (final (retry h (associate_npm h) with_npm)) = 3%nat) /\
  (let h := Registry.host (fail_first 4) 2 in
   result (retry h (associate_npm h) with_npm) = Throw throttled /\
   Registry.served (final (retry h (associate_npm h) with_npm)) = 4%nat).
Proof.
  split.
  - intros h.
    destruct (retry_attempts h (associate_npm h) with_npm) as [P _].
    destruct (P throttled throttled tt) as [E C]; try reflexivity.
    split.
    + rewrite E. reflexivity.
    + apply (C Registry.served). apply served_counts_associate_npm.
  - intros h.
    destruct (retry_attempts h (associate_npm h) with_npm) as [_ P].
    destruct (P throttled throttled throttled throttled) as [E C];
      try reflexivity.
    split.
    + rewrite E. reflexivity.
    + apply (C Registry.served). apply served_counts_associate_npm.
Defined.

(** ** Views of a trace *)

Ltac views :=
  unfold listed, examined, tag_requests, delete_requests, deleted,
    create_requests, missing, endpoint_requests, associate_requests,
    readings in *;
  repeat rewrite flat_map_app in *.

Ltac fold_views :=
  fold listed examined tag_requests delete_requests deleted
    create_requests missing endpoint_requests associate_requests
    readings in *.

(** ** Deleting a sandbox *)

(** C5: [delete] succeeds when the registry deletes the repository and
    when it rejects the request with "resource not found", and throws any
    other rejection unchanged.  Consequently, on a registry that deletes a
    repository that is present and answers not-found for one that is
    absent, two deletions in a row both succeed, the second one on a
    not-found answer. *)
Theorem delete_absorbs_not_found :
  forall (W : Type) (host : Host W) (repositoryName : string),
    let request := DeleteRepository "test-cdk" repositoryName in
    (forall s,
       let o := delete host repositoryName s in
       match fst (aws host request s) with
       | inr _ => result o = Ok tt
       | inl e => if not_found e then result o = Ok tt else result o = Throw e
       end) /\
    (forall present : W -> bool,
       (forall st, present st = true ->
          exists st', aws host request st = (inr tt, st') /\
                      present st' = false) ->
       (forall st, present st = false ->
          exists e st', aws host request st = (inl e, st') /\
                        not_found e = true /\ present st' = false) ->
       (forall args st, present (consoleLog host args st) = present st) ->
       forall s,
         let o1 := delete host repositoryName s in
         let o2 := delete host repositoryName (final o1) in
         result o1 = Ok tt /\ result o2 = Ok tt /\
         exists e, not_found e = true /\ trace o2 = [EvAws request (inl e)]).
Proof.
  intros W host repositoryName request.
  assert (Hgone : forall e st st',
    aws host request st = (inl e, st') -> not_found e = true ->
    delete host repositoryName st =
      mkOutcome (Ok tt) st' [EvAws request (inl e)]).
  { intros e st st' E N. unfold delete, try_catch.
    rewrite (bind_throw _ (call_throw E)). simpl.
    unfold not_found in N.
    change (String.eqb (code e) ResourceNotFoundException)
      with (String.eqb (code e) "ResourceNotFoundException").
    rewrite N. reflexivity. }
  assert (Hdone : forall st st',
    aws host request st = (inr tt, st') ->
    delete host repositoryName st =
      mkOutcome (Ok tt) (consoleLog host ["Deleted"; repositoryName] st')
        [EvAws request (inr tt); EvLog ["Deleted"; repositoryName]]).
  { intros st st' E. unfold delete, try_catch.
    rewrite (bind_ok _ (call_ok E)). reflexivity. }
  split.
  - intros s o. subst o.
    destruct (aws host request s) as [[e|[]] s'] eqn:E; simpl.
    + destruct (not_found e) eqn:N.
      * rewrite (Hgone _ _ _ E N). reflexivity.
      * unfold delete, try_catch.
        rewrite (bind_throw _ (call_throw E)). simpl.
        unfold not_found in N.
        change (String.eqb (code e) ResourceNotFoundException)
          with (String.eqb (code e) "ResourceNotFoundException").
        rewrite N. reflexivity.
    + rewrite (Hdone _ _ E). reflexivity.
  - intros present Hp Ha Hlog s o1 o2.
    assert (H1 : result o1 = Ok tt /\ present (final o1) = false).
    { subst o1. destruct (present s) eqn:P.
      - destruct (Hp s P) as (st' & E & P').
        rewrite (Hdone _ _ E). simpl. rewrite Hlog. auto.
      - destruct (Ha s P) as (e & st' & E & N & P').
        rewrite (Hgone _ _ _ E N). auto. }
    destruct H1 as [R1 P1]. split; [exact R1|].
    destruct (Ha _ P1) as (e & st' & E & N & P').
    subst o2. rewrite (Hgone _ _ _ E N). simpl.
    split; [reflexivity|]. exists e. auto.
Qed.

Lemma has_repo_after_delete d n l :
  existsb (Registry.is_repo d n)
    (filter (fun r => negb (Registry.is_repo d n r)) l) = false.
Proof.
  induction l as [|r l IH]; simpl; [reflexivity|].
  destruct (Registry.is_repo d n r) eqn:E; simpl; [exact IH|].
  rewrite E. exact IH.
Qed.

Lemma delete_absorbs_not_found_witness :
  let h := Registry.host Registry.no_faults 2 in
  let o1 := delete h "npm-upstream" with_npm in
  let o2 := delete h "npm-upstream" (final o1) in
  result o1 = Ok tt /\ result o2 = Ok tt /\
  exists e, not_found e = true /\
    trace o2 = [EvAws (DeleteRepository "test-cdk" "npm-upstream") (inl e)].
Proof.
  intros h.
  apply (proj2 (delete_absorbs_not_found h "npm-upstream")
           (fun st => Registry.has_repo st "test-cdk" "npm-upstream")).
  - intros st P. simpl. unfold Registry.handle. simpl.
    unfold Registry.has_repo in *. simpl. rewrite P.
    eexists. split; [reflexivity|]. simpl. apply has_repo_after_delete.
  - intros st P. simpl. unfold Registry.handle. simpl.
    unfold Registry.has_repo in *. simpl. rewrite P.
    exists Registry.notFound. eexists. split; [reflexivity|].
    split; [reflexivity|]. exact P.
  - reflexivity.
Defined.

(** ** Login information *)

(** Against C8 as stated: on a registry that has the domain but not the
    sandbox repository, the token request resolves: it is not true that every call of
    [loginInformation] is rejected, and three of the four endpoint lookups
    are not even made. *)
Lemma loginInformation_token_resolves :
  let h := Registry.host Registry.no_faults 2 in
  let o := loginInformation h "test-missing" domain_only in
  Registry.has_repo domain_only "test-cdk" "test-missing" = false /\
  result o = Throw Registry.notFound /\
  trace o =
    [EvAws (GetAuthorizationToken "test-cdk" 43200) (inr "token-for-test-cdk");
     EvAws (GetRepositoryEndpoint "test-cdk" "test-missing" "npm")
       (inl Registry.notFound)].
Proof. vm_compute. auto. Qed.

(** ** Ensuring a repository *)

Section EnsureRepository.
Context {W : Type} (host : Host W).

Lemma not_found_code e :
  String.eqb (code e) ResourceNotFoundException = not_found e.
Proof. reflexivity. Qed.

Lemma repositoryExists_found n s s' :
  aws host (DescribeRepository domain n) s = (inr tt, s') ->
  repositoryExists host n s =
  mkOutcome (Ok true) s' [EvAws (DescribeRepository domain n) (inr tt)].
Proof.
  intros E. unfold repositoryExists, try_catch.
  rewrite (bind_ok _ (call_ok E)). reflexivity.
Qed.

Lemma repositoryExists_missing n s e s' :
  aws host (DescribeRepository domain n) s = (inl e, s') ->
  not_found e = true ->
  repositoryExists host n s =
  mkOutcome (Ok false) s' [EvAws (DescribeRepository domain n) (inl e)].
Proof.
  intros E N. unfold repositoryExists, try_catch.
  rewrite (bind_throw _ (call_throw E)). simpl.
  rewrite not_found_code, N. reflexivity.
Qed.

Lemma repositoryExists_throws n s e s' :
  aws host (DescribeRepository domain n) s = (inl e, s') ->
  not_found e = false ->
  repositoryExists host n s =
  mkOutcome (Throw e) s' [EvAws (DescribeRepository domain n) (inl e)].
Proof.
  intros E N. unfold repositoryExists, try_catch.
  rewrite (bind_throw _ (call_throw E)). simpl.
  rewrite not_found_code, N. reflexivity.
Qed.

Lemma domainExists_found s s' :
  aws host (DescribeDomain domain) s = (inr tt, s') ->
  domainExists host s =
  mkOutcome (Ok true) s' [EvAws (DescribeDomain domain) (inr tt)].
Proof.
  intros E. unfold domainExists, try_catch.
  rewrite (bind_ok _ (call_ok E)). reflexivity.
Qed.

Lemma domainExists_missing s e s' :
  aws host (DescribeDomain domain) s = (inl e, s') ->
  not_found e = true ->
  domainExists host s =
  mkOutcome (Ok false) s' [EvAws (DescribeDomain domain) (inl e)].
Proof.
  intros E N. unfold domainExists, try_catch.
  rewrite (bind_throw _ (call_throw E)). simpl.
  rewrite not_found_code, N. reflexivity.
Qed.

Lemma domainExists_throws s e s' :
  aws host (DescribeDomain domain) s = (inl e, s') ->
  not_found e = false ->
  domainExists host s =
  mkOutcome (Throw e) s' [EvAws (DescribeDomain domain) (inl e)].
Proof.
  intros E N. unfold domainExists, try_catch.
  rewrite (bind_throw _ (call_throw E)). simpl.
  rewrite not_found_code, N. reflexivity.
Qed.

Lemma ensureRepository_found n options s s' :
  aws host (DescribeRepository domain n) s = (inr tt, s') ->
  ensureRepository host n options s =
  mkOutcome (Ok tt) s' [EvAws (DescribeRepository domain n) (inr tt)].
Proof.
  intros E. unfold ensureRepository.
  rewrite (bind_ok _ (repositoryExists_found E)). reflexivity.
Qed.

(** Rounds of [retry] on a request that the registry always rejects. *)
Lemma retry_loop_rejected n ext attempts s :
  (forall st, exists e,
     fst (aws host (AssociateExternalConnection domain n ext) st) = inl e) ->
  let o := retry_loop host attempts
             (call host (AssociateExternalConnection domain n ext)) s in
  (exists e, result o = Throw e) /\
  associate_requests (trace o) = repeat (n, ext) (S attempts) /\
  delete_requests (trace o) = [].
Proof.
  intros H. revert s. induction attempts as [|k IH]; intros s o; subst o.
  - destruct (H s) as [e He].
    destruct (aws host _ s) as [a s1] eqn:E. simpl in He. subst a.
    rewrite (@retry_loop_last _ host _ _ s e)
      by (rewrite (call_throw E); reflexivity).
    rewrite (call_throw E). simpl. eauto.
  - destruct (H s) as [e He].
    destruct (aws host _ s) as [a s1] eqn:E. simpl in He. subst a.
    rewrite (@retry_loop_again _ host _ _ k s e)
      by (rewrite (call_throw E); reflexivity).
    cbv zeta. rewrite (call_throw E). simpl.
    destruct (IH (pause host e s1)) as (He' & Ha & Hd).
    split; [exact He'|]. views. simpl. fold_views.
    rewrite Ha, Hd. auto.
Qed.
End EnsureRepository.

(** ** The sweep *)

Section Sweep.
Context {W : Type} (host : Host W).

Lemma bind_result {A B} (m : M W A) (k : A -> M W B) s :
  result (bind m k s) =
  match result (m s) with
  | Ok a => result (k a (final (m s)))
  | Throw e => Throw e
  | OutOfFuel => OutOfFuel
  end.
Proof. unfold bind. destruct (result (m s)); reflexivity. Qed.

Lemma bind_trace {A B} (m : M W A) (k : A -> M W B) s :
  trace (bind m k s) =
  trace (m s) ++
  match result (m s) with
  | Ok a => trace (k a (final (m s)))
  | _ => []
  end.
Proof.
  unfold bind. destruct (result (m s)); simpl;
    rewrite ?app_nil_r; reflexivity.
Qed.

Lemma is_collectable_eq t s :
  is_collectable host t s =
  if String.eqb (key t) "collect-by" then
    mkOutcome (Ok (js_lt (Number host (value t))
                     (of_Z (fst (dateNow host s)))))
      (snd (dateNow host s)) [EvNow (fst (dateNow host s))]
  else mkOutcome (Ok false) s [].
Proof.
  unfold is_collectable. change COLLECT_BY_TAG with "collect-by".
  destruct (String.eqb (key t) "collect-by"); [|reflexivity].
  unfold bind, date_now. destruct (dateNow host s); reflexivity.
Qed.

Lemma find_cons (p : Tag -> M W bool) t l s :
  find p (t :: l) s =
  bind (p t) (fun b => if b then ret (Some t) else find p l) s.
Proof. reflexivity. Qed.

(** [find] over the tags only reads the clock. *)
Lemma find_is_collectable l s :
  let o := find (is_collectable host) l s in
  exists x ts,
    result o = Ok x /\ trace o = map EvNow ts /\
    (forall t, x = Some t ->
       In t l /\ key t = "collect-by" /\
       exists T, In T ts /\
         js_lt (Number host (value t)) (of_Z T) = true) /\
    (forall now, Forall (eq now) ts ->
       found x = existsb (expired_tag (Number host) now) l).
Proof.
  revert s. induction l as [|t l IH]; intros s o; subst o.
  - exists None, []. simpl. split; [reflexivity|]. split; [reflexivity|].
    split; [discriminate|reflexivity].
  - rewrite find_cons.
    pose proof (is_collectable_eq t s) as E.
    destruct (String.eqb (key t) "collect-by") eqn:K.
    + set (T := fst (dateNow host s)) in *.
      set (s1 := snd (dateNow host s)) in *.
      rewrite (bind_ok _ E).
      destruct (js_lt (Number host (value t)) (of_Z T)) eqn:L.
      * exists (Some t), [T]. simpl.
        split; [reflexivity|]. split; [reflexivity|]. split.
        -- intros t' E'. inversion E'; subst t'. split; [now left|].
           split; [now apply String.eqb_eq|]. exists T. split; [now left|].
           exact L.
        -- intros now F. inversion F; subst. unfold expired_tag at 1.
           rewrite K, L. reflexivity.
      * destruct (IH s1) as (x & ts & R & Tr & Hs & Hn).
        exists x, (T :: ts). simpl. rewrite R, Tr.
        split; [reflexivity|]. split; [reflexivity|]. split.
        -- intros t' E'. destruct (Hs t' E') as (I & Kt & T' & IT & LT).
           split; [now right|]. split; [exact Kt|]. exists T'.
           split; [now right|exact LT].
        -- intros now F. inversion F; subst. unfold expired_tag at 1.
           rewrite K, L. simpl. now apply Hn.
    + rewrite (bind_ok _ E).
      destruct (IH s) as (x & ts & R & Tr & Hs & Hn).
      exists x, ts. simpl. rewrite R, Tr.
      split; [reflexivity|]. split; [reflexivity|]. split.
      * intros t' E'. destruct (Hs t' E') as (I & Kt & T' & IT & LT).
        split; [now right|]. split; [exact Kt|]. exists T'. now split.
      * intros now F. unfold expired_tag at 1. rewrite K. simpl.
        now apply Hn.
Qed.

Lemma views_of_readings ts :
  listed (map EvNow ts) = [] /\ examined (map EvNow ts) = [] /\
  delete_requests (map EvNow ts) = [] /\ deleted (map EvNow ts) = [] /\
  tag_requests (map EvNow ts) = [] /\ readings (map EvNow ts) = ts /\
  forallb (fun ev => negb (rejected ev)) (map EvNow ts) = true.
Proof.
  induction ts as [|T ts (H1 & H2 & H3 & H4 & H5 & H6 & H7)]; simpl.
  - repeat split.
  - repeat split; try assumption. views. simpl. now f_equal.
Qed.

(** The three ways the body of the loop can run. *)
Lemma gc_repo_cases repo s :
  let o := gc_repo host repo s in
  let read := ListTagsForResource (arn repo) in
  let del := DeleteRepository (domainName repo) (name repo) in
  (exists e, result o = Throw e /\ trace o = [EvAws read (inl e)]) \/
  (exists tags ts,
     result o = Ok tt /\ trace o = EvAws read (inr tags) :: map EvNow ts /\
     forall now, Forall (eq now) ts ->
       expired (Number host) now tags = false) \/
  (exists tags ts a t T,
     result o = match a with inl e => Throw e | inr r => Ok r end /\
     trace o =
       EvAws read (inr (Some tags)) :: map EvNow ts ++
       [EvLog ["Deleting"; name repo]; EvAws del a] /\
     In t tags /\ key t = "collect-by" /\ In T ts /\
     js_lt (Number host (value t)) (of_Z T) = true /\
     forall now, Forall (eq now) ts ->
       expired (Number host) now (Some tags) = true).
Proof.
  intros o read del. subst o. unfold gc_repo. fold read del.
  destruct (aws host read s) as [[e|tags] s1] eqn:E.
  - left. exists e. rewrite (bind_throw _ (call_throw E)). auto.
  - rewrite (bind_ok _ (call_ok E)). destruct tags as [l|].
    + destruct (find_is_collectable l s1) as (x & ts & R & Tr & Hs & Hn).
      rewrite bind_result, bind_trace, R, Tr. destruct x as [t|].
      * right; right.
        destruct (Hs t eq_refl) as (I & K & T & IT & L).
        unfold bind, console_log, call. simpl.
        match goal with
        | |- context [aws host del ?st] =>
            destruct (aws host del st) as [a s3] eqn:D
        end.
        exists l, ts, a, t, T. simpl.
        split; [destruct a as [?|[]]; reflexivity|].
        split; [reflexivity|]. repeat (split; [assumption|]).
        intros now F. simpl. rewrite <- (Hn now F). reflexivity.
      * right; left. exists (Some l), ts. simpl. rewrite app_nil_r.
        split; [reflexivity|]. split; [reflexivity|].
        intros now F. simpl. rewrite <- (Hn now F). reflexivity.
    + right; left. exists None, []. simpl. auto.
Qed.

Lemma justified_app_l t1 t2 l1 l2 dn :
  justified host t1 l1 dn -> justified host (t1 ++ t2) (l1 ++ l2) dn.
Proof.
  intros (r & tags & t & T & I & E & X & IT & K & IR & L).
  exists r, tags, t, T. views. rewrite !in_app_iff. auto 10.
Qed.

Lemma justified_app_r t1 t2 l1 l2 dn :
  justified host t2 l2 dn -> justified host (t1 ++ t2) (l1 ++ l2) dn.
Proof.
  intros (r & tags & t & T & I & E & X & IT & K & IR & L).
  exists r, tags, t, T. views. rewrite !in_app_iff. auto 10.
Qed.

Lemma sweep_ok_app l1 l2 t1 t2 res :
  sweep_ok host l1 t1 (Ok tt) -> sweep_ok host l2 t2 res ->
  sweep_ok host (l1 ++ l2) (t1 ++ t2) res.
Proof.
  intros (J1 & K1 & C1) (J2 & K2 & C2). split; [|split].
  - intros dn I. unfold delete_requests in I.
    rewrite flat_map_app, in_app_iff in I. destruct I as [I|I].
    + apply justified_app_l. now apply J1.
    + apply justified_app_r. now apply J2.
  - intros R r I. apply in_app_iff in I. views.
    destruct I as [I|I].
    + destruct (K1 eq_refl r I) as [tags X]. exists tags.
      apply in_app_iff. now left.
    + destruct (K2 R r I) as [tags X]. exists tags.
      apply in_app_iff. now right.
  - intros R now F a tags X E. views.
    apply Forall_app in F. destruct F as [F1 F2].
    apply in_app_iff in X. destruct X as [X|X].
    + destruct (C1 eq_refl now F1 a tags X E) as (r & I & A & D).
      exists r. rewrite !in_app_iff. auto.
    + destruct (C2 R now F2 a tags X E) as (r & I & A & D).
      exists r. rewrite !in_app_iff. auto.
Qed.

Lemma sweep_ok_stop l1 l2 t1 res :
  res <> Ok tt -> sweep_ok host l1 t1 res ->
  sweep_ok host (l1 ++ l2) t1 res.
Proof.
  intros N (J1 & _ & _). split; [|split]; try contradiction.
  intros dn I. rewrite <- (app_nil_r t1). apply justified_app_l.
  now apply J1.
Qed.

Lemma sweep_ok_silent t res :
  delete_requests t = [] -> examined t = [] -> sweep_ok host [] t res.
Proof.
  intros D X. split; [|split].
  - intros dn I. rewrite D in I. destruct I.
  - intros _ r I. destruct I.
  - intros _ now _ a tags I. rewrite X in I. destruct I.
Qed.

Lemma deleted_requested tr dn :
  In dn (deleted tr) -> In dn (delete_requests tr).
Proof.
  induction tr as [|ev tr IH]; [auto|]. views. simpl.
  rewrite !in_app_iff. intros [I|I]; [left|right; now apply IH].
  destruct ev as [R q [e|r]| | | |]; try destruct I.
  destruct q; try destruct I; simpl; auto.
Qed.

Lemma gc_repo_sweep_ok repo s :
  let o := gc_repo host repo s in
  sweep_ok host [repo] (trace o) (result o) /\
  listed (trace o) = [] /\ orderly o /\ result o <> OutOfFuel.
Proof.
  intros o.
  destruct (gc_repo_cases repo s)
    as [(e & R & T)|[(tags & ts & R & T & N)|
                     (tags & ts & a & t & T0 & R & T & It & K & IT & L & X)]];
    fold o in R, T;
    try (destruct (views_of_readings ts)
           as (V1 & V2 & V3 & V4 & V5 & V6 & V7)).
  - unfold orderly. rewrite R, T. split; [|split; [reflexivity|split]].
    + split; [|split]; try discriminate. intros dn [].
    + exists [], (EvAws (ListTagsForResource (arn repo)) (inl e)). auto.
    + discriminate.
  - unfold orderly. rewrite R, T. split; [|split; [|split]].
    + split; [|split].
      * intros dn I. views. simpl in I. fold_views. rewrite V3 in I.
        destruct I.
      * intros _ r [<-|[]]. exists tags. views. simpl. now left.
      * intros _ now F a tags' I E. views. simpl in *. fold_views.
        rewrite V6 in F. rewrite V2 in I. destruct I as [I|[]].
        inversion I; subst. rewrite (N now F) in E. discriminate.
    + views. simpl. fold_views. exact V1.
    + simpl. exact V7.
    + discriminate.
  - split; [|split; [|split]].
    + rewrite T. split; [|split].
      * intros dn I. views. simpl in I. rewrite flat_map_app in I.
        fold_views. rewrite V3 in I. simpl in I. destruct I as [<-|[]].
        exists repo, tags, t, T0. split; [now left|].
        split; [reflexivity|]. views. simpl. rewrite !flat_map_app.
        fold_views. rewrite V6. simpl. rewrite app_nil_r.
        split; [now left|]. rewrite ?app_nil_r. auto.
      * intros _ r [<-|[]]. exists (Some tags). views. simpl. now left.
      * intros Hok now F a' tags' I E. views. simpl in *.
        rewrite flat_map_app in *. fold_views. simpl in *.
        rewrite V2 in I. destruct I as [I|[]]. inversion I; subst.
        exists repo. split; [now left|]. split; [reflexivity|].
        rewrite R in Hok. destruct a as [e|[]]; [discriminate|].
        rewrite V4. simpl. now left.
    + rewrite T. views. simpl. rewrite flat_map_app. fold_views.
      rewrite V1. reflexivity.
    + unfold orderly. rewrite R, T. destruct a as [e|[]].
      * exists (EvAws (ListTagsForResource (arn repo)) (inr (Some tags))
                :: map EvNow ts ++ [EvLog ["Deleting"; name repo]]),
          (EvAws (DeleteRepository (domainName repo) (name repo)) (inl e)).
        split; [simpl; rewrite <- app_assoc; reflexivity|].
        split; [|reflexivity]. simpl. rewrite forallb_app, V7. reflexivity.
      * simpl. rewrite forallb_app, V7. reflexivity.
    + rewrite R. destruct a as [e|[]]; discriminate.
Qed.

Lemma orderly_bind {A B} (m : M W A) (k : A -> M W B) s :
  orderly (m s) -> (forall a, orderly (k a (final (m s)))) ->
  orderly (bind m k s).
Proof.
  unfold orderly. intros H1 H2. rewrite bind_result, bind_trace.
  destruct (result (m s)) as [a| |]; rewrite ?app_nil_r; try exact H1.
  specialize (H2 a). destruct (result (k a (final (m s)))).
  - rewrite forallb_app, H1, H2. reflexivity.
  - destruct H2 as (pre & ev & T & C & E).
    exists (trace (m s) ++ pre), ev. rewrite T, app_assoc.
    split; [reflexivity|]. rewrite forallb_app, H1, C. auto.
  - rewrite forallb_app, H1, H2. reflexivity.
Qed.

(** In an orderly run a rejected request is the last thing that
    happens, and its error is thrown. *)
Lemma orderly_rejection {A} (o : Outcome W A) pre ev e post :
  orderly o -> trace o = pre ++ ev :: post -> rejection_of ev = Some e ->
  post = [] /\ result o = Throw e.
Proof.
  unfold orderly. intros H T E.
  assert (Rj : rejected ev = true).
  { destruct ev as [R q [e'|r]| | | |]; try discriminate. reflexivity. }
  destruct (result o) as [a|e'|].
  - rewrite T, forallb_app in H. simpl in H. rewrite Rj in H.
    simpl in H. rewrite andb_false_r in H. discriminate.
  - destruct H as (pre' & ev' & T' & C & E'). rewrite T in T'.
    destruct post as [|x post] using rev_ind.
    + apply app_inj_tail in T'. destruct T' as [_ <-].
      rewrite E in E'. inversion E'. auto.
    + clear IHpost. change (pre ++ ev :: post ++ [x])
        with (pre ++ (ev :: post) ++ [x]) in T'.
      rewrite app_assoc in T'. apply app_inj_tail in T'.
      destruct T' as [<- _]. rewrite forallb_app in C. simpl in C.
      rewrite Rj in C. simpl in C. rewrite andb_false_r in C.
      discriminate.
  - rewrite T, forallb_app in H. simpl in H. rewrite Rj in H.
    simpl in H. rewrite andb_false_r in H. discriminate.
Qed.

Lemma for_of_gc_repo l s :
  let o := for_of l (gc_repo host) s in
  sweep_ok host l (trace o) (result o) /\
  listed (trace o) = [] /\ orderly o /\ result o <> OutOfFuel.
Proof.
  revert s. induction l as [|repo l IH]; intros s o; subst o.
  - simpl. split; [|split; [reflexivity|split; [reflexivity|discriminate]]].
    apply sweep_ok_silent; reflexivity.
  - simpl for_of.
    destruct (gc_repo_sweep_ok repo s) as (S1 & L1 & O1 & F1).
    split; [|split; [|split]].
    + rewrite bind_result, bind_trace.
      destruct (result (gc_repo host repo s)) as [[]|e|] eqn:R.
      * destruct (IH (final (gc_repo host repo s))) as (S2 & _).
        exact (sweep_ok_app S1 S2).
      * rewrite app_nil_r. apply (@sweep_ok_stop [repo] l); [discriminate|].
        exact S1.
      * contradiction.
    + rewrite bind_trace. views. fold_views. rewrite L1.
      destruct (result (gc_repo host repo s)) as [[]|e|]; [|reflexivity..].
      destruct (IH (final (gc_repo host repo s))) as (_ & L2 & _).
      exact L2.
    + apply orderly_bind; [exact O1|]. intros []. apply IH.
    + rewrite bind_result.
      destruct (result (gc_repo host repo s)) as [[]|e|];
        [apply IH|discriminate|contradiction].
Qed.

Lemma gc_pages_sweep_ok fuel token s :
  let o := gc_pages host fuel token s in
  sweep_ok host (listed (trace o)) (trace o) (result o) /\ orderly o.
Proof.
  revert token s. induction fuel as [|fuel IH]; intros token s o; subst o.
  - simpl. split; [|reflexivity]. split; [|split]; try discriminate.
    intros dn [].
  - simpl gc_pages.
    destruct (aws host (ListRepositories token) s) as [[e|page] s1] eqn:E.
    + rewrite (bind_throw _ (call_throw E)). simpl. split.
      * split; [|split]; try discriminate. intros dn [].
      * exists [], (EvAws (ListRepositories token) (inl e)). auto.
    + rewrite (bind_ok _ (call_ok E)).
      set (l := match repositories page with Some l => l | None => [] end).
      destruct (for_of_gc_repo l s1) as (S1 & L1 & O1 & F1).
      set (rest := if truthy (nextToken page)
                   then gc_pages host fuel (nextToken page) else ret tt).
      assert (Hrest : forall s', 
        sweep_ok host (listed (trace (rest s'))) (trace (rest s'))
          (result (rest s')) /\ orderly (rest s')).
      { intros s'. subst rest. destruct (truthy (nextToken page)).
        - apply IH.
        - simpl. split; [|reflexivity]. apply sweep_ok_silent; reflexivity. }
      split.
      * cbn [result trace final]. rewrite bind_result, bind_trace.
        change (listed ([EvAws (ListRepositories token) (inr page)] ++ ?t))
          with (l ++ listed t).
        destruct (result (for_of l (gc_repo host) s1)) as [[]|e|] eqn:R.
        -- unfold listed at 1. rewrite flat_map_app. fold listed.
           rewrite L1. simpl app at 1.
           apply (@sweep_ok_app [] _
                    [EvAws (ListRepositories token) (inr page)] _);
             [apply sweep_ok_silent; reflexivity|].
           apply sweep_ok_app; [exact S1|]. apply Hrest.
        -- rewrite app_nil_r, L1.
           apply (@sweep_ok_app [] _
                    [EvAws (ListRepositories token) (inr page)] _);
             [apply sweep_ok_silent; reflexivity|].
           apply sweep_ok_stop; [discriminate|exact S1].
        -- contradiction.
      * assert (Oc : orderly (bind (call host (ListRepositories token))
                 (fun page =>
                    for_of (match repositories page with
                            | Some l => l | None => [] end) (gc_repo host) ;;;
                    if truthy (nextToken page)
                    then gc_pages host fuel (nextToken page) else ret tt) s)).
        { apply orderly_bind.
          - rewrite (call_ok E). reflexivity.
          - intros page'. apply orderly_bind.
            + apply for_of_gc_repo.
            + intros []. destruct (truthy (nextToken page')).
              * apply IH.
              * reflexivity. }
        rewrite (bind_ok _ (call_ok E)) in Oc. exact Oc.
Qed.

Lemma bind_ext {A B} (m : M W A) (k1 k2 : A -> M W B) s :
  (forall a, result (m s) = Ok a -> k1 a (final (m s)) = k2 a (final (m s))) ->
  bind m k1 s = bind m k2 s.
Proof.
  intros H. unfold bind. destruct (result (m s)) as [a| |]; try reflexivity.
  now rewrite (H a).
Qed.

(** Fuel only bounds the number of pages: a sweep that did not run out of
    fuel runs the same with more. *)
Lemma gc_pages_more_fuel fuel more token s :
  result (gc_pages host fuel token s) <> OutOfFuel ->
  gc_pages host (fuel + more) token s = gc_pages host fuel token s.
Proof.
  revert token s. induction fuel as [|fuel IH]; intros token s H.
  - simpl in H. contradiction.
  - simpl in *. apply bind_ext. intros page Rp.
    apply bind_ext. intros [] Rf.
    destruct (truthy (nextToken page)) eqn:T; [|reflexivity].
    apply IH. intros E. apply H.
    rewrite bind_result, Rp, bind_result, Rf, T. exact E.
Qed.

Lemma gc_more_fuel fuel more s :
  result (gc host fuel s) <> OutOfFuel ->
  gc host (fuel + more) s = gc host fuel s.
Proof.
  intros H. unfold gc in *. apply bind_ext. intros ex Re.
  destruct ex; simpl; [|reflexivity].
  apply gc_pages_more_fuel. intros E. apply H.
  rewrite bind_result, Re. exact E.
Qed.

Lemma domainExists_cases s :
  let o := domainExists host s in
  let probe := DescribeDomain domain in
  (result o = Ok true /\ trace o = [EvAws probe (inr tt)]) \/
  (exists e, trace o = [EvAws probe (inl e)] /\
     (if not_found e then result o = Ok false else result o = Throw e)).
Proof.
  intros o probe. subst o. unfold domainExists, try_catch.
  destruct (aws host probe s) as [[e|[]] s1] eqn:E.
  - right. exists e. fold probe. rewrite (bind_throw _ (call_throw E)).
    simpl. rewrite not_found_code.
    destruct (not_found e); simpl; auto.
  - left. fold probe. rewrite (bind_ok _ (call_ok E)). simpl. auto.
Qed.

(** The sweep stops after the probe of a missing domain, and otherwise
    is the probe followed by the pages. *)
Lemma gc_cases fuel s :
  let o := gc host fuel s in
  let probe := DescribeDomain domain in
  (exists e, trace o = [EvAws probe (inl e)] /\
     (if not_found e then result o = Ok tt else result o = Throw e)) \/
  (exists s1,
     let p := gc_pages host fuel None s1 in
     trace o = [EvAws probe (inr tt)] ++ trace p /\ result o = result p).
Proof.
  intros o probe. subst o. unfold gc.
  rewrite bind_result, bind_trace.
  destruct (domainExists_cases s) as [(R & T)|(e & T & R)];
    fold probe in T; rewrite T.
  - right. rewrite R. simpl. eauto.
  - left. exists e. destruct (not_found e); rewrite R; auto.
Qed.

Lemma gc_sweep_ok fuel s :
  let o := gc host fuel s in
  sweep_ok host (listed (trace o)) (trace o) (result o).
Proof.
  intros o. destruct (gc_cases fuel s) as [(e & T & R)|(s1 & T & R)];
    fold o in T, R; rewrite T.
  - apply sweep_ok_silent; reflexivity.
  - rewrite R. unfold listed. rewrite flat_map_app. fold listed.
    apply sweep_ok_app; [apply sweep_ok_silent; reflexivity|].
    apply gc_pages_sweep_ok.
Qed.

Lemma expired_iff now tags :
  expired (Number host) now tags = true <->
  exists l t, tags = Some l /\ In t l /\ key t = "collect-by" /\
    js_lt (Number host (value t)) (of_Z now) = true.
Proof.
  destruct tags as [l|]; simpl.
  - rewrite existsb_exists. split.
    + intros (t & I & E). unfold expired_tag in E.
      apply andb_true_iff in E. destruct E as [K L].
      apply String.eqb_eq in K. eauto 6.
    + intros (l' & t & E & I & K & L). inversion E; subst l'.
      exists t. split; [exact I|]. unfold expired_tag.
      rewrite K, L. reflexivity.
  - split; [discriminate|]. intros (l & t & E & _). discriminate.
Qed.
End Sweep.

(** With a clock that stands still at [now] during the sweep, and with
    listed repositories that have one ARN per (domain, name), a sweep
    that completes has read the tags of every listed repository, and has
    deleted it if and only if the tags read contain one with key
    ["collect-by"] whose number is below [now]. *)
Lemma gc_still_clock :
  forall (W : Type) (host : Host W) (fuel : nat) (s : W) (now : Z),
    let o := gc host fuel s in
    result o = Ok tt ->
    Forall (eq now) (readings (trace o)) ->
    (forall r r', In r (listed (trace o)) -> In r' (listed (trace o)) ->
       (arn r = arn r' <-> ident r = ident r')) ->
    forall r, In r (listed (trace o)) ->
      (exists tags, In (arn r, tags) (examined (trace o))) /\
      (In (ident r) (deleted (trace o)) <->
       exists tags t,
         In (arn r, Some tags) (examined (trace o)) /\ In t tags /\
         key t = "collect-by" /\
         js_lt (Number host (value t)) (of_Z now) = true) /\
      ((forall tags t, In (arn r, Some tags) (examined (trace o)) ->
          In t tags -> key t <> "collect-by") ->
       ~ In (ident r) (deleted (trace o))).
Proof.
  intros W host fuel s now o Hok Hnow Hid r Hr.
  destruct (gc_sweep_ok host fuel s) as (J & K1 & K2). fold o in J, K1, K2.
  assert (Iff : In (ident r) (deleted (trace o)) <->
       exists tags t,
         In (arn r, Some tags) (examined (trace o)) /\ In t tags /\
         key t = "collect-by" /\
         js_lt (Number host (value t)) (of_Z now) = true).
  { split.
    - intros D. apply deleted_requested in D.
      destruct (J _ D) as (r' & tags & t & T & I & E & X & IT & K & IR & L).
      exists tags, t.
      assert (A : arn r = arn r') by (apply Hid; assumption).
      rewrite A. rewrite Forall_forall in Hnow. rewrite (Hnow T IR). auto.
    - intros (tags & t & X & IT & K & L).
      destruct (K2 Hok now Hnow (arn r) (Some tags) X) as (r' & I & A & D).
      + apply expired_iff. eauto 6.
      + assert (E : ident r' = ident r) by (apply Hid; assumption).
        rewrite <- E. exact D. }
  split; [exact (K1 Hok r Hr)|]. split; [exact Iff|].
  intros Hno D. apply Iff in D. destruct D as (tags & t & X & IT & K & _).
  exact (Hno tags t X IT K).
Qed.

(** C10: whatever the clock says, a listed repository whose
    ["collect-by"] tags, as read by the sweep, all have a value that
    converts to [NaN] gets no deletion request (listed repositories of the
    same domain and name having the same ARN). *)
Theorem gc_keeps_non_numeric :
  forall (W : Type) (host : Host W) (fuel : nat) (s : W),
    let o := gc host fuel s in
    forall r, In r (listed (trace o)) ->
      (forall r', In r' (listed (trace o)) -> ident r' = ident r ->
         arn r' = arn r) ->
      (forall tags t, In (arn r, Some tags) (examined (trace o)) ->
         In t tags -> key t = "collect-by" ->
         Number host (value t) = NaN) ->
      ~ In (ident r) (delete_requests (trace o)).
Proof.
  intros W host fuel s o r Hr Hid Hnan D.
  destruct (gc_sweep_ok host fuel s) as (J & _). fold o in J.
  destruct (J _ D) as (r' & tags & t & T & I & E & X & IT & K & IR & L).
  rewrite (Hid r' I (eq_sym E)) in X.
  rewrite (Hnan tags t X IT K) in L. discriminate.
Qed.

(** Against C7 as stated: on a registry that refuses to delete, the sweep
    stops at the first repository past its time: the second one was listed, but its tags are
    never read and the caller gets the rejection. *)
Lemma gc_aborts_on_rejected_delete :
  let h := Registry.host reject_deletes 2 in
  let o := gc h 10 two_expired in
  result o = Throw denied /\
  map name (listed (trace o)) = ["test-old"; "test-older"] /\
  tag_requests (trace o) = [Registry.arn_of "test-cdk" "test-old"] /\
  delete_requests (trace o) = [("test-cdk", "test-old")].
Proof. vm_compute. auto. Qed.

(** C7, amended: a rejected deletion ends the sweep.  It is the last
    request of the run and its error is thrown to the caller, so that no
    repository after it, on this page or a later one, is examined. *)
Theorem gc_stops_at_rejected_delete :
  forall (W : Type) (host : Host W) (fuel : nat) (s : W)
         (pre post : list Event) (d n : string) (e : AWSError),
    let o := gc host fuel s in
    trace o = pre ++ EvAws (DeleteRepository d n) (inl e) :: post ->
    post = [] /\ result o = Throw e.
Proof.
  intros W host fuel s pre post d n e o T.
  destruct (gc_cases host fuel s) as [(e' & T' & R)|(s1 & T' & R)];
    fold o in T', R.
  - rewrite T in T'. exfalso.
    apply (f_equal delete_requests) in T'. views. simpl in T'.
    destruct (flat_map delete_requests_of pre); discriminate.
  - destruct (gc_pages_sweep_ok host fuel None s1) as (_ & O).
    rewrite T in T'. destruct pre as [|ev pre].
    + exfalso. apply (f_equal (fun t => delete_requests (firstn 1 t))) in T'.
      simpl in T'. discriminate.
    + simpl in T'. inversion T' as [[Hev Hrest]].
      rewrite R. eapply orderly_rejection; [exact O|symmetry; exact Hrest|].
      reflexivity.
Qed.

Lemma gc_keeps_non_numeric_witness :
  let h := Registry.host Registry.no_faults 2 in
  let o := gc h 10 sweep_state in
  Number h "tomorrow" = NaN /\
  In (Registry.summary odd_repo) (listed (trace o)) /\
  ~ In (ident (Registry.summary odd_repo)) (delete_requests (trace o)).
Proof.
  intros h o. split; [reflexivity|]. split; [vm_compute; auto|].
  apply (@gc_keeps_non_numeric _ h 10 sweep_state).
  - vm_compute. auto.
  - intros r' H. vm_compute in H.
    repeat (destruct H as [H|H]; [|try contradiction]);
      subst r'; intros E; try reflexivity; discriminate E.
  - intros tags t H. vm_compute in H.
    repeat (destruct H as [H|H]; [|try contradiction]);
      try discriminate H.
    inversion H; subst tags. intros [<-|[]] _. reflexivity.
Defined.

Lemma gc_stops_at_rejected_delete_witness :
  let h := Registry.host reject_deletes 2 in
  let o := gc h 10 two_expired in
  (exists pre,
     trace o =
     pre ++ [EvAws (DeleteRepository "test-cdk" "test-old") (inl denied)]) /\
  result o = Throw denied.
Proof.
  intros h o.
  assert (T : trace o =
    firstn 5 (trace o) ++
    EvAws (DeleteRepository "test-cdk" "test-old") (inl denied) :: [])
    by reflexivity.
  split; [eexists; exact T|].
  exact (proj2 (gc_stops_at_rejected_delete T)).
Defined.

(** ** Provisioning *)

Section Provisioning.
Context {W : Type} (host : Host W).

Lemma retry_loop_call_run {R} (q : Request R) attempts s :
  let o := retry_loop host attempts (call host q) s in
  retry_run attempts q (trace o) (result o).
Proof.
  revert s. induction attempts as [|k IH]; intros s o; subst o.
  - destruct (aws host q s) as [[e|r] s1] eqn:E.
    + rewrite (@retry_loop_last _ host _ _ s e)
        by (rewrite (call_throw E); reflexivity).
      rewrite (call_throw E). exists []. split; [auto|]. right.
      exists e. auto.
    + rewrite (@retry_loop_ok _ host _ _ 0%nat s r)
        by (rewrite (call_ok E); reflexivity).
      rewrite (call_ok E). exists []. split; [auto|]. left.
      exists r. auto.
  - destruct (aws host q s) as [[e|r] s1] eqn:E.
    + rewrite (@retry_loop_again _ host _ _ k s e)
        by (rewrite (call_throw E); reflexivity).
      cbv zeta. rewrite (call_throw E). cbn [result trace final].
      destruct (IH (pause host e s1)) as (fails & L & H).
      exists (e :: fails). split; [simpl; lia|].
      unfold failed_attempts in *. simpl flat_map.
      destruct H as [(r & T & Rr)|(e' & L' & T & Rr)]; rewrite T, Rr.
      * left. exists r. auto.
      * right. exists e'. simpl. auto.
    + rewrite (@retry_loop_ok _ host _ _ (S k) s r)
        by (rewrite (call_ok E); reflexivity).
      rewrite (call_ok E). exists []. split; [simpl; lia|]. left.
      exists r. auto.
Qed.

(** The ways [ensureDomain] can run. *)
Lemma ensureDomain_cases s :
  let o := ensureDomain host s in
  let probe := DescribeDomain domain in
  let create := CreateDomain domain [mkTag "testing" "true"] in
  (result o = Ok tt /\ trace o = [EvAws probe (inr tt)]) \/
  (exists e, not_found e = false /\ result o = Throw e /\
             trace o = [EvAws probe (inl e)]) \/
  (exists e a, not_found e = true /\
     result o = match a with inl e' => Throw e' | inr r => Ok r end /\
     trace o = [EvAws probe (inl e); EvAws create a]).
Proof.
  intros o probe create. subst o. unfold ensureDomain.
  rewrite bind_result, bind_trace.
  destruct (domainExists_cases host s) as [(R & T)|(e & T & R)];
    fold probe in T; rewrite T.
  - left. rewrite R. auto.
  - destruct (not_found e) eqn:N; rewrite R.
    + right; right. fold create. unfold call.
      destruct (aws host create _) as [a s2]. exists e, a. simpl.
      split; [exact N|]. split; [|reflexivity].
      destruct a as [?|[]]; reflexivity.
    + right; left. exists e. auto.
Qed.

(** The ways [ensureRepository] can run. *)
Lemma ensureRepository_cases n options s :
  let o := ensureRepository host n options s in
  let probe := DescribeRepository domain n in
  let create :=
    CreateRepository domain n (optional opt_description options)
      (option_map (map mkUpstream) (optional opt_upstreams options))
      (option_map (map (fun kv => mkTag (fst kv) (snd kv)))
         (optional opt_tags options)) in
  (result o = Ok tt /\ trace o = [EvAws probe (inr tt)]) \/
  (exists e, not_found e = false /\ result o = Throw e /\
             trace o = [EvAws probe (inl e)]) \/
  (exists e0 e, not_found e0 = true /\ result o = Throw e /\
             trace o = [EvAws probe (inl e0); EvAws create (inl e)]) \/
  (exists e0, not_found e0 = true /\
             truthy (optional opt_external options) = false /\
             result o = Ok tt /\
             trace o = [EvAws probe (inl e0); EvAws create (inr tt)]) \/
  (exists e0 ext tr, not_found e0 = true /\
             optional opt_external options = Some ext /\
             trace o = [EvAws probe (inl e0); EvAws create (inr tt)] ++ tr /\
             retry_run 3 (AssociateExternalConnection domain n ext) tr
               (result o)).
Proof.
  intros o probe create. subst o. unfold ensureRepository.
  fold probe create.
  destruct (aws host probe s) as [[e0|[]] s1] eqn:E.
  - destruct (not_found e0) eqn:N.
    + rewrite (bind_ok _ (repositoryExists_missing E N)).
      cbv beta iota.
      destruct (aws host create s1) as [[e|[]] s2] eqn:C.
      * right; right; left. exists e0, e.
        rewrite (bind_throw _ (call_throw C)). auto.
      * rewrite (bind_ok _ (call_ok C)).
        destruct (truthy (optional opt_external options)) eqn:T.
        -- right; right; right; right.
           destruct (optional opt_external options) as [ext|];
             [|discriminate].
           exists e0, ext. eexists. split; [exact N|].
           split; [reflexivity|]. cbn [result trace final].
           split; [reflexivity|]. apply retry_loop_call_run.
        -- right; right; right; left. exists e0. simpl. auto.
    + right; left. exists e0.
      rewrite (bind_throw _ (repositoryExists_throws E N)). auto.
  - left. rewrite (bind_ok _ (repositoryExists_found E)). auto.
Qed.

Lemma bind_ok_inv {A B} (m : M W A) (k : A -> M W B) s b :
  result (bind m k s) = Ok b ->
  exists a,
    result (m s) = Ok a /\
    result (k a (final (m s))) = Ok b /\
    trace (bind m k s) = trace (m s) ++ trace (k a (final (m s))) /\
    final (bind m k s) = final (k a (final (m s))).
Proof.
  unfold bind. destruct (result (m s)) as [a| |]; try discriminate.
  simpl. intros H. exists a. auto.
Qed.

Lemma date_now_eq s :
  date_now host s =
  mkOutcome (Ok (fst (dateNow host s))) (snd (dateNow host s))
    [EvNow (fst (dateNow host s))].
Proof. unfold date_now. destruct (dateNow host s); reflexivity. Qed.

Lemma ensureDomain_ok s :
  result (ensureDomain host s) = Ok tt ->
  domain_ensured (trace (ensureDomain host s)).
Proof.
  intros H.
  destruct (ensureDomain_cases s)
    as [(R & T)|[(e & N & R & T)|(e & a & N & R & T)]]; rewrite T.
  - now left.
  - rewrite R in H. discriminate.
  - right. exists e. split; [exact N|]. rewrite R in H.
    destruct a as [e'|[]]; [discriminate|reflexivity].
Qed.

Lemma ensureRepository_upstream_ok n description connection s :
  connection <> "" ->
  let o := ensureRepository host n
             (Some (mkOptions (Some description) (Some connection)
                      None None)) s in
  result o = Ok tt -> upstream_ensured n description connection (trace o).
Proof.
  intros Hne o H.
  destruct (ensureRepository_cases n
              (Some (mkOptions (Some description) (Some connection)
                       None None)) s)
    as [(R & T)|[(e & N & R & T)|[(e0 & e & N & R & T)|
        [(e0 & N & X & R & T)|(e0 & ext & tr & N & X & T & Rr)]]]];
    try fold o in R; try fold o in Rr; fold o in T; try rewrite T.
  - now left.
  - rewrite R in H. discriminate.
  - rewrite R in H. discriminate.
  - simpl in X. destruct (String.eqb_spec connection "");
      [contradiction|discriminate].
  - simpl in X. inversion X; subst ext. right.
    destruct Rr as (fails & L & [(r & Tr & Ro)|(e & _ & _ & Ro)]).
    + exists e0, fails. split; [exact N|]. split; [exact L|].
      rewrite Tr. destruct r. reflexivity.
    + rewrite Ro in H. discriminate.
Qed.

Lemma ensureRepository_sandbox_ok n now s :
  let o := ensureRepository host n
    (Some (mkOptions (Some "Testing repository") None
             (Some [npmUpstream; pypiUpstream; nugetUpstream; mavenUpstream])
             (Some [(COLLECT_BY_TAG, string_of_Z (now + REPO_LIFETIME_MS))])))
    s in
  result o = Ok tt -> sandbox_ensured n now (trace o).
Proof.
  intros o H.
  destruct (ensureRepository_cases n
    (Some (mkOptions (Some "Testing repository") None
             (Some [npmUpstream; pypiUpstream; nugetUpstream; mavenUpstream])
             (Some [(COLLECT_BY_TAG, string_of_Z (now + REPO_LIFETIME_MS))])))
    s)
    as [(R & T)|[(e & N & R & T)|[(e0 & e & N & R & T)|
        [(e0 & N & X & R & T)|(e0 & ext & tr & N & X & T & Rr)]]]];
    try fold o in R; try fold o in Rr; fold o in T; try rewrite T.
  - now left.
  - rewrite R in H. discriminate.
  - rewrite R in H. discriminate.
  - right. exists e0. split; [exact N|]. reflexivity.
  - discriminate X.
Qed.
End Provisioning.

(** On an empty registry every step creates what it ensures, and the
    sandbox is tagged with the time of creation plus one day. *)
Example prepare_on_empty_registry :
  let h := Registry.host Registry.no_faults 2 in
  let o := prepare h "test-abc" (Registry.empty 1700000000000) in
  result o = Ok tt /\
  create_requests (trace o) =
    ["npm-upstream"; "maven-upstream"; "nuget-upstream"; "pypi-upstream";
     "test-abc"] /\
  map Registry.repo_tags
    (filter (Registry.is_repo "test-cdk" "test-abc")
       (Registry.repos (final o))) =
    [[mkTag "collect-by" "1700086400000"]].
Proof. vm_compute. auto. Qed.

(** ** Failures during provisioning *)

Section FailFast.
Context {W : Type} (host : Host W).

Lemma fail_fast_nil {A} (res : Result A) : fail_fast [] res.
Proof. intros [|x pre] ev post H; discriminate H. Qed.

Lemma fail_fast_cons {A} ev tr (res : Result A) :
  verdict ev tr res -> fail_fast tr res -> fail_fast (ev :: tr) res.
Proof.
  intros V F [|x pre] ev' post H; simpl in H.
  - inversion H; subst. exact V.
  - inversion H; subst. now apply (F pre).
Qed.

Lemma fail_fast_inv {A} ev tr (res : Result A) :
  fail_fast (ev :: tr) res -> verdict ev tr res /\ fail_fast tr res.
Proof.
  intros F. split.
  - now apply (F []).
  - intros pre ev' post H. apply (F (ev :: pre)). simpl. now f_equal.
Qed.

(** What follows a rejection in a run that went on still follows it
    when the run is continued. *)
Lemma verdict_app {A B} ev t1 t2 (a : A) (res : Result B) :
  verdict ev t1 (Ok a) -> verdict ev (t1 ++ t2) res.
Proof.
  destruct ev as [R q [e|r]| | | |]; simpl; auto.
  destruct (is_associate q).
  - intros [(_ & H)|(x & post' & H)]; [discriminate|].
    right. exists x, (post' ++ t2). rewrite H. reflexivity.
  - destruct (is_probe q && not_found e); [auto|].
    intros (_ & H). discriminate.
Qed.

Lemma fail_fast_app {A B} t1 t2 (a : A) (res : Result B) :
  fail_fast t1 (Ok a) -> fail_fast t2 res -> fail_fast (t1 ++ t2) res.
Proof.
  induction t1 as [|ev t1 IH]; intros F1 F2; [exact F2|].
  apply fail_fast_inv in F1. destruct F1 as [V F1]. simpl.
  apply fail_fast_cons; [now apply (verdict_app t2 res V)|now apply IH].
Qed.

Lemma fail_fast_stop {A B} t (res : Result A) (res' : Result B) :
  (forall e, res = Throw e -> res' = Throw e) ->
  fail_fast t res -> fail_fast t res'.
Proof.
  intros H F pre ev post E. specialize (F pre ev post E).
  destruct ev as [R q [e|r]| | | |]; simpl in *; auto.
  destruct (is_associate q).
  - destruct F as [(P & X)|F]; [left|right]; auto.
  - destruct (is_probe q && not_found e); [auto|].
    destruct F as (P & X). auto.
Qed.

Lemma fail_fast_bind {A B} (m : M W A) (k : A -> M W B) s :
  fail_fast (trace (m s)) (result (m s)) ->
  (forall a, fail_fast (trace (k a (final (m s))))
               (result (k a (final (m s))))) ->
  fail_fast (trace (bind m k s)) (result (bind m k s)).
Proof.
  intros F1 F2. rewrite bind_result, bind_trace.
  destruct (result (m s)) as [a|e|] eqn:R.
  - apply (fail_fast_app F1 (F2 a)).
  - rewrite app_nil_r. revert F1. apply fail_fast_stop.
    intros e' E. inversion E. reflexivity.
  - rewrite app_nil_r. revert F1. apply fail_fast_stop. discriminate.
Qed.

Lemma fail_fast_failed_attempts {R A} (q : Request R) fails tail
    (res : Result A) :
  is_associate q = true -> fail_fast tail res ->
  (exists a tail', tail = EvAws q a :: tail') ->
  fail_fast (failed_attempts q fails ++ tail) res.
Proof.
  intros Hq Ft Hd. induction fails as [|e fails IH]; [exact Ft|].
  unfold failed_attempts in *. simpl.
  apply fail_fast_cons;
    [|repeat (apply fail_fast_cons; [exact I|]); exact IH].
  simpl. rewrite Hq. right. destruct fails as [|e' fails].
  - simpl. destruct Hd as (a & tail' & ->). eauto.
  - simpl. eauto.
Qed.

Lemma fail_fast_retry_run {R} (q : Request R) attempts tr res :
  is_associate q = true -> retry_run attempts q tr res -> fail_fast tr res.
Proof.
  intros Hq (fails & _ & [(r & T & Rr)|(e & _ & T & Rr)]); rewrite T, Rr;
    apply fail_fast_failed_attempts; try exact Hq; eauto.
  - apply fail_fast_cons; [exact I|apply fail_fast_nil].
  - apply fail_fast_cons;
      [|apply fail_fast_cons; [exact I|apply fail_fast_nil]].
    simpl. rewrite Hq. left. auto.
Qed.

Lemma ensureDomain_fail_fast s :
  fail_fast (trace (ensureDomain host s)) (result (ensureDomain host s)).
Proof.
  destruct (ensureDomain_cases host s)
    as [(R & T)|[(e & N & R & T)|(e & a & N & R & T)]]; rewrite T, R.
  - apply fail_fast_cons; [exact I|apply fail_fast_nil].
  - apply fail_fast_cons; [|apply fail_fast_nil]. simpl. rewrite N. auto.
  - apply fail_fast_cons; [simpl; rewrite N; exact I|].
    apply fail_fast_cons; [|apply fail_fast_nil].
    destruct a as [e'|[]]; simpl; auto.
Qed.

Lemma ensureRepository_fail_fast n options s :
  fail_fast (trace (ensureRepository host n options s))
    (result (ensureRepository host n options s)).
Proof.
  destruct (ensureRepository_cases host n options s)
    as [(R & T)|[(e & N & R & T)|[(e0 & e & N & R & T)|
        [(e0 & N & X & R & T)|(e0 & ext & tr & N & X & T & Rr)]]]];
    rewrite T; try rewrite R.
  - apply fail_fast_cons; [exact I|apply fail_fast_nil].
  - apply fail_fast_cons; [|apply fail_fast_nil]. simpl. rewrite N. auto.
  - apply fail_fast_cons; [simpl; rewrite N; exact I|].
    apply fail_fast_cons; [|apply fail_fast_nil]. simpl. auto.
  - apply fail_fast_cons; [simpl; rewrite N; exact I|].
    apply fail_fast_cons; [exact I|apply fail_fast_nil].
  - simpl. apply fail_fast_cons; [simpl; rewrite N; exact I|].
    apply fail_fast_cons; [exact I|].
    apply (fail_fast_retry_run (q:=AssociateExternalConnection domain n ext)
             eq_refl Rr).
Qed.

Lemma ensureUpstreams_fail_fast s :
  fail_fast (trace (ensureUpstreams host s))
    (result (ensureUpstreams host s)).
Proof.
  unfold ensureUpstreams.
  repeat (apply fail_fast_bind;
          [apply ensureRepository_fail_fast|intros []]).
  apply ensureRepository_fail_fast.
Qed.

Lemma prepare_fail_fast repositoryName s :
  fail_fast (trace (prepare host repositoryName s))
    (result (prepare host repositoryName s)).
Proof.
  unfold prepare.
  apply fail_fast_bind; [apply ensureDomain_fail_fast|intros []].
  apply fail_fast_bind; [apply ensureUpstreams_fail_fast|intros []].
  apply fail_fast_bind.
  - rewrite date_now_eq. apply fail_fast_cons; [exact I|apply fail_fast_nil].
  - intros now. apply ensureRepository_fail_fast.
Qed.
End FailFast.



(** ** Provisioning twice *)

Section Keeping.
Context {W : Type} (host : Host W) (P : W -> bool).
Hypothesis Hkeeps : keeps host P.

Lemma preserves_ret {A} (a : A) : preserves P (ret a).
Proof. intros s H. exact H. Qed.

Lemma preserves_throw {A} e : preserves P (@throw W A e).
Proof. intros s H. exact H. Qed.

Lemma preserves_bind {A B} (m : M W A) (k : A -> M W B) :
  preserves P m -> (forall a, preserves P (k a)) -> preserves P (bind m k).
Proof.
  intros Hm Hk s H. unfold bind. specialize (Hm s H).
  destruct (result (m s)) as [a| |]; simpl; auto. now apply Hk.
Qed.

Lemma preserves_try_catch {A} (m : M W A) h :
  preserves P m -> (forall e, preserves P (h e)) ->
  preserves P (try_catch m h).
Proof.
  intros Hm Hh s H. unfold try_catch. specialize (Hm s H).
  destruct (result (m s)) as [a|e|]; simpl; auto. now apply Hh.
Qed.

Lemma preserves_call {R} (q : Request R) :
  is_delete q = false -> preserves P (call host q).
Proof.
  intros Hq s H. unfold call.
  destruct Hkeeps as (K & _). specialize (K R q s Hq H).
  destruct (aws host q s). exact K.
Qed.

Lemma preserves_date_now : preserves P (date_now host).
Proof.
  intros s H. unfold date_now. destruct Hkeeps as (_ & K & _).
  specialize (K s H). destruct (dateNow host s). exact K.
Qed.

Lemma preserves_sleep ms : preserves P (sleep host ms).
Proof. intros s H. destruct Hkeeps as (_ & _ & K & _). now apply K. Qed.

Lemma preserves_console_debug msg : preserves P (console_debug host msg).
Proof.
  intros s H. destruct Hkeeps as (_ & _ & _ & _ & K). now apply K.
Qed.

Lemma preserves_retry_loop {A} (block : M W A) attempts :
  preserves P block -> preserves P (retry_loop host attempts block).
Proof.
  intros Hb. induction attempts as [|k IH]; simpl;
    apply preserves_try_catch; try exact Hb; intros e;
    apply preserves_bind; try apply preserves_console_debug; intros _.
  - apply preserves_throw.
  - apply preserves_bind; [apply preserves_sleep|intros _; exact IH].
Qed.

Lemma preserves_domainExists : preserves P (domainExists host).
Proof.
  apply preserves_try_catch.
  - apply preserves_bind; [now apply preserves_call|].
    intros _. apply preserves_ret.
  - intros e. destruct (negb _);
      [apply preserves_throw|apply preserves_ret].
Qed.

Lemma preserves_repositoryExists n : preserves P (repositoryExists host n).
Proof.
  apply preserves_try_catch.
  - apply preserves_bind; [now apply preserves_call|].
    intros _. apply preserves_ret.
  - intros e. destruct (negb _);
      [apply preserves_throw|apply preserves_ret].
Qed.

Lemma preserves_ensureDomain : preserves P (ensureDomain host).
Proof.
  apply preserves_bind; [apply preserves_domainExists|].
  intros [|]; [apply preserves_ret|now apply preserves_call].
Qed.

Lemma preserves_associate n options :
  preserves P
    (if truthy (optional opt_external options) then
       match optional opt_external options with
       | Some externalConnection =>
           retry host (call host
             (AssociateExternalConnection domain n externalConnection))
       | None => ret tt
       end
     else ret tt).
Proof.
  destruct (truthy _); [|apply preserves_ret].
  destruct (optional _ _); [|apply preserves_ret].
  apply preserves_retry_loop. now apply preserves_call.
Qed.

Lemma preserves_ensureRepository n options :
  preserves P (ensureRepository host n options).
Proof.
  apply preserves_bind; [apply preserves_repositoryExists|].
  intros [|]; [apply preserves_ret|].
  apply preserves_bind; [now apply preserves_call|].
  intros _. apply preserves_associate.
Qed.

Lemma preserves_ensureUpstreams : preserves P (ensureUpstreams host).
Proof.
  unfold ensureUpstreams.
  repeat (apply preserves_bind;
          [apply preserves_ensureRepository|intros _]).
  apply preserves_ensureRepository.
Qed.

Lemma establishes_bind_l {A B} (m : M W A) (k : A -> M W B) :
  establishes P m -> (forall a, preserves P (k a)) ->
  establishes P (bind m k).
Proof.
  intros Hm Hk s b H. apply bind_ok_inv in H.
  destruct H as (a & Rm & Rk & _ & F). rewrite F.
  apply Hk. now apply (Hm s a).
Qed.

Lemma establishes_bind_r {A B} (m : M W A) (k : A -> M W B) :
  (forall a, establishes P (k a)) -> establishes P (bind m k).
Proof.
  intros Hk s b H. apply bind_ok_inv in H.
  destruct H as (a & Rm & Rk & _ & F). rewrite F. now apply (Hk a _ b).
Qed.
End Keeping.

Section Remembering.
Context {W : Type} (host : Host W).
Variables (domain_present : W -> bool) (repo_present : string -> W -> bool).
Hypothesis Hrem : remembers host domain_present repo_present.

Lemma remembers_keeps_domain : keeps host domain_present.
Proof. exact (proj1 Hrem). Qed.

Lemma remembers_keeps_repo n : keeps host (repo_present n).
Proof. exact (proj1 (proj2 Hrem) n). Qed.

Lemma ensureDomain_when_present s :
  domain_present s = true ->
  ensureDomain host s =
  mkOutcome (Ok tt) (snd (aws host (DescribeDomain domain) s))
    [EvAws (DescribeDomain domain) (inr tt)].
Proof.
  intros H. pose proof Hrem as Hrem'; destruct Hrem' as (_ & _ & Hp & _). specialize (Hp s H).
  change "test-cdk" with domain in Hp.
  destruct (aws host (DescribeDomain domain) s) as [a s1] eqn:E.
  simpl in Hp. subst a. unfold ensureDomain.
  rewrite (bind_ok _ (domainExists_found E)). reflexivity.
Qed.

Lemma ensureRepository_when_present n options s :
  repo_present n s = true ->
  ensureRepository host n options s =
  mkOutcome (Ok tt) (snd (aws host (DescribeRepository domain n) s))
    [EvAws (DescribeRepository domain n) (inr tt)].
Proof.
  intros H. pose proof Hrem as Hrem'; destruct Hrem' as (_ & _ & _ & _ & _ & Hp & _).
  specialize (Hp n s H). change "test-cdk" with domain in Hp.
  destruct (aws host (DescribeRepository domain n) s) as [a s1] eqn:E.
  simpl in Hp. subst a. apply (ensureRepository_found _ E).
Qed.

Lemma ensureDomain_present : establishes domain_present (ensureDomain host).
Proof.
  intros s [] H. pose proof Hrem as Hrem'.
  destruct Hrem' as (_ & _ & _ & Hf & Hc & _).
  unfold ensureDomain in *.
  specialize (Hf s). change "test-cdk" with domain in Hf.
  destruct (aws host (DescribeDomain domain) s) as [[e|[]] s1] eqn:E.
  - destruct (not_found e) eqn:N.
    + rewrite (bind_ok _ (domainExists_missing E N)) in *.
      cbn [result final trace] in *.
      specialize (Hc [mkTag "testing" "true"] s1).
      change "test-cdk" with domain in Hc. unfold call in *.
      destruct (aws host (CreateDomain domain _) s1) as [[e'|[]] s2];
        simpl in *; [discriminate|]. now apply Hc.
    + rewrite (bind_throw _ (domainExists_throws E N)) in H.
      discriminate.
  - rewrite (bind_ok _ (domainExists_found E)). simpl. now apply Hf.
Qed.

Lemma ensureRepository_present n options :
  establishes (repo_present n) (ensureRepository host n options).
Proof.
  intros s [] H. pose proof Hrem as Hrem'; destruct Hrem' as (_ & _ & _ & _ & _ & _ & Hf & Hc).
  specialize (Hf n s). change "test-cdk" with domain in Hf.
  unfold ensureRepository in *.
  destruct (aws host (DescribeRepository domain n) s) as [[e|[]] s1] eqn:E.
  - destruct (not_found e) eqn:N.
    + rewrite (bind_ok _ (repositoryExists_missing E N)) in *.
      cbn [result final trace] in *.
      match goal with
      | |- context [call host ?c] => set (create := c) in *
      end.
      assert (Hc' : fst (aws host create s1) = inr tt ->
                    repo_present n (snd (aws host create s1)) = true)
        by apply Hc.
      destruct (aws host create s1) as [[e'|[]] s2] eqn:C.
      * rewrite (bind_throw _ (call_throw C)) in H. discriminate.
      * rewrite (bind_ok _ (call_ok C)). cbn [result final trace].
        apply (preserves_associate (remembers_keeps_repo n)). now apply Hc'.
    + rewrite (bind_throw _ (repositoryExists_throws E N)) in H.
      discriminate.
  - rewrite (bind_ok _ (repositoryExists_found E)). simpl. now apply Hf.
Qed.
End Remembering.

Section Twice.
Context {W : Type} (host : Host W).
Variables (domain_present : W -> bool) (repo_present : string -> W -> bool).
Hypothesis Hrem : remembers host domain_present repo_present.
Variable name : string.

Lemma keeps_name : keeps host (repo_present name).
Proof. exact (remembers_keeps_repo Hrem name). Qed.

Lemma tidy_bind {A B} (m : M W A) (k : A -> M W B) :
  tidy (repo_present name) name m -> (forall a, tidy (repo_present name) name (k a)) -> tidy (repo_present name) name (bind m k).
Proof.
  intros Hm Hk s b H. apply bind_ok_inv in H.
  destruct H as (a & Rm & Rk & T & F). cbv zeta. rewrite T, F.
  destruct (Hm s a Rm) as (M1 & M2 & M3 & M4).
  destruct (Hk a (final (m s)) b Rk) as (K1 & K2 & K3 & K4).
  unfold missing, create_requests in *. rewrite !flat_map_app.
  fold missing create_requests in *.
  split; [|split; [|split]].
  - intros Hs. destruct (M1 Hs) as [N1 Pm]. destruct (K1 Pm) as [N2 Pf].
    split; [|exact Pf]. rewrite in_app_iff. tauto.
  - rewrite count_occ_app.
    destruct (in_dec string_dec name (missing (trace (m s)))) as [I|I].
    + destruct (K1 (M3 I)) as [N2 _].
      apply (count_occ_not_In string_dec) in N2. lia.
    + apply (count_occ_not_In string_dec) in I. lia.
  - rewrite in_app_iff. intros [I|I].
    + now apply K1, M3.
    + now apply K3.
  - now rewrite M4, K4.
Qed.

Lemma tidy_quiet {A} (m : M W A) :
  preserves (repo_present name) m ->
  (forall s, missing (trace (m s)) = [] /\
             (forall a, result (m s) = Ok a ->
                        create_requests (trace (m s)) = [])) ->
  tidy (repo_present name) name m.
Proof.
  intros Hp Hq s a R. destruct (Hq s) as [Hm Hc]. cbv zeta.
  rewrite Hm, (Hc a R). simpl. repeat split; auto.
Qed.

Lemma tidy_ensureDomain : tidy (repo_present name) name (ensureDomain host).
Proof.
  apply tidy_quiet; [apply preserves_ensureDomain, keeps_name|].
  intros s.
  destruct (ensureDomain_cases host s)
    as [(R & T)|[(e & N & R & T)|(e & [e'|[]] & N & R & T)]]; rewrite T;
    split; try reflexivity; intros; reflexivity.
Qed.

Lemma tidy_date_now : tidy (repo_present name) name (date_now host).
Proof.
  apply tidy_quiet; [apply preserves_date_now, keeps_name|].
  intros s. rewrite date_now_eq. split; reflexivity.
Qed.

Lemma quiet_failed_attempts n ext fails :
  missing (failed_attempts
             (AssociateExternalConnection domain n ext) fails) = [] /\
  create_requests (failed_attempts
             (AssociateExternalConnection domain n ext) fails) = [].
Proof.
  induction fails as [|e fails [IH1 IH2]]; [split; reflexivity|].
  unfold failed_attempts in *. simpl. split; assumption.
Qed.

Lemma missing_probe d n e :
  not_found e = true ->
  missing_of (EvAws (DescribeRepository d n) (inl e)) = [n].
Proof.
  intros N. unfold missing_of.
  change (String.eqb (code e) ResourceNotFoundException)
    with (not_found e). rewrite N. reflexivity.
Qed.

(** What a successful [ensureRepository] reports missing and creates. *)
Lemma ensureRepository_missing n options s :
  let o := ensureRepository host n options s in
  result o = Ok tt ->
  (missing (trace o) = [] \/ missing (trace o) = [n]) /\
  create_requests (trace o) = missing (trace o).
Proof.
  intros o H.
  destruct (ensureRepository_cases host n options s)
    as [(R & T)|[(e & N & R & T)|[(e0 & e & N & R & T)|
        [(e0 & N & X & R & T)|(e0 & ext & tr & N & X & T & Rr)]]]];
    fold o in T; try fold o in R; try fold o in Rr; rewrite T.
  - split; [left|]; reflexivity.
  - rewrite R in H. discriminate.
  - rewrite R in H. discriminate.
  - unfold missing, create_requests. cbn [flat_map].
    rewrite (missing_probe _ _ N). split; [right|]; reflexivity.
  - destruct Rr as (fails & _ & [(r & Tr & _)|(e & _ & _ & Ro)]).
    + rewrite Tr. unfold missing, create_requests.
      rewrite !flat_map_app. fold missing create_requests.
      destruct (quiet_failed_attempts n ext fails) as [Q1 Q2].
      rewrite Q1, Q2. unfold missing, create_requests. cbn [flat_map].
      rewrite (missing_probe _ _ N). split; [right|]; reflexivity.
    + rewrite Ro in H. discriminate.
Qed.

Lemma tidy_ensureRepository n options :
  tidy (repo_present name) name (ensureRepository host n options).
Proof.
  intros s [] H. cbv zeta.
  destruct (ensureRepository_missing H) as [Hm Hc].
  split; [|split; [|split]].
  - intros Hs.
    split; [|now apply preserves_ensureRepository; [apply keeps_name|]].
    destruct (string_dec n name) as [->|D].
    + rewrite (ensureRepository_when_present Hrem options Hs). simpl. tauto.
    + destruct Hm as [-> | ->]; simpl; tauto.
  - destruct Hm as [-> | ->]; simpl; [lia|].
    destruct (string_dec n name); lia.
  - destruct Hm as [-> | ->]; simpl; [tauto|].
    intros [->|[]].
    exact (@ensureRepository_present _ host _ _ Hrem name options s tt H).
  - exact Hc.
Qed.

Lemma tidy_prepare : tidy (repo_present name) name (prepare host name).
Proof.
  unfold prepare, ensureUpstreams.
  apply tidy_bind; [apply tidy_ensureDomain|intros _].
  apply tidy_bind.
  - repeat (apply tidy_bind; [apply tidy_ensureRepository|intros _]).
    apply tidy_ensureRepository.
  - intros _. apply tidy_bind; [apply tidy_date_now|intros now].
    apply tidy_ensureRepository.
Qed.
End Twice.

Section Second.
Context {W : Type} (host : Host W).
Variables (domain_present : W -> bool) (repo_present : string -> W -> bool).
Hypothesis Hrem : remembers host domain_present repo_present.
Variable name : string.

Lemma preserves_prepare P : keeps host P -> preserves P (prepare host name).
Proof.
  intros K. unfold prepare.
  apply preserves_bind; [now apply preserves_ensureDomain|intros _].
  apply preserves_bind; [now apply preserves_ensureUpstreams|intros _].
  apply preserves_bind; [now apply preserves_date_now|intros now].
  now apply preserves_ensureRepository.
Qed.

(** After a successful [prepare] the domain, the upstreams and the
    sandbox are present. *)
Lemma prepare_establishes :
  establishes
    (fun st => domain_present st && repo_present npmUpstream st &&
               repo_present mavenUpstream st &&
               repo_present nugetUpstream st &&
               repo_present pypiUpstream st && repo_present name st)
    (prepare host name).
Proof.
  intros s [] H.
  pose proof (remembers_keeps_domain Hrem) as Hkd.
  pose proof (remembers_keeps_repo Hrem) as Hkr.
  assert (D : establishes domain_present (prepare host name)).
  { unfold prepare. apply establishes_bind_l.
    - apply (ensureDomain_present Hrem).
    - intros _.
      apply preserves_bind; [now apply preserves_ensureUpstreams|intros _].
      apply preserves_bind; [now apply preserves_date_now|intros now].
      now apply preserves_ensureRepository. }
  assert (U : forall P, keeps host P ->
    forall a : unit, preserves P
      (now <- date_now host ;;
       ensureRepository host name
         (Some (mkOptions (Some "Testing repository") None
            (Some [npmUpstream; pypiUpstream; nugetUpstream; mavenUpstream])
            (Some [(COLLECT_BY_TAG,
                    string_of_Z (now + REPO_LIFETIME_MS))]))))).
  { intros P K _.
    apply preserves_bind; [now apply preserves_date_now|intros now].
    now apply preserves_ensureRepository. }
  assert (N1 : establishes (repo_present npmUpstream) (prepare host name)).
  { unfold prepare, ensureUpstreams.
    apply establishes_bind_r. intros _.
    apply establishes_bind_l; [|now apply U].
    apply establishes_bind_l;
      [apply (ensureRepository_present Hrem)|intros _].
    repeat (apply preserves_bind;
            [now apply preserves_ensureRepository|intros _]).
    now apply preserves_ensureRepository. }
  assert (N2 : establishes (repo_present mavenUpstream) (prepare host name)).
  { unfold prepare, ensureUpstreams.
    apply establishes_bind_r. intros _.
    apply establishes_bind_l; [|now apply U].
    apply establishes_bind_r. intros _.
    apply establishes_bind_l;
      [apply (ensureRepository_present Hrem)|intros _].
    repeat (apply preserves_bind;
            [now apply preserves_ensureRepository|intros _]).
    now apply preserves_ensureRepository. }
  assert (N3 : establishes (repo_present nugetUpstream) (prepare host name)).
  { unfold prepare, ensureUpstreams.
    apply establishes_bind_r. intros _.
    apply establishes_bind_l; [|now apply U].
    do 2 (apply establishes_bind_r; intros _).
    apply establishes_bind_l;
      [apply (ensureRepository_present Hrem)|intros _].
    now apply preserves_ensureRepository. }
  assert (N4 : establishes (repo_present pypiUpstream) (prepare host name)).
  { unfold prepare, ensureUpstreams.
    apply establishes_bind_r. intros _.
    apply establishes_bind_l; [|now apply U].
    do 3 (apply establishes_bind_r; intros _).
    apply (ensureRepository_present Hrem). }
  assert (N5 : establishes (repo_present name) (prepare host name)).
  { unfold prepare.
    do 2 (apply establishes_bind_r; intros _).
    apply establishes_bind_r. intros now.
    apply (ensureRepository_present Hrem). }
  rewrite (D s tt H), (N1 s tt H), (N2 s tt H), (N3 s tt H), (N4 s tt H),
    (N5 s tt H). reflexivity.
Qed.

Lemma ensureUpstreams_when_present s :
  repo_present npmUpstream s = true ->
  repo_present mavenUpstream s = true ->
  repo_present nugetUpstream s = true ->
  repo_present pypiUpstream s = true ->
  exists s',
    ensureUpstreams host s =
    mkOutcome (Ok tt) s'
      [EvAws (DescribeRepository domain npmUpstream) (inr tt);
       EvAws (DescribeRepository domain mavenUpstream) (inr tt);
       EvAws (DescribeRepository domain nugetUpstream) (inr tt);
       EvAws (DescribeRepository domain pypiUpstream) (inr tt)] /\
    forall P, keeps host P -> P s = true -> P s' = true.
Proof.
  intros N1 N2 N3 N4. unfold ensureUpstreams.
  pose proof (remembers_keeps_repo Hrem) as Hkr.
  rewrite (bind_ok _ (ensureRepository_when_present Hrem _ N1)).
  set (s1 := snd (aws host (DescribeRepository domain npmUpstream) s)).
  assert (K1 : forall P, keeps host P -> P s = true -> P s1 = true).
  { intros P K H. now apply (proj1 K). }
  rewrite (bind_ok (s:=s1) _
    (ensureRepository_when_present Hrem _ (K1 _ (Hkr _) N2))).
  set (s2 := snd (aws host (DescribeRepository domain mavenUpstream) s1)).
  assert (K2 : forall P, keeps host P -> P s = true -> P s2 = true).
  { intros P K H. apply (proj1 K); auto. }
  rewrite (bind_ok (s:=s2) _
    (ensureRepository_when_present Hrem _ (K2 _ (Hkr _) N3))).
  set (s3 := snd (aws host (DescribeRepository domain nugetUpstream) s2)).
  assert (K3 : forall P, keeps host P -> P s = true -> P s3 = true).
  { intros P K H. apply (proj1 K); auto. }
  rewrite (ensureRepository_when_present Hrem _ (K3 _ (Hkr _) N4)).
  cbn [result final trace app].
  eexists. split; [reflexivity|].
  intros P K H. apply (proj1 K); auto.
Qed.

(** On a registry where everything is present, [prepare] only probes. *)
Lemma prepare_when_present s :
  domain_present s = true ->
  repo_present npmUpstream s = true ->
  repo_present mavenUpstream s = true ->
  repo_present nugetUpstream s = true ->
  repo_present pypiUpstream s = true ->
  repo_present name s = true ->
  let o := prepare host name s in
  result o = Ok tt /\
  exists now,
    trace o =
    [EvAws (DescribeDomain domain) (inr tt);
     EvAws (DescribeRepository domain npmUpstream) (inr tt);
     EvAws (DescribeRepository domain mavenUpstream) (inr tt);
     EvAws (DescribeRepository domain nugetUpstream) (inr tt);
     EvAws (DescribeRepository domain pypiUpstream) (inr tt);
     EvNow now;
     EvAws (DescribeRepository domain name) (inr tt)].
Proof.
  intros D N1 N2 N3 N4 N5 o. subst o. unfold prepare.
  pose proof (remembers_keeps_repo Hrem) as Hkr.
  rewrite (bind_ok _ (ensureDomain_when_present Hrem D)).
  set (s1 := snd (aws host (DescribeDomain domain) s)).
  assert (K1 : forall n, repo_present n s = true ->
                         repo_present n s1 = true).
  { intros n H. now apply (proj1 (Hkr n)). }
  destruct (ensureUpstreams_when_present
              (K1 _ N1) (K1 _ N2) (K1 _ N3) (K1 _ N4)) as (s2 & E & K2).
  rewrite (bind_ok _ E).
  rewrite (bind_ok _ (date_now_eq host s2)).
  assert (K3 : repo_present name (snd (dateNow host s2)) = true).
  { apply (proj1 (proj2 (Hkr name))). apply K2; auto. }
  rewrite (ensureRepository_when_present Hrem _ K3).
  cbn [result final trace app]. split; [reflexivity|].
  exists (fst (dateNow host s2)). reflexivity.
Qed.
End Second.

(** On a registry that remembers, after a successful [prepare] a second
    [prepare] of the same name succeeds as well, only probes, and creates
    nothing; the first call requests the creation of the sandbox at most
    once, and once when it found it missing. *)
Lemma prepare_again :
  forall (W : Type) (host : Host W)
         (domain_present : W -> bool) (repo_present : string -> W -> bool)
         (repositoryName : string) (s : W),
    remembers host domain_present repo_present ->
    let o1 := prepare host repositoryName s in
    let o2 := prepare host repositoryName (final o1) in
    result o1 = Ok tt ->
    result o2 = Ok tt /\
    (exists now,
       trace o2 =
       [EvAws (DescribeDomain "test-cdk") (inr tt);
        EvAws (DescribeRepository "test-cdk" "npm-upstream") (inr tt);
        EvAws (DescribeRepository "test-cdk" "maven-upstream") (inr tt);
        EvAws (DescribeRepository "test-cdk" "nuget-upstream") (inr tt);
        EvAws (DescribeRepository "test-cdk" "pypi-upstream") (inr tt);
        EvNow now;
        EvAws (DescribeRepository "test-cdk" repositoryName) (inr tt)]) /\
    create_requests (trace o2) = [] /\
    (count_occ string_dec (create_requests (trace o1 ++ trace o2))
       repositoryName <= 1)%nat /\
    (In repositoryName (missing (trace o1)) ->
     count_occ string_dec (create_requests (trace o1 ++ trace o2))
       repositoryName = 1%nat).
Proof.
  intros W host dp rp n s Hrem o1 o2 H1.
  pose proof (prepare_establishes Hrem H1) as E. fold o1 in E.
  repeat (apply andb_true_iff in E; destruct E as [E ?]).
  destruct (@prepare_when_present _ host dp rp Hrem n (final o1))
    as (R2 & now & T2); try assumption.
  fold o2 in R2, T2.
  destruct (tidy_prepare Hrem H1) as (_ & C & _ & M). fold o1 in C, M.
  assert (Q : create_requests (trace o2) = []) by (rewrite T2; reflexivity).
  split; [exact R2|]. split; [exists now; exact T2|]. split; [exact Q|].
  unfold create_requests in *. rewrite flat_map_app.
  fold create_requests in *. rewrite Q, app_nil_r, M.
  split; [exact C|]. intros I.
  apply (count_occ_In string_dec) in I. lia.
Qed.

(** The reference registry remembers, provided its plan spares the
    probes. *)
Section ReferenceRegistry.
Variables (plan : Registry.Plan) (pageSize : nat).
Hypothesis probes_served :
  forall k R (q : Request R), is_probe q = true -> @plan k R q = None.

Lemma is_repo_refl d n tags ups conns :
  Registry.is_repo d n (Registry.mkRepository d n tags ups conns) = true.
Proof.
  unfold Registry.is_repo. simpl. now rewrite !String.eqb_refl.
Qed.

Lemma has_repo_associate d n d' n' ext l :
  existsb (Registry.is_repo d n)
    (map (fun r =>
            if Registry.is_repo d' n' r
            then Registry.mkRepository (Registry.repo_domain r)
                   (Registry.repo_name r) (Registry.repo_tags r)
                   (Registry.repo_upstreams r)
                   (ext :: Registry.repo_connections r)
            else r) l) =
  existsb (Registry.is_repo d n) l.
Proof.
  induction l as [|r l IH]; simpl; [reflexivity|]. rewrite IH. f_equal.
  destruct (Registry.is_repo d' n' r); reflexivity.
Qed.

Lemma serve_keeps_domain {R} (q : Request R) st d :
  Registry.has_domain st d = true ->
  Registry.has_domain (snd (Registry.serve pageSize q st)) d = true.
Proof.
  intros H. destruct q; simpl;
    repeat match goal with
           | |- context [if ?b then _ else _] => destruct b
           end; simpl; auto.
  unfold Registry.has_domain in *. simpl. rewrite H. apply orb_true_r.
Qed.

Lemma serve_keeps_repo {R} (q : Request R) st d n :
  is_delete q = false ->
  Registry.has_repo st d n = true ->
  Registry.has_repo (snd (Registry.serve pageSize q st)) d n = true.
Proof.
  intros Hq H. destruct q; try discriminate Hq; simpl;
    repeat match goal with
           | |- context [if ?b then _ else _] => destruct b eqn:?
           end; simpl; auto.
  - unfold Registry.has_repo in *. simpl. rewrite existsb_app, H.
    reflexivity.
  - unfold Registry.has_repo in *. simpl.
    rewrite has_repo_associate. exact H.
Qed.

Lemma reference_keeps (P : Registry.State -> bool) :
  (forall st, P (Registry.tick st) = P st) ->
  (forall R (q : Request R) st,
     is_delete q = false -> P st = true ->
     P (snd (Registry.serve pageSize q st)) = true) ->
  (forall ms st,
     P (Registry.mkState (Registry.domains st) (Registry.repos st)
          (Registry.clock st + ms) (Registry.served st)) = P st) ->
  keeps (Registry.host plan pageSize) P.
Proof.
  intros Ht Hs Hc. repeat split; simpl; auto.
  - intros R q st Hq H. unfold Registry.handle.
    destruct (@plan (Registry.served st) R q); simpl.
    + now rewrite Ht.
    + apply Hs; [exact Hq|]. now rewrite Ht.
  - intros ms st H. now rewrite Hc.
Qed.

Lemma handle_describe_domain st d :
  aws (Registry.host plan pageSize) (DescribeDomain d) st =
  (if Registry.has_domain st d then inr tt else inl Registry.notFound,
   Registry.tick st).
Proof.
  simpl. unfold Registry.handle. now rewrite probes_served.
Qed.

Lemma handle_describe_repository st d n :
  aws (Registry.host plan pageSize) (DescribeRepository d n) st =
  (if Registry.has_repo st d n then inr tt else inl Registry.notFound,
   Registry.tick st).
Proof.
  simpl. unfold Registry.handle. now rewrite probes_served.
Qed.

Lemma reference_remembers :
  remembers (Registry.host plan pageSize)
    (fun st => Registry.has_domain st "test-cdk")
    (fun n st => Registry.has_repo st "test-cdk" n).
Proof.
  split; [|split; [|split; [|split; [|split; [|split; [|split]]]]]].
  - apply reference_keeps; try reflexivity.
    intros R q st _. apply serve_keeps_domain.
  - intros n. apply reference_keeps; try reflexivity.
    intros R q st. apply serve_keeps_repo.
  - intros st H. rewrite handle_describe_domain, H. reflexivity.
  - intros st. rewrite handle_describe_domain.
    destruct (Registry.has_domain st "test-cdk") eqn:E;
      [intros _; exact E|discriminate].
  - intros tags st. cbn [aws Registry.host]. unfold Registry.handle.
    destruct (@plan _ _ _); [discriminate|]. cbn [Registry.serve].
    change (Registry.has_domain (Registry.tick st) "test-cdk")
      with (Registry.has_domain st "test-cdk").
    destruct (Registry.has_domain st "test-cdk"); [discriminate|].
    reflexivity.
  - intros n st H. rewrite handle_describe_repository, H. reflexivity.
  - intros n st. rewrite handle_describe_repository.
    destruct (Registry.has_repo st "test-cdk" n) eqn:E;
      [intros _; exact E|discriminate].
  - intros n d u t st. cbn [aws Registry.host]. unfold Registry.handle.
    destruct (@plan _ _ _); [discriminate|]. cbn [Registry.serve].
    change (Registry.has_domain (Registry.tick st) "test-cdk")
      with (Registry.has_domain st "test-cdk").
    change (Registry.has_repo (Registry.tick st) "test-cdk" n)
      with (Registry.has_repo st "test-cdk" n).
    destruct (Registry.has_domain st "test-cdk"); [|discriminate].
    destruct (Registry.has_repo st "test-cdk" n); [discriminate|].
    intros _. unfold Registry.has_repo.
    cbn [snd negb Registry.with_repos Registry.repos Registry.tick].
    rewrite existsb_app. cbn [existsb]. rewrite is_repo_refl.
    rewrite orb_true_l. apply orb_true_r.
Qed.
End ReferenceRegistry.

(** ** An association that never succeeds *)



(** After such a failure the upstream stays in the registry without its
    connection, also when the registry has recovered: provisioning then
    finds it and does not ask for the association. *)
Example upstream_left_without_connection :
  let failed :=
    ensureRepository (Registry.host reject_associations 2) "npm-upstream"
      (Some npm_options) domain_only in
  let o := prepare (Registry.host Registry.no_faults 2) "test-abc"
             (final failed) in
  result o = Ok tt /\
  existsb (String.eqb "npm-upstream") (map fst (associate_requests (trace o)))
    = false /\
  map Registry.repo_connections
    (filter (Registry.is_repo "test-cdk" "npm-upstream")
       (Registry.repos (final o))) = [[]].
Proof. vm_compute. auto. Qed.

(** ** A day in the life of a sandbox *)

(** A sandbox provisioned now is kept by a sweep one hour later and
    collected by a sweep 25 hours later. *)
Example sweep_after_a_day :
  let h := Registry.host Registry.no_faults 2 in
  let created := final (prepare h "test-abc" (Registry.empty 1700000000000)) in
  deleted (trace (gc h 10 (sleepFor h (1 * 3600 * 1000) created))) = [] /\
  deleted (trace (gc h 10 (sleepFor h (25 * 3600 * 1000) created))) =
    [("test-cdk", "test-abc")].
Proof. vm_compute. auto. Qed.

(** * Further properties *)

(** ** Properties of whole traces *)

Section Closed.
Context {W : Type} (host : Host W).
Variable P : list Event -> Prop.
Hypothesis HP : closed P.

Lemma closed_bind {A B} (m : M W A) (k : A -> M W B) s :
  P (trace (m s)) -> (forall a s', P (trace (k a s'))) ->
  P (trace (bind m k s)).
Proof.
  intros H1 H2. rewrite bind_trace. apply (proj2 HP); [exact H1|].
  destruct (result (m s)); [apply H2|apply (proj1 HP)..].
Qed.

Lemma closed_try_catch {A} (m : M W A) h s :
  P (trace (m s)) -> (forall e s', P (trace (h e s'))) ->
  P (trace (try_catch m h s)).
Proof.
  intros H1 H2. unfold try_catch.
  destruct (result (m s)); simpl; auto. apply (proj2 HP); auto.
Qed.

Lemma closed_call {R} (q : Request R) s :
  (forall a, P [EvAws q a]) -> P (trace (call host q s)).
Proof. intros H. unfold call. destruct (aws host q s). apply H. Qed.

Lemma closed_date_now s :
  (forall t, P [EvNow t]) -> P (trace (date_now host s)).
Proof. intros H. rewrite date_now_eq. apply H. Qed.

Lemma closed_retry_loop {A} (block : M W A) attempts s :
  (forall s', P (trace (block s'))) ->
  (forall msg, P [EvDebug msg]) -> P [EvSleep 500] ->
  P (trace (retry_loop host attempts block s)).
Proof.
  intros Hb Hd Hs. revert s.
  induction attempts as [|k IH]; intros s; simpl;
    apply closed_try_catch; try apply Hb; intros e s';
    apply closed_bind; try apply Hd; intros _ s''.
  - apply (proj1 HP).
  - apply closed_bind; [apply Hs|]. intros _ s3. apply IH.
Qed.

Lemma closed_for_of {A} (l : list A) (body : A -> M W unit) s :
  (forall x s', P (trace (body x s'))) -> P (trace (for_of l body s)).
Proof.
  intros Hb. revert s. induction l as [|x l IH]; intros s; simpl.
  - apply (proj1 HP).
  - apply closed_bind; [apply Hb|]. intros _ s'. apply IH.
Qed.
End Closed.

Lemma closed_forallb (p : Event -> bool) :
  closed (fun tr => forallb p tr = true).
Proof.
  split; [reflexivity|]. intros a b Ha Hb. now rewrite forallb_app, Ha, Hb.
Qed.

Lemma flat_map_nil_forallb {A} (p : Event -> bool) (f : Event -> list A) tr :
  (forall ev, p ev = true -> f ev = []) ->
  forallb p tr = true -> flat_map f tr = [].
Proof.
  intros H. induction tr as [|ev tr IH]; simpl; [reflexivity|].
  intros E. apply andb_true_iff in E. destruct E as [E1 E2].
  now rewrite (H ev E1), IH.
Qed.

(** ** The random name *)

Lemma strip_non_alnum_clean s :
  all_chars is_lower_alnum (strip_non_alnum s) = true.
Proof.
  induction s as [|c s IH]; simpl; [reflexivity|].
  destruct (is_lower_alnum c) eqn:E; simpl; [now rewrite E|exact IH].
Qed.

Lemma strip_non_alnum_fixed s :
  all_chars is_lower_alnum s = true -> strip_non_alnum s = s.
Proof.
  induction s as [|c s IH]; simpl; [reflexivity|].
  intros H. apply andb_true_iff in H. destruct H as [H1 H2].
  now rewrite H1, IH.
Qed.

Lemma strip_non_alnum_length s :
  (String.length (strip_non_alnum s) <= String.length s)%nat.
Proof.
  induction s as [|c s IH]; simpl; [lia|].
  destruct (is_lower_alnum c); simpl; lia.
Qed.

Lemma is_lower_alnum_spec c : is_lower_alnum c = in_lower_alnum c.
Proof. destruct c as [[] [] [] [] [] [] [] []]; reflexivity. Qed.

Lemma strip_non_alnum_filter s :
  list_ascii_of_string (strip_non_alnum s) =
  filter in_lower_alnum (list_ascii_of_string s).
Proof.
  induction s as [|c s IH]; simpl; [reflexivity|].
  rewrite <- is_lower_alnum_spec.
  destruct (is_lower_alnum c); simpl; now rewrite IH.
Qed.

(** X1: whatever string the random number is rendered as, the sandbox
    that [newRandom] provisions is named ["test-"] followed by the
    rendering with every character outside [a-z0-9] removed, the others
    kept in their order.  Its run and its final state are those of
    [prepare] on that name, and it returns that name when [prepare]
    succeeds and throws what [prepare] throws. *)
Theorem newRandom_name :
  forall (W : Type) (host : Host W) (rendered : string) (s : W),
    let o := newRandom host rendered s in
    exists qualifier,
      list_ascii_of_string qualifier =
        filter in_lower_alnum (list_ascii_of_string rendered) /\
      trace o = trace (prepare host ("test-" ++ qualifier)%string s) /\
      final o = final (prepare host ("test-" ++ qualifier)%string s) /\
      result o =
        match result (prepare host ("test-" ++ qualifier)%string s) with
        | Ok _ => Ok ("test-" ++ qualifier)%string
        | Throw e => Throw e
        | OutOfFuel => OutOfFuel
        end.
Proof.
  intros W host rendered s o. exists (strip_non_alnum rendered).
  split; [apply strip_non_alnum_filter|].
  subst o. unfold newRandom. cbv zeta.
  set (name := ("test-" ++ strip_non_alnum rendered)%string).
  rewrite bind_trace, bind_result. unfold bind.
  destruct (result (prepare host name s)) as [[]| |]; simpl;
    rewrite ?app_nil_r; repeat split.
Qed.

Lemma newRandom_name_witness :
  let h := Registry.host Registry.no_faults 2 in
  let o := newRandom h "0.k3f9z" (Registry.empty 1700000000000) in
  result o = Ok "test-0k3f9z" /\
  filter in_lower_alnum (list_ascii_of_string "0.k3f9z") =
    list_ascii_of_string "0k3f9z" /\
  exists qualifier,
    list_ascii_of_string qualifier =
      filter in_lower_alnum (list_ascii_of_string "0.k3f9z") /\
    trace o = trace (prepare h ("test-" ++ qualifier)%string
                       (Registry.empty 1700000000000)) /\
    final o = final (prepare h ("test-" ++ qualifier)%string
                       (Registry.empty 1700000000000)) /\
    result o =
      match result (prepare h ("test-" ++ qualifier)%string
                      (Registry.empty 1700000000000)) with
      | Ok _ => Ok ("test-" ++ qualifier)%string
      | Throw e => Throw e
      | OutOfFuel => OutOfFuel
      end.
Proof.
  intros h o. split; [vm_compute; reflexivity|]. split; [reflexivity|].
  exact (newRandom_name h "0.k3f9z" (Registry.empty 1700000000000)).
Defined.

(** ** More on the retry helper *)

Section RetryBounds.
Context {W A : Type} (host : Host W) (block : M W A) (count : W -> nat).
Hypothesis Hcount : counts_invocations host block count.

Lemma retry_loop_invocations attempts s :
  let o := retry_loop host attempts block s in
  (count s + 1 <= count (final o) <= count s + attempts + 1)%nat /\
  (forall e, result o = Throw e ->
             count (final o) = (count s + attempts + 1)%nat) /\
  (forall v, result (block s) = Ok v -> o = block s).
Proof.
  destruct Hcount as (Hb & Hs & Hd).
  revert s. induction attempts as [|k IH]; intros s o; subst o.
  - destruct (result (block s)) as [v|e|] eqn:R.
    + rewrite (retry_loop_ok host 0 R). rewrite Hb.
      split; [lia|]. split; [intros; lia | reflexivity].
    + rewrite (retry_loop_last host R). simpl. rewrite Hd, Hb.
      split; [lia|]. split; [intros; lia | discriminate].
    + simpl. unfold try_catch. rewrite R. rewrite Hb.
      split; [lia|]. split; [rewrite R; discriminate | discriminate].
  - destruct (result (block s)) as [v|e|] eqn:R.
    + rewrite (retry_loop_ok host (S k) R). rewrite Hb.
      split; [lia|]. split; [rewrite R; discriminate | reflexivity].
    + rewrite (retry_loop_again host k R). cbv zeta. simpl.
      destruct (IH (pause host e (final (block s)))) as (I1 & I2 & _).
      assert (E : count (pause host e (final (block s))) = S (count s))
        by (unfold pause; rewrite Hs, Hd, Hb; reflexivity).
      rewrite E in I1, I2.
      split; [lia|]. split; [|discriminate].
      intros e' T. rewrite (I2 e' T). lia.
    + simpl. unfold try_catch. rewrite R. rewrite Hb.
      split; [lia|]. split; [rewrite R; discriminate | discriminate].
Qed.
End RetryBounds.

(** X2: for any action and any observer that counts its invocations,
    [retry] invokes the action at least once and at most four times; it
    throws only after the fourth invocation; and when the first
    invocation succeeds its run is that invocation alone, without log or
    sleep. *)
Theorem retry_invocations :
  forall (W A : Type) (host : Host W) (block : M W A) (count : W -> nat)
         (s : W),
    counts_invocations host block count ->
    let o := retry host block s in
    (count s + 1 <= count (final o) <= count s + 4)%nat /\
    (forall e, result o = Throw e -> count (final o) = (count s + 4)%nat) /\
    (forall v, result (block s) = Ok v -> o = block s).
Proof.
  intros W A host block count s H o.
  destruct (retry_loop_invocations H 3 s) as (B & T & F).
  fold (retry host block) in B, T, F. fold o in B, T, F.
  repeat split; try lia; auto. intros e E. rewrite (T e E). lia.
Qed.

Lemma retry_invocations_witness :
  let h := Registry.host (fail_first 1) 2 in
  let o := retry h (associate_npm h) with_npm in
  (1 <= Registry.served (final o) <= 4)%nat /\
  (forall e, result o = Throw e -> Registry.served (final o) = 4%nat) /\
  (forall v, result (associate_npm h with_npm) = Ok v ->
             o = associate_npm h with_npm).
Proof.
  intros h o.
  exact (@retry_invocations _ _ h (associate_npm h) Registry.served with_npm
           (served_counts_associate_npm 1)).
Defined.

(** ** Traces over an alphabet *)

Section Alphabet.
Context {W : Type} (host : Host W).
Variable p : Event -> bool.

Lemma alphabet_bind {A B} (m : M W A) (k : A -> M W B) s :
  forallb p (trace (m s)) = true ->
  (forall a s', forallb p (trace (k a s')) = true) ->
  forallb p (trace (bind m k s)) = true.
Proof. apply (closed_bind (closed_forallb p)). Qed.

Lemma alphabet_try_catch {A} (m : M W A) h s :
  forallb p (trace (m s)) = true ->
  (forall e s', forallb p (trace (h e s')) = true) ->
  forallb p (trace (try_catch m h s)) = true.
Proof. apply (closed_try_catch (closed_forallb p)). Qed.

Lemma alphabet_call {R} (q : Request R) s :
  (forall a, p (EvAws q a) = true) ->
  forallb p (trace (call host q s)) = true.
Proof.
  intros H. unfold call. destruct (aws host q s). simpl. now rewrite H.
Qed.

Lemma alphabet_date_now s :
  (forall t, p (EvNow t) = true) ->
  forallb p (trace (date_now host s)) = true.
Proof. intros H. rewrite date_now_eq. simpl. now rewrite H. Qed.

Lemma alphabet_retry_loop {A} (block : M W A) attempts s :
  (forall s', forallb p (trace (block s')) = true) ->
  (forall msg, p (EvDebug msg) = true) -> p (EvSleep 500) = true ->
  forallb p (trace (retry_loop host attempts block s)) = true.
Proof.
  intros Hb Hd Hs.
  apply (closed_retry_loop host (closed_forallb p)); [exact Hb| |].
  - intros msg. simpl. now rewrite Hd.
  - simpl. now rewrite Hs.
Qed.

Lemma alphabet_for_of {A} (l : list A) (body : A -> M W unit) s :
  (forall x s', forallb p (trace (body x s')) = true) ->
  forallb p (trace (for_of l body s)) = true.
Proof. apply (closed_for_of (closed_forallb p)). Qed.

Lemma alphabet_in tr ev :
  forallb p tr = true -> In ev tr -> p ev = true.
Proof. intros H. rewrite forallb_forall in H. apply H. Qed.
End Alphabet.

(** ** More on the sweep *)

Section SweepMore.
Context {W : Type} (host : Host W).

Lemma call_ok_inv {R} (q : Request R) s r :
  result (call host q s) = Ok r ->
  aws host q s = (inr r, final (call host q s)) /\
  trace (call host q s) = [EvAws q (inr r)].
Proof.
  unfold call. destruct (aws host q s) as [[e|r'] s']; simpl;
    intros H; inversion H. split; reflexivity.
Qed.

Lemma alphabet_weaken (p q : Event -> bool) tr :
  (forall ev, p ev = true -> q ev = true) ->
  forallb p tr = true -> forallb q tr = true.
Proof.
  intros H. induction tr as [|ev tr IH]; simpl; [reflexivity|].
  intros E. apply andb_true_iff in E. destruct E as [E1 E2].
  now rewrite (H ev E1), IH.
Qed.

Lemma repo_event_sweep_event ev : repo_event ev = true -> sweep_event ev = true.
Proof. unfold repo_event. intros H. apply andb_true_iff in H. tauto. Qed.

Lemma sweep_event_gc_event ev : sweep_event ev = true -> gc_event ev = true.
Proof. unfold sweep_event. intros H. apply andb_true_iff in H. tauto. Qed.

Lemma sweep_event_no_probe ev : sweep_event ev = true -> probe_event ev = false.
Proof.
  unfold sweep_event. intros H. apply andb_true_iff in H.
  destruct H as [_ H]. now destruct (probe_event ev).
Qed.

Lemma find_without_collect_by l s :
  collect_keys l = [] ->
  find (is_collectable host) l s = mkOutcome (Ok None) s [].
Proof.
  induction l as [|t l IH]; intros H; [reflexivity|].
  unfold collect_keys in H. simpl in H.
  destruct (String.eqb (key t) COLLECT_BY_TAG) eqn:E; [discriminate|].
  rewrite find_cons.
  assert (C : is_collectable host t s = mkOutcome (Ok false) s []).
  { rewrite is_collectable_eq. unfold COLLECT_BY_TAG in E. now rewrite E. }
  rewrite (bind_ok _ C). simpl. now rewrite (IH H).
Qed.

Lemma find_alphabet l s :
  forallb repo_event (trace (find (is_collectable host) l s)) = true.
Proof.
  revert s. induction l as [|t l IH]; intros s; [reflexivity|].
  rewrite find_cons. apply alphabet_bind.
  - rewrite is_collectable_eq. destruct (String.eqb _ _); reflexivity.
  - intros [] s'; [reflexivity|apply IH].
Qed.

Lemma gc_repo_alphabet repo s :
  forallb repo_event (trace (gc_repo host repo s)) = true.
Proof.
  unfold gc_repo. apply alphabet_bind.
  - apply alphabet_call; reflexivity.
  - intros tags s1. apply alphabet_bind.
    + destruct tags; [apply find_alphabet|reflexivity].
    + intros [t|] s2; [|reflexivity].
      apply alphabet_bind; [reflexivity|].
      intros _ s3. apply alphabet_call; reflexivity.
Qed.

Lemma for_of_gc_repo_alphabet l s :
  forallb repo_event (trace (for_of l (gc_repo host) s)) = true.
Proof. apply alphabet_for_of. intros; apply gc_repo_alphabet. Qed.

Lemma gc_pages_alphabet fuel token s :
  forallb sweep_event (trace (gc_pages host fuel token s)) = true.
Proof.
  revert token s. induction fuel as [|fuel IH]; intros token s;
    [reflexivity|].
  simpl. apply alphabet_bind.
  - apply alphabet_call; reflexivity.
  - intros page s1. apply alphabet_bind.
    + apply (alphabet_weaken repo_event_sweep_event).
      apply for_of_gc_repo_alphabet.
    + intros _ s2. destruct (truthy (nextToken page)); [apply IH|reflexivity].
Qed.

Lemma gc_alphabet fuel s :
  forallb gc_event (trace (gc host fuel s)) = true.
Proof.
  destruct (gc_cases host fuel s) as [(e & T & _)|(s1 & T & _)];
    rewrite T; [reflexivity|].
  rewrite forallb_app. simpl.
  apply (alphabet_weaken sweep_event_gc_event), gc_pages_alphabet.
Qed.

Lemma gc_pages_announces fuel token s :
  let tr := trace (gc_pages host fuel token s) in
  announced tr = map snd (delete_requests tr).
Proof.
  assert (C : closed (fun tr => announced tr = map snd (delete_requests tr))).
  { split; [reflexivity|]. intros a b Ha Hb.
    unfold announced, delete_requests in *.
    now rewrite !flat_map_app, map_app, Ha, Hb. }
  assert (G : forall repo s',
             announced (trace (gc_repo host repo s')) =
             map snd (delete_requests (trace (gc_repo host repo s')))).
  { intros repo s'. unfold gc_repo. apply (closed_bind C).
    - apply closed_call. reflexivity.
    - intros tags s1. apply (closed_bind C).
      + destruct tags as [l|]; [|reflexivity].
        destruct (find_is_collectable host l s1) as (x & ts & _ & T & _).
        rewrite T. clear. induction ts; simpl; auto.
      + intros [t|] s2; [|reflexivity].
        unfold bind, console_log, call. simpl.
        match goal with |- context [aws host ?q ?st] =>
          destruct (aws host q st) end; reflexivity. }
  revert token s. induction fuel as [|fuel IH]; intros token s tr; subst tr;
    [reflexivity|].
  simpl. apply (closed_bind C).
  - apply closed_call. reflexivity.
  - intros page s1. apply (closed_bind C).
    + apply (closed_for_of C). intros; apply G.
    + intros _ s2. destruct (truthy (nextToken page)); [apply IH|reflexivity].
Qed.
End SweepMore.

(** X3: when the probe of the domain is rejected, [gc] ends there,
    whatever the fuel: with success if the rejection is "resource not
    found", with the error of the probe otherwise.  No page is requested,
    no tag is read, nothing is deleted. *)
Theorem gc_without_domain :
  forall (W : Type) (host : Host W) (fuel : nat) (s s1 : W) (e : AWSError),
    aws host (DescribeDomain "test-cdk") s = (inl e, s1) ->
    gc host fuel s =
    mkOutcome (if not_found e then Ok tt else Throw e) s1
      [EvAws (DescribeDomain "test-cdk") (inl e)].
Proof.
  intros W host fuel s s1 e H. unfold gc.
  destruct (not_found e) eqn:E.
  - rewrite (bind_ok _ (domainExists_missing H E)). reflexivity.
  - rewrite (bind_throw _ (domainExists_throws H E)). reflexivity.
Qed.

Lemma gc_without_domain_witness :
  gc (Registry.host Registry.no_faults 2) 0 (Registry.empty 1700000000000) =
  mkOutcome (Ok tt) (Registry.tick (Registry.empty 1700000000000))
    [EvAws (DescribeDomain "test-cdk") (inl Registry.notFound)].
Proof.
  exact (@gc_without_domain _ (Registry.host Registry.no_faults 2) 0
           (Registry.empty 1700000000000) _ Registry.notFound eq_refl).
Defined.

(** X4: any rejected request ends [gc]: no event follows it.  Its error
    is thrown to the caller, except for the probe of the domain answered
    "resource not found", on which [gc] returns; and the only rejected
    probe there can be is the first event of the run. *)
Theorem gc_rejection_ends_sweep :
  forall (W : Type) (host : Host W) (fuel : nat) (s : W)
         (pre post : list Event) (ev : Event) (e : AWSError),
    let o := gc host fuel s in
    trace o = pre ++ ev :: post -> rejection_of ev = Some e ->
    post = [] /\
    result o = (if probe_event ev && not_found e then Ok tt else Throw e) /\
    (probe_event ev = true -> pre = []).
Proof.
  intros W host fuel s pre post ev e o T Rj. subst o.
  destruct (gc_cases host fuel s) as [(e0 & T0 & Res)|(s1 & T0 & Res)];
    cbv zeta in *; rewrite T0 in T.
  - destruct pre as [|x pre]; simpl in T.
    + inversion T; subst ev post. simpl in Rj. inversion Rj; subst e0.
      simpl. split; [reflexivity|]. split; [|reflexivity].
      destruct (not_found e); exact Res.
    + inversion T. destruct pre; discriminate.
  - destruct pre as [|x pre]; simpl in T.
    + inversion T; subst ev. discriminate Rj.
    + inversion T as [[Hx T']].
      destruct (gc_pages_sweep_ok host fuel None s1) as [_ Ord].
      destruct (orderly_rejection Ord T' Rj) as [-> Rp].
      assert (Np : probe_event ev = false).
      { apply sweep_event_no_probe.
        apply (alphabet_in (gc_pages_alphabet host fuel None s1)).
        rewrite T'. apply in_or_app. right. left. reflexivity. }
      rewrite Np. simpl. split; [reflexivity|]. split; [|discriminate].
      rewrite Res. exact Rp.
Qed.

Lemma gc_rejection_ends_sweep_witness :
  let h := Registry.host reject_tag_reads 2 in
  let o := gc h 10 two_expired in
  trace o =
    [EvAws (DescribeDomain "test-cdk") (inr tt);
     EvAws (ListRepositories None)
       (inr (mkPage (Some [Registry.summary old_repo;
                           Registry.summary older_repo]) None));
     EvAws (ListTagsForResource (arn (Registry.summary old_repo)))
       (inl denied)] /\
  result o = Throw denied.
Proof.
  intros h o. split; [reflexivity|].
  exact (proj1 (proj2 (@gc_rejection_ends_sweep _ h 10 two_expired
    (firstn 2 (trace o)) []
    (EvAws (ListTagsForResource (arn (Registry.summary old_repo)))
       (inl denied)) denied eq_refl eq_refl))).
Defined.

(** X5: whatever the registry answers, [gc] only probes the domain, asks
    for pages and tags, reads the clock, and announces and requests
    deletions: it creates nothing, associates nothing, never sleeps and
    asks for no endpoint.  Every deletion it requests is announced on the
    console, and nothing else is. *)
Theorem gc_only_sweeps :
  forall (W : Type) (host : Host W) (fuel : nat) (s : W),
    let tr := trace (gc host fuel s) in
    forallb gc_event tr = true /\
    create_requests tr = [] /\ associate_requests tr = [] /\
    sleeps tr = [] /\ endpoint_requests tr = [] /\
    announced tr = map snd (delete_requests tr).
Proof.
  intros W host fuel s tr. subst tr.
  pose proof (gc_alphabet host fuel s) as A.
  split; [exact A|].
  split; [|split; [|split; [|split]]].
  - apply (flat_map_nil_forallb (p:=gc_event)); [|exact A].
    intros [R q a| | | |]; try reflexivity. destruct q; simpl; congruence.
  - apply (flat_map_nil_forallb (p:=gc_event)); [|exact A].
    intros [R q a| | | |]; try reflexivity. destruct q; simpl; congruence.
  - apply (flat_map_nil_forallb (p:=gc_event)); [|exact A].
    intros [R q a| | | |]; try reflexivity; simpl; congruence.
  - apply (flat_map_nil_forallb (p:=gc_event)); [|exact A].
    intros [R q a| | | |]; try reflexivity. destruct q; simpl; congruence.
  - destruct (gc_cases host fuel s) as [(e & T & _)|(s1 & T & _)];
      rewrite T; [reflexivity|].
    cbv zeta. simpl. apply gc_pages_announces.
Qed.

Section Pagination.
Context {W : Type} (host : Host W).

Lemma repo_event_no_page tr :
  forallb repo_event tr = true ->
  page_requests tr = [] /\ page_tokens tr = [].
Proof.
  intros A. split.
  - apply (flat_map_nil_forallb (p:=repo_event)); [|exact A].
    intros ev H. unfold repo_event in H. apply andb_true_iff in H.
    destruct H as [_ H]. now destruct (page_requests_of ev).
  - apply (flat_map_nil_forallb (p:=repo_event)); [|exact A].
    intros [R q a| | | |] H; try reflexivity.
    destruct q; try reflexivity; discriminate H.
Qed.

Lemma gc_pages_chain fuel token s :
  let o := gc_pages host fuel token s in
  result o = Ok tt ->
  exists toks last,
    page_requests (trace o) = token :: toks /\
    page_tokens (trace o) = toks ++ [last] /\
    forallb truthy toks = true /\ truthy last = false.
Proof.
  revert token s. induction fuel as [|fuel IH]; intros token s o Res;
    subst o; [discriminate Res|].
  simpl in Res |- *.
  destruct (bind_ok_inv Res) as (page & R1 & Res1 & T1 & _).
  destruct (bind_ok_inv Res1) as ([] & R2 & Res2 & T2 & _).
  rewrite T1, T2. destruct (call_ok_inv R1) as [_ Tc]. rewrite Tc.
  destruct (repo_event_no_page
              (for_of_gc_repo_alphabet host
                 match repositories page with Some l => l | None => [] end
                 (final (call host (ListRepositories token) s))))
    as [Pr Pt].
  unfold page_requests, page_tokens in *. rewrite !flat_map_app, Pr, Pt.
  simpl. destruct (truthy (nextToken page)) eqn:Tk.
  - destruct (IH _ _ Res2) as (toks & last & E1 & E2 & E3 & E4).
    unfold page_requests, page_tokens in E1, E2. rewrite E1, E2.
    exists (nextToken page :: toks), last. simpl. rewrite Tk, E3. auto.
  - exists [], (nextToken page). simpl. auto.
Qed.
End Pagination.

(** X6: in a sweep that completes, the first page is asked for without
    token, every further page with the token the page before came back
    with, and the sweep goes on exactly as long as that token is truthy:
    an undefined token ends it, and so does an empty one.  No page at all
    is asked for when the domain is missing. *)
Theorem gc_follows_tokens :
  forall (W : Type) (host : Host W) (fuel : nat) (s : W),
    let o := gc host fuel s in
    result o = Ok tt ->
    (page_requests (trace o) = [] /\ page_tokens (trace o) = [] /\
     exists e, not_found e = true /\
       trace o = [EvAws (DescribeDomain "test-cdk") (inl e)]) \/
    (exists toks last,
       page_requests (trace o) = None :: toks /\
       page_tokens (trace o) = toks ++ [last] /\
       forallb truthy toks = true /\ truthy last = false).
Proof.
  intros W host fuel s o Res. subst o.
  destruct (gc_cases host fuel s) as [(e & T & Re)|(s1 & T & Re)];
    cbv zeta in *.
  - left. rewrite T. split; [reflexivity|]. split; [reflexivity|].
    exists e. split; [|reflexivity].
    destruct (not_found e); [reflexivity|]. rewrite Re in Res. discriminate.
  - right. rewrite Re in Res.
    destruct (gc_pages_chain Res)
      as (toks & last & E1 & E2 & E3 & E4).
    exists toks, last. rewrite T.
    unfold page_requests, page_tokens in *. rewrite !flat_map_app, E1, E2.
    simpl. auto.
Qed.

Lemma gc_follows_tokens_witness :
  let o := gc empty_token_host 1 tt in
  result o = Ok tt /\
  page_tokens (trace o) = [Some ""] /\
  ((page_requests (trace o) = [] /\ page_tokens (trace o) = [] /\
    exists e, not_found e = true /\
      trace o = [EvAws (DescribeDomain "test-cdk") (inl e)]) \/
   (exists toks last,
      page_requests (trace o) = None :: toks /\
      page_tokens (trace o) = toks ++ [last] /\
      forallb truthy toks = true /\ truthy last = false)).
Proof.
  intros o. split; [reflexivity|]. split; [reflexivity|].
  exact (@gc_follows_tokens _ empty_token_host 1 tt eq_refl).
Defined.

(** X7: in any run of [gc], also one that is cut short, every deletion
    requested is that of a listed repository whose tags were read and
    held a ["collect-by"] tag with a number below a reading of the
    clock. *)
Theorem gc_requests_justified :
  forall (W : Type) (host : Host W) (fuel : nat) (s : W)
         (dn : string * string),
    let tr := trace (gc host fuel s) in
    In dn (delete_requests tr) ->
    exists r tags t T,
      In r (listed tr) /\ dn = (domainName r, name r) /\
      In (arn r, Some tags) (examined tr) /\
      In t tags /\ key t = "collect-by" /\
      In T (readings tr) /\
      js_lt (Number host (value t)) (of_Z T) = true.
Proof.
  intros W host fuel s dn tr I.
  exact (proj1 (gc_sweep_ok host fuel s) dn I).
Qed.

Lemma gc_requests_justified_witness :
  let h := Registry.host reject_deletes 2 in
  let tr := trace (gc h 10 two_expired) in
  delete_requests tr = [("test-cdk", "test-old")] /\
  exists r tags t T,
    In r (listed tr) /\ ("test-cdk", "test-old") = (domainName r, name r) /\
    In (arn r, Some tags) (examined tr) /\
    In t tags /\ key t = "collect-by" /\
    In T (readings tr) /\
    js_lt (Number h (value t)) (of_Z T) = true.
Proof.
  intros h tr. split; [reflexivity|].
  apply (@gc_requests_justified _ h 10 two_expired ("test-cdk", "test-old")).
  left. reflexivity.
Defined.

(** X8: a repository whose tags come back undefined, or without any tag
    of key ["collect-by"], costs the sweep that one request and nothing
    else: the clock is not read, nothing is logged, nothing is
    requested. *)
Theorem gc_repo_without_collect_by :
  forall (W : Type) (host : Host W) (repo : RepositorySummary) (s s1 : W)
         (tags : option (list Tag)),
    aws host (ListTagsForResource (arn repo)) s = (inr tags, s1) ->
    (forall l, tags = Some l -> collect_keys l = []) ->
    gc_repo host repo s =
    mkOutcome (Ok tt) s1 [EvAws (ListTagsForResource (arn repo)) (inr tags)].
Proof.
  intros W host repo s s1 tags H N. unfold gc_repo.
  rewrite (bind_ok _ (call_ok H)).
  destruct tags as [l|].
  - rewrite (bind_ok _ (find_without_collect_by host _ (N l eq_refl))).
    reflexivity.
  - reflexivity.
Qed.

Lemma gc_repo_without_collect_by_witness :
  let h := Registry.host Registry.no_faults 2 in
  let repo := Registry.summary kept_repo in
  gc_repo h repo kept_state =
  mkOutcome (Ok tt) (Registry.tick kept_state)
    [EvAws (ListTagsForResource (arn repo))
       (inr (Some [mkTag "testing" "true"; mkTag "owner" "integ"]))].
Proof.
  intros h repo.
  apply (@gc_repo_without_collect_by _ h repo kept_state).
  - reflexivity.
  - intros l E. inversion E. reflexivity.
Defined.

Section ClockReadings.
Context {W : Type} (host : Host W).

Lemma find_readings l s :
  let o := find (is_collectable host) l s in
  (length (readings (trace o)) <= length (collect_keys l))%nat /\
  (result o = Ok None ->
   length (readings (trace o)) = length (collect_keys l)) /\
  (forall t, result o = Ok (Some t) ->
   (1 <= length (readings (trace o)))%nat).
Proof.
  revert s. induction l as [|t l IH]; intros s o; subst o.
  - simpl. split; [lia|]. split; [reflexivity|discriminate].
  - rewrite find_cons. unfold collect_keys. simpl filter.
    fold (collect_keys l).
    unfold bind. rewrite is_collectable_eq. unfold COLLECT_BY_TAG.
    destruct (String.eqb (key t) "collect-by"); simpl.
    + destruct (js_lt _ _); simpl.
      * split; [lia|]. split; [discriminate|]. intros; lia.
      * destruct (IH (snd (dateNow host s))) as (I1 & I2 & I3).
        split; [lia|]. split; [intros H; rewrite (I2 H); reflexivity|].
        intros; lia.
    + apply IH.
Qed.
End ClockReadings.

Section Examination.
Context {W : Type} (host : Host W).

Lemma find_tested l s :
  let o := find (is_collectable host) l s in
  let ts := clock_readings host (length (collect_keys l)) s in
  trace o = map EvNow (tested (Number host) (collect_keys l) ts) /\
  exists x, result o = Ok x /\
    found x = existsb (past (Number host)) (combine (collect_keys l) ts).
Proof.
  revert s. induction l as [|t l IH]; intros s o ts; subst o ts.
  - split; [reflexivity|]. exists None. split; reflexivity.
  - rewrite find_cons. unfold collect_keys. simpl filter.
    fold (collect_keys l). unfold bind. rewrite is_collectable_eq.
    unfold COLLECT_BY_TAG.
    destruct (String.eqb (key t) "collect-by"); cbn [result final trace].
    + cbn [length clock_readings combine existsb tested].
      change (past (Number host) (t, fst (dateNow host s)))
        with (js_lt (Number host (value t)) (of_Z (fst (dateNow host s)))).
      destruct (js_lt (Number host (value t))
                  (of_Z (fst (dateNow host s)))).
      * split; [reflexivity|]. exists (Some t). split; reflexivity.
      * destruct (IH (snd (dateNow host s))) as (T & x & R & F).
        cbn [result final trace]. rewrite T. split; [reflexivity|].
        exists x. rewrite R. split; [reflexivity|exact F].
    + apply IH.
Qed.

(** The run of the loop body on [repo], once the registry has answered
    the request for its tags with [tags]. *)
Lemma gc_repo_answered repo s s1 tags :
  aws host (ListTagsForResource (arn repo)) s = (inr tags, s1) ->
  let o := gc_repo host repo s in
  let del := DeleteRepository (domainName repo) (name repo) in
  let ts := tested (Number host) (collect_tags tags)
              (clock_readings host (length (collect_tags tags)) s1) in
  exists s2 a,
    trace o =
      EvAws (ListTagsForResource (arn repo)) (inr tags) :: map EvNow ts ++
      (if due host tags s1
       then [EvLog ["Deleting"; name repo]; EvAws del a] else []) /\
    (due host tags s1 = true ->
     fst (aws host del s2) = a /\
     result o = match a with inl e => Throw e | inr _ => Ok tt end) /\
    (due host tags s1 = false -> result o = Ok tt).
Proof.
  intros H o del ts. subst o ts del. unfold gc_repo.
  rewrite (bind_ok _ (call_ok H)). cbn [result final trace].
  destruct tags as [l|].
  - destruct (find_tested l s1) as (T & x & R & F). cbv zeta in T, F.
    rewrite bind_trace, bind_result, R, T. unfold due, collect_tags.
    rewrite <- F.
    destruct x as [t|]; cbn [found].
    + unfold bind, console_log, call. cbn [result final trace].
      match goal with |- context [aws host ?q ?st] =>
        exists st; destruct (aws host q st) as [a s3] eqn:E end.
      exists a. cbn [result final trace fst]. split; [reflexivity|].
      split; [|discriminate]. intros _. split; [reflexivity|].
      destruct a as [e|[]]; reflexivity.
    + exists s1, (inr tt). cbn [result trace]. split; [reflexivity|].
      split; [discriminate|reflexivity].
  - exists s1, (inr tt). split; [reflexivity|].
    split; [discriminate|reflexivity].
Qed.
End Examination.

(** X9: while it examines a repository, the sweep reads the clock once
    for every tag of key ["collect-by"] it comes to, in the order of the
    tags, and stops at the first one that is past its time at its own
    reading: the readings of the run are exactly those, and the deletion
    is requested exactly when such a tag was met. *)
Theorem gc_repo_reads_clock_per_tag :
  forall (W : Type) (host : Host W) (repo : RepositorySummary) (s s1 : W)
         (tags : option (list Tag)),
    aws host (ListTagsForResource (arn repo)) s = (inr tags, s1) ->
    let tr := trace (gc_repo host repo s) in
    readings tr =
      tested (Number host) (collect_tags tags)
        (clock_readings host (length (collect_tags tags)) s1) /\
    delete_requests tr =
      (if due host tags s1 then [(domainName repo, name repo)] else []).
Proof.
  intros W host repo s s1 tags H tr. subst tr.
  destruct (gc_repo_answered H) as (s2 & a & T & _). cbv zeta in T.
  rewrite T.
  set (ts := tested _ _ _).
  destruct (views_of_readings ts) as (_ & _ & D & _ & _ & Rd & _).
  unfold readings, delete_requests in *. simpl flat_map.
  rewrite !flat_map_app, Rd, D.
  destruct (due host tags s1); simpl; rewrite ?app_nil_r; split; reflexivity.
Qed.

Lemma gc_repo_reads_clock_per_tag_witness :
  let h := Registry.host Registry.no_faults 2 in
  let tr := trace (gc_repo h (Registry.summary early_tagged)
                     early_tagged_state) in
  length (collect_tags (Some (Registry.repo_tags early_tagged))) = 3%nat /\
  readings tr = [1700000000000] /\
  delete_requests tr = [("test-cdk", "test-early")].
Proof.
  intros h tr. split; [reflexivity|].
  exact (@gc_repo_reads_clock_per_tag _ h (Registry.summary early_tagged)
           early_tagged_state _ _ eq_refl).
Defined.

(** ** More on provisioning *)

Section ProvisioningMore.
Context {W : Type} (host : Host W).

Lemma elem_tail x y l : elem x l = true -> elem x (y :: l) = true.
Proof. intros H. unfold elem in *. simpl. rewrite H. apply orb_true_r. Qed.

Lemma elem_head x l : elem x (x :: l) = true.
Proof. unfold elem. simpl. now rewrite String.eqb_refl. Qed.

Lemma domainExists_alphabet name s :
  forallb (prepare_event name) (trace (domainExists host s)) = true.
Proof.
  unfold domainExists. apply alphabet_try_catch.
  - apply alphabet_bind; [apply alphabet_call; reflexivity|reflexivity].
  - intros e s'. destruct (negb _); reflexivity.
Qed.

Lemma ensureDomain_alphabet name s :
  forallb (prepare_event name) (trace (ensureDomain host s)) = true.
Proof.
  unfold ensureDomain. apply alphabet_bind; [apply domainExists_alphabet|].
  intros [] s'; [reflexivity|apply alphabet_call; reflexivity].
Qed.

Lemma ensureRepository_alphabet name n options s :
  elem n (name :: map fst upstream_connections) = true ->
  (forall ext, optional opt_external options = Some ext ->
     elem2 n ext upstream_connections = true) ->
  forallb (prepare_event name) (trace (ensureRepository host n options s))
  = true.
Proof.
  intros Hn Hext. unfold ensureRepository. apply alphabet_bind.
  - unfold repositoryExists. apply alphabet_try_catch.
    + apply alphabet_bind; [|reflexivity]. apply alphabet_call.
      intros a. unfold prepare_event. rewrite Hn. reflexivity.
    + intros e s'. destruct (negb _); reflexivity.
  - intros [] s1; [reflexivity|]. apply alphabet_bind.
    + apply alphabet_call. intros a. unfold prepare_event. rewrite Hn.
      reflexivity.
    + intros _ s2. destruct (truthy _); [|reflexivity].
      destruct (optional opt_external options) as [ext|] eqn:E;
        [|reflexivity].
      unfold retry. apply alphabet_retry_loop; try reflexivity.
      intros s3. apply alphabet_call. intros a. unfold prepare_event.
      rewrite (Hext ext eq_refl). reflexivity.
Qed.

Lemma ensureUpstreams_alphabet name s :
  forallb (prepare_event name) (trace (ensureUpstreams host s)) = true.
Proof.
  unfold ensureUpstreams.
  repeat (apply alphabet_bind; [|intros _ ?]);
    (apply ensureRepository_alphabet;
     [apply elem_tail; reflexivity
     |intros ext E; simpl in E; inversion E; reflexivity]).
Qed.

Lemma prepare_alphabet name s :
  forallb (prepare_event name) (trace (prepare host name s)) = true.
Proof.
  unfold prepare.
  apply alphabet_bind; [apply ensureDomain_alphabet|intros _ s1].
  apply alphabet_bind; [apply ensureUpstreams_alphabet|intros _ s2].
  apply alphabet_bind; [apply alphabet_date_now; reflexivity|intros now s3].
  apply ensureRepository_alphabet; [apply elem_head|].
  intros ext E. discriminate E.
Qed.

(** The budget of a run. *)

Lemma within_bind {A B} (m : M W A) (k : A -> M W B) s a b c d a' b' c' d' :
  within a b c d (trace (m s)) ->
  (forall x s', within a' b' c' d' (trace (k x s'))) ->
  within (a + a') (b + b') (c + c') (d + d') (trace (bind m k s)).
Proof.
  intros (H1 & H2 & H3 & H4) Hk. rewrite bind_trace.
  unfold within, sleeps, associate_requests, readings, create_requests in *.
  rewrite !flat_map_app, !length_app.
  destruct (result (m s)) as [x| |].
  - destruct (Hk x (final (m s))) as (K1 & K2 & K3 & K4).
    repeat split; lia.
  - simpl. repeat split; lia.
  - simpl. repeat split; lia.
Qed.

Lemma within_failed_attempts n ext fails :
  let tr := failed_attempts (AssociateExternalConnection domain n ext) fails in
  length (sleeps tr) = length fails /\
  length (associate_requests tr) = length fails /\
  readings tr = [] /\ create_requests tr = [].
Proof.
  induction fails as [|e fails (I1 & I2 & I3 & I4)]; [repeat split|].
  unfold failed_attempts, sleeps, associate_requests, readings,
    create_requests in *.
  simpl. rewrite I1, I2, I3, I4. repeat split.
Qed.

Lemma within_retry_run n ext tr (res : Result unit) :
  retry_run 3 (AssociateExternalConnection domain n ext) tr res ->
  within 3 4 0 0 tr.
Proof.
  intros (fails & Lf & [(r & T & _)|(e & _ & T & _)]); rewrite T;
    destruct (within_failed_attempts n ext fails) as (I1 & I2 & I3 & I4);
    unfold within, sleeps, associate_requests, readings, create_requests in *;
    rewrite !flat_map_app, !length_app, I1, I2, I3, I4; simpl;
    repeat split; lia.
Qed.

Lemma ensureDomain_within s : within 0 0 0 0 (trace (ensureDomain host s)).
Proof.
  destruct (ensureDomain_cases host s)
    as [(R & T)|[(e & N & R & T)|(e & a & N & R & T)]]; rewrite T;
    repeat split; simpl; lia.
Qed.

Lemma ensureRepository_within n options s :
  within 3 4 0 1 (trace (ensureRepository host n options s)).
Proof.
  destruct (ensureRepository_cases host n options s)
    as [(R & T)|[(e & N & R & T)|[(e0 & e & N & R & T)|
        [(e0 & N & X & R & T)|(e0 & ext & tr & N & X & T & Rr)]]]];
    rewrite T; try (repeat split; simpl; lia).
  destruct (within_retry_run Rr) as (I1 & I2 & I3 & I4).
  unfold within, sleeps, associate_requests, readings, create_requests in *.
  rewrite !flat_map_app, !length_app. simpl. repeat split; lia.
Qed.

Lemma ensureRepository_sandbox_within n d u t s :
  within 0 0 0 1
    (trace (ensureRepository host n (Some (mkOptions d None u t)) s)).
Proof.
  destruct (ensureRepository_cases host n (Some (mkOptions d None u t)) s)
    as [(R & T)|[(e & N & R & T)|[(e0 & e & N & R & T)|
        [(e0 & N & X & R & T)|(e0 & ext & tr & N & X & T & Rr)]]]];
    try discriminate X; rewrite T; repeat split; simpl; lia.
Qed.

Lemma ensureUpstreams_within s :
  within 12 16 0 4 (trace (ensureUpstreams host s)).
Proof.
  unfold ensureUpstreams.
  apply (@within_bind _ _ _ _ s 3 4 0 1 9 12 0 3);
    [apply ensureRepository_within|intros _ s1].
  apply (@within_bind _ _ _ _ s1 3 4 0 1 6 8 0 2);
    [apply ensureRepository_within|intros _ s2].
  apply (@within_bind _ _ _ _ s2 3 4 0 1 3 4 0 1);
    [apply ensureRepository_within|intros _ s3].
  apply ensureRepository_within.
Qed.

Lemma prepare_within name s :
  within 12 16 1 5 (trace (prepare host name s)).
Proof.
  unfold prepare.
  apply (@within_bind _ _ _ _ s 0 0 0 0 12 16 1 5);
    [apply ensureDomain_within|intros _ s1].
  apply (@within_bind _ _ _ _ s1 12 16 0 4 0 0 1 1);
    [apply ensureUpstreams_within|intros _ s2].
  apply (@within_bind _ _ _ _ s2 0 0 1 0 0 0 0 1).
  - rewrite date_now_eq. repeat split; simpl; lia.
  - intros now s3. apply ensureRepository_sandbox_within.
Qed.

Lemma sleeps_of_alphabet name tr :
  forallb (prepare_event name) tr = true -> Forall (eq 500) (sleeps tr).
Proof.
  induction tr as [|ev tr IH]; simpl; [constructor|].
  intros H. apply andb_true_iff in H. destruct H as [H1 H2].
  apply Forall_app. split; [|apply IH, H2].
  destruct ev; simpl; try constructor; [|constructor].
  simpl in H1. apply Z.eqb_eq in H1. now subst.
Qed.

Lemma total_sleeps l :
  Forall (eq 500) l -> total l = 500 * Z.of_nat (length l).
Proof.
  induction 1 as [|x l Hx Hl IH]; [reflexivity|].
  unfold total in *. simpl fold_right. rewrite IH. subst x.
  simpl length. lia.
Qed.

(** Creations answer probes. *)

Lemma creations_closed :
  closed (fun tr => create_requests tr = missing tr).
Proof.
  split; [reflexivity|]. intros a b Ha Hb.
  unfold create_requests, missing in *. now rewrite !flat_map_app, Ha, Hb.
Qed.

Lemma ensureRepository_creations n options s :
  let tr := trace (ensureRepository host n options s) in
  create_requests tr = missing tr.
Proof.
  intros tr. subst tr.
  destruct (ensureRepository_cases host n options s)
    as [(R & T)|[(e & N & R & T)|[(e0 & e & N & R & T)|
        [(e0 & N & X & R & T)|(e0 & ext & tr & N & X & T & Rr)]]]];
    rewrite T.
  - reflexivity.
  - unfold create_requests, missing. simpl.
    change (String.eqb (code e) ResourceNotFoundException)
      with (not_found e). now rewrite N.
  - unfold create_requests, missing. simpl flat_map at 1.
    simpl. change (String.eqb (code e0) ResourceNotFoundException)
      with (not_found e0). now rewrite N.
  - unfold create_requests, missing. simpl.
    change (String.eqb (code e0) ResourceNotFoundException)
      with (not_found e0). now rewrite N.
  - assert (Q : create_requests tr = [] /\ missing tr = []).
    { destruct Rr as (fails & _ & [(r & Tr & _)|(e & _ & Tr & _)]);
        rewrite Tr; destruct (quiet_failed_attempts n ext fails) as [Q1 Q2];
        unfold create_requests, missing in *;
        rewrite !flat_map_app, ?Q1, ?Q2; split; reflexivity. }
    destruct Q as [Q1 Q2].
    unfold create_requests, missing in *. rewrite !flat_map_app, Q1, Q2.
    simpl. change (String.eqb (code e0) ResourceNotFoundException)
      with (not_found e0). now rewrite N.
Qed.

Lemma prepare_creations name s :
  let tr := trace (prepare host name s) in
  create_requests tr = missing tr.
Proof.
  intros tr. subst tr. unfold prepare, ensureUpstreams.
  apply (closed_bind creations_closed).
  { destruct (ensureDomain_cases host s)
      as [(R & T)|[(e & N & R & T)|(e & [e'|[]] & N & R & T)]]; rewrite T;
      reflexivity. }
  intros _ s1. apply (closed_bind creations_closed).
  { repeat (apply (closed_bind creations_closed);
              [apply ensureRepository_creations|intros _ ?]).
    apply ensureRepository_creations. }
  intros _ s2. apply (closed_bind creations_closed).
  { rewrite date_now_eq. reflexivity. }
  intros now s3. apply ensureRepository_creations.
Qed.
End ProvisioningMore.

(** X10: whatever the registry answers, [prepare] probes and creates
    only the shared domain, the four upstreams and the sandbox it was
    given, associates an upstream only with its own public source, sleeps
    only 500 ms at a time, and logs nothing but the failures of [retry]:
    it deletes nothing, lists nothing, reads no tag and asks for no token
    or endpoint. *)
Theorem prepare_only_provisions :
  forall (W : Type) (host : Host W) (repositoryName : string) (s : W),
    let tr := trace (prepare host repositoryName s) in
    forallb (prepare_event repositoryName) tr = true /\
    delete_requests tr = [] /\ page_requests tr = [] /\
    tag_requests tr = [] /\ endpoint_requests tr = [] /\
    Forall (fun p => In p upstream_connections) (associate_requests tr).
Proof.
  intros W host name s tr. subst tr.
  pose proof (prepare_alphabet host name s) as A.
  split; [exact A|].
  split; [|split; [|split; [|split]]].
  - apply (flat_map_nil_forallb (p:=prepare_event name)); [|exact A].
    intros [R q a| | | |]; try reflexivity. destruct q; simpl; congruence.
  - apply (flat_map_nil_forallb (p:=prepare_event name)); [|exact A].
    intros [R q a| | | |]; try reflexivity. destruct q; simpl; congruence.
  - apply (flat_map_nil_forallb (p:=prepare_event name)); [|exact A].
    intros [R q a| | | |]; try reflexivity. destruct q; simpl; congruence.
  - apply (flat_map_nil_forallb (p:=prepare_event name)); [|exact A].
    intros [R q a| | | |]; try reflexivity. destruct q; simpl; congruence.
  - revert A. generalize (trace (prepare host name s)).
    induction l as [|ev l IH]; simpl; [constructor|].
    intros H. apply andb_true_iff in H. destruct H as [H1 H2].
    unfold associate_requests in *. apply Forall_app.
    split; [|apply IH, H2].
    destruct ev as [R q a| | | |]; try constructor.
    destruct q; try constructor; [|constructor].
    unfold prepare_event in H1. apply andb_true_iff in H1.
    destruct H1 as [_ H1]. unfold elem2 in H1. apply existsb_exists in H1.
    destruct H1 as ([x y] & I & E). apply andb_true_iff in E.
    destruct E as [E1 E2]. apply String.eqb_eq in E1, E2.
    simpl in E1, E2. subst. exact I.
Qed.

(** X11: a run of [prepare], whatever its end, sleeps at most twelve
    times, 500 ms each time and hence 6 seconds at most, requests at
    most sixteen associations and five creations of a repository, and
    reads the clock at most once. *)
Theorem prepare_budget :
  forall (W : Type) (host : Host W) (repositoryName : string) (s : W),
    let tr := trace (prepare host repositoryName s) in
    (length (sleeps tr) <= 12)%nat /\
    Forall (eq 500) (sleeps tr) /\
    total (sleeps tr) <= 6000 /\
    (length (associate_requests tr) <= 16)%nat /\
    (length (create_requests tr) <= 5)%nat /\
    (length (readings tr) <= 1)%nat.
Proof.
  intros W host name s tr. subst tr.
  destruct (prepare_within host name s) as (H1 & H2 & H3 & H4).
  pose proof (sleeps_of_alphabet (prepare_alphabet host name s)) as F.
  split; [exact H1|]. split; [exact F|].
  split; [rewrite (total_sleeps F); lia|]. auto.
Qed.

(** X12: in a run of [prepare], whatever its end, the repositories whose
    creation is requested are, in this order, those that a probe reported
    missing. *)
Theorem prepare_creates_what_is_missing :
  forall (W : Type) (host : Host W) (repositoryName : string) (s : W),
    let tr := trace (prepare host repositoryName s) in
    create_requests tr = missing tr.
Proof. intros W host name s. apply prepare_creations. Qed.

(** ** More on login information *)

Section LoginMore.
Context {W : Type} (host : Host W).

Lemma orderly_call {R} (q : Request R) s : orderly (call host q s).
Proof.
  unfold orderly, call. destruct (aws host q s) as [[e|r] s']; simpl.
  - exists [], (EvAws q (inl e)). repeat split.
  - reflexivity.
Qed.

Lemma orderly_thrown {A} (o : Outcome W A) e :
  orderly o -> result o = Throw e ->
  exists pre ev, trace o = pre ++ [ev] /\ rejection_of ev = Some e.
Proof.
  unfold orderly. intros H R. rewrite R in H.
  destruct H as (pre & ev & T & _ & Rj). eauto.
Qed.

Lemma loginInformation_orderly name s :
  orderly (loginInformation host name s).
Proof.
  unfold loginInformation.
  repeat (apply orderly_bind; [apply orderly_call|intros ?]).
  reflexivity.
Qed.

Lemma loginInformation_alphabet name s :
  forallb (login_event name) (trace (loginInformation host name s)) = true.
Proof.
  unfold loginInformation.
  repeat (apply alphabet_bind;
          [apply alphabet_call; intro; unfold login_event;
           rewrite ?String.eqb_refl; reflexivity
          |intros ? ?]).
  reflexivity.
Qed.

Lemma bind_length {A B} (m : M W A) (k : A -> M W B) s a b :
  (length (trace (m s)) <= a)%nat ->
  (forall x s', length (trace (k x s')) <= b)%nat ->
  (length (trace (bind m k s)) <= a + b)%nat.
Proof.
  intros Hm Hk. rewrite bind_trace, length_app.
  destruct (result (m s)) as [x| |]; [specialize (Hk x (final (m s)))|..];
    simpl; lia.
Qed.

Lemma call_length {R} (q : Request R) s :
  (length (trace (call host q s)) <= 1)%nat.
Proof. unfold call. destruct (aws host q s). simpl. lia. Qed.

Lemma loginInformation_length name s :
  (length (trace (loginInformation host name s)) <= 5)%nat.
Proof.
  unfold loginInformation.
  apply (@bind_length _ _ _ _ s 1 4); [apply call_length|intros ? s1].
  apply (@bind_length _ _ _ _ s1 1 3); [apply call_length|intros ? s2].
  apply (@bind_length _ _ _ _ s2 1 2); [apply call_length|intros ? s3].
  apply (@bind_length _ _ _ _ s3 1 1); [apply call_length|intros ? s4].
  apply (@bind_length _ _ _ _ s4 1 0); [apply call_length|intros ? s5].
  simpl. lia.
Qed.

End LoginMore.

(** X13: when [loginInformation] succeeds, its run is the token request
    followed by the lookups of the npm, maven, nuget and pypi endpoints
    of the sandbox, in this order and all resolved, and the bundle it
    returns holds the name of the sandbox and each answer in the field of
    its format. *)
Theorem loginInformation_bundle :
  forall (W : Type) (host : Host W) (repositoryName : string) (s : W)
         (li : LoginInformation),
    let o := loginInformation host repositoryName s in
    result o = Ok li ->
    login_repositoryName li = repositoryName /\
    trace o =
    [EvAws (GetAuthorizationToken "test-cdk" 43200) (inr (authToken li));
     EvAws (GetRepositoryEndpoint "test-cdk" repositoryName "npm")
       (inr (npmEndpoint li));
     EvAws (GetRepositoryEndpoint "test-cdk" repositoryName "maven")
       (inr (mavenEndpoint li));
     EvAws (GetRepositoryEndpoint "test-cdk" repositoryName "nuget")
       (inr (nugetEndpoint li));
     EvAws (GetRepositoryEndpoint "test-cdk" repositoryName "pypi")
       (inr (pypiEndpoint li))].
Proof.
  intros W host name s li o Res. subst o. unfold loginInformation in *.
  destruct (bind_ok_inv Res) as (tok & R1 & Res1 & T1 & _).
  destruct (bind_ok_inv Res1) as (npm & R2 & Res2 & T2 & _).
  destruct (bind_ok_inv Res2) as (maven & R3 & Res3 & T3 & _).
  destruct (bind_ok_inv Res3) as (nuget & R4 & Res4 & T4 & _).
  destruct (bind_ok_inv Res4) as (pypi & R5 & Res5 & T5 & _).
  rewrite T1, T2, T3, T4, T5.
  rewrite (proj2 (call_ok_inv R1)), (proj2 (call_ok_inv R2)),
    (proj2 (call_ok_inv R3)), (proj2 (call_ok_inv R4)),
    (proj2 (call_ok_inv R5)).
  simpl in Res5. inversion Res5. split; reflexivity.
Qed.

Lemma loginInformation_bundle_witness :
  let h := Registry.host Registry.no_faults 2 in
  let li :=
    mkLogin "token-for-test-cdk" "test-abc"
      "https://test-cdk.example/npm/test-abc/"
      "https://test-cdk.example/maven/test-abc/"
      "https://test-cdk.example/nuget/test-abc/"
      "https://test-cdk.example/pypi/test-abc/" in
  let o := loginInformation h "test-abc" provisioned in
  result o = Ok li /\
  login_repositoryName li = "test-abc" /\
  trace o =
    [EvAws (GetAuthorizationToken "test-cdk" 43200) (inr (authToken li));
     EvAws (GetRepositoryEndpoint "test-cdk" "test-abc" "npm")
       (inr (npmEndpoint li));
     EvAws (GetRepositoryEndpoint "test-cdk" "test-abc" "maven")
       (inr (mavenEndpoint li));
     EvAws (GetRepositoryEndpoint "test-cdk" "test-abc" "nuget")
       (inr (nugetEndpoint li));
     EvAws (GetRepositoryEndpoint "test-cdk" "test-abc" "pypi")
       (inr (pypiEndpoint li))].
Proof.
  intros h li o.
  assert (R : result o = Ok li) by (vm_compute; reflexivity).
  split; [exact R|].
  exact (@loginInformation_bundle _ h "test-abc" provisioned li R).
Defined.

(** X14: whatever the registry answers, [loginInformation] sends at most
    five requests, each one the token request for twelve hours or the
    lookup of an endpoint of the sandbox, and nothing else happens: it
    creates and deletes nothing.  A rejected request is the last of the
    run and its error is thrown; and nothing is thrown but the error of a
    rejected request. *)
Theorem loginInformation_only_asks :
  forall (W : Type) (host : Host W) (repositoryName : string) (s : W),
    let o := loginInformation host repositoryName s in
    forallb (login_event repositoryName) (trace o) = true /\
    (length (trace o) <= 5)%nat /\
    create_requests (trace o) = [] /\ delete_requests (trace o) = [] /\
    (forall pre ev post e,
       trace o = pre ++ ev :: post -> rejection_of ev = Some e ->
       post = [] /\ result o = Throw e) /\
    (forall e, result o = Throw e ->
       exists pre ev, trace o = pre ++ [ev] /\ rejection_of ev = Some e).
Proof.
  intros W host name s o. subst o.
  pose proof (loginInformation_alphabet host name s) as A.
  split; [exact A|]. split; [apply loginInformation_length|].
  split; [|split; [|split]].
  - apply (flat_map_nil_forallb (p:=login_event name)); [|exact A].
    intros [R q a| | | |]; try reflexivity. destruct q; simpl; congruence.
  - apply (flat_map_nil_forallb (p:=login_event name)); [|exact A].
    intros [R q a| | | |]; try reflexivity. destruct q; simpl; congruence.
  - intros pre ev post e T Rj.
    exact (orderly_rejection (loginInformation_orderly host name s) T Rj).
  - intros e R.
    exact (orderly_thrown (loginInformation_orderly host name s) R).
Qed.

Lemma loginInformation_only_asks_witness :
  let h := Registry.host Registry.no_faults 2 in
  let o := loginInformation h "test-abc" domain_only in
  trace o =
    [EvAws (GetAuthorizationToken "test-cdk" 43200)
       (inr "token-for-test-cdk");
     EvAws (GetRepositoryEndpoint "test-cdk" "test-abc" "npm")
       (inl Registry.notFound)] /\
  result o = Throw Registry.notFound.
Proof.
  intros h o. split; [reflexivity|].
  exact (proj2
    (proj1 (proj2 (proj2 (proj2 (proj2
       (@loginInformation_only_asks _ h "test-abc" domain_only)))))
       [EvAws (GetAuthorizationToken "test-cdk" 43200)
          (inr "token-for-test-cdk")]
       (EvAws (GetRepositoryEndpoint "test-cdk" "test-abc" "npm")
          (inl Registry.notFound))
       [] Registry.notFound eq_refl eq_refl)).
Defined.

(** ** More on deleting a sandbox *)

(** X15: [delete] sends exactly one request, the deletion of the
    sandbox in the shared domain, and logs ["Deleted"] with the name of
    the sandbox exactly when the registry accepted it: a rejection, also
    the absorbed "resource not found", is not logged. *)
Theorem delete_logs_when_deleted :
  forall (W : Type) (host : Host W) (repositoryName : string) (s : W),
    let request := DeleteRepository "test-cdk" repositoryName in
    let o := delete host repositoryName s in
    trace o =
      EvAws request (fst (aws host request s)) ::
      match fst (aws host request s) with
      | inr _ => [EvLog ["Deleted"; repositoryName]]
      | inl _ => []
      end /\
    final o =
      match fst (aws host request s) with
      | inr _ =>
          consoleLog host ["Deleted"; repositoryName]
            (snd (aws host request s))
      | inl _ => snd (aws host request s)
      end.
Proof.
  intros W host name s request o. subst o request.
  unfold delete, try_catch, bind, call, console_log.
  change domain with "test-cdk".
  destruct (aws host (DeleteRepository "test-cdk" name) s) as [[e|[]] s1];
    simpl; [|split; reflexivity].
  destruct (negb _); split; reflexivity.
Qed.

(** ** More on ensuring a repository *)

(** X16: when the options name no external connection, or an empty one,
    [ensureRepository] neither associates nor retries: its run is at most
    the probe and the creation, without sleep or log, and it always
    returns or throws. *)
Theorem ensureRepository_without_connection :
  forall (W : Type) (host : Host W) (n : string)
         (options : option RepositoryOptions) (s : W),
    truthy (optional opt_external options) = false ->
    let o := ensureRepository host n options s in
    associate_requests (trace o) = [] /\ sleeps (trace o) = [] /\
    (length (trace o) <= 2)%nat /\
    forallb (fun ev => match ev with EvAws _ _ => true | _ => false end)
      (trace o) = true /\
    result o <> OutOfFuel.
Proof.
  intros W host n options s H o. subst o. unfold ensureRepository.
  destruct (aws host (DescribeRepository domain n) s) as [[e|[]] s1] eqn:P.
  - destruct (not_found e) eqn:N.
    + rewrite (bind_ok _ (repositoryExists_missing P N)). rewrite H.
      simpl.
      match goal with |- context [call host ?q] =>
        destruct (aws host q s1) as [[e'|[]] s2] eqn:C;
        [rewrite (bind_throw _ (call_throw C))
        |rewrite (bind_ok _ (call_ok C))]
      end; simpl; repeat split; try lia; discriminate.
    + rewrite (bind_throw _ (repositoryExists_throws P N)). simpl.
      repeat split; try lia; discriminate.
  - rewrite (bind_ok _ (repositoryExists_found P)). simpl.
    repeat split; try lia; discriminate.
Qed.

Lemma ensureRepository_without_connection_witness :
  let h := Registry.host Registry.no_faults 2 in
  let o := ensureRepository h "plain" (Some empty_connection) domain_only in
  create_requests (trace o) = ["plain"] /\
  associate_requests (trace o) = [] /\ sleeps (trace o) = [] /\
  (length (trace o) <= 2)%nat /\
  forallb (fun ev => match ev with EvAws _ _ => true | _ => false end)
    (trace o) = true /\
  result o <> OutOfFuel.
Proof.
  intros h o. split; [reflexivity|].
  exact (@ensureRepository_without_connection _ h "plain"
           (Some empty_connection) domain_only eq_refl).
Defined.

(** ** The lifetime of a sandbox *)

Lemma js_lt_of_Z a b : js_lt (of_Z a) (of_Z b) = (a <? b).
Proof.
  unfold js_lt, of_Z, Qltb, Qle_bool, inject_Z. simpl.
  rewrite !Z.mul_1_r. symmetry. apply Z.ltb_antisym.
Qed.

Section Lifetime.
Context {W : Type} (host : Host W).

Lemma untagged_closed :
  closed (fun tr => forall n l, ~ In (n, Some l) (created_tags tr)).
Proof.
  split; [intros n l []|]. intros a b Ha Hb n l I.
  unfold created_tags in *. rewrite flat_map_app in I.
  apply in_app_or in I. destruct I as [I|I]; [exact (Ha n l I)|exact (Hb n l I)].
Qed.

Lemma created_tags_failed_attempts n ext fails :
  created_tags
    (failed_attempts (AssociateExternalConnection domain n ext) fails) = [].
Proof.
  induction fails as [|e fails IH]; [reflexivity|].
  unfold failed_attempts, created_tags in *. simpl. exact IH.
Qed.

Lemma created_tags_retry_run n ext tr (res : Result unit) :
  retry_run 3 (AssociateExternalConnection domain n ext) tr res ->
  created_tags tr = [].
Proof.
  intros (fails & _ & [(r & T & _)|(e & _ & T & _)]); rewrite T;
    pose proof (created_tags_failed_attempts n ext fails) as Q;
    unfold created_tags in *; rewrite flat_map_app, Q; reflexivity.
Qed.

(** What a run of [ensureRepository] creates, with the tags. *)
Lemma ensureRepository_created_tags n options s :
  let tr := trace (ensureRepository host n options s) in
  created_tags tr = [] \/
  created_tags tr =
    [(n, option_map (map (fun kv => mkTag (fst kv) (snd kv)))
           (optional opt_tags options))].
Proof.
  intros tr. subst tr.
  destruct (ensureRepository_cases host n options s)
    as [(R & T)|[(e & N & R & T)|[(e0 & e & N & R & T)|
        [(e0 & N & X & R & T)|(e0 & ext & tr & N & X & T & Rr)]]]];
    rewrite T; try (left; reflexivity); right; [reflexivity|].
  unfold created_tags in *. rewrite flat_map_app.
  pose proof (created_tags_retry_run Rr) as Q. unfold created_tags in Q.
  rewrite Q. reflexivity.
Qed.

Lemma ensureDomain_untagged s n l :
  ~ In (n, Some l) (created_tags (trace (ensureDomain host s))).
Proof.
  destruct (ensureDomain_cases host s)
    as [(R & T)|[(e & N & R & T)|(e & [e'|[]] & N & R & T)]]; rewrite T;
    intros [].
Qed.

Lemma ensureUpstreams_untagged s n l :
  ~ In (n, Some l) (created_tags (trace (ensureUpstreams host s))).
Proof.
  revert n l. unfold ensureUpstreams.
  repeat (apply (closed_bind untagged_closed); [|intros _ ?]);
    (intros n l;
     match goal with |- context [ensureRepository host ?m ?o ?st] =>
       destruct (ensureRepository_created_tags m o st) as [E|E]
     end; rewrite E; simpl; [tauto|intros [C|[]]; discriminate C]).
Qed.

Lemma nil_of_length {A} (l : list A) : (length l <= 0)%nat -> l = [].
Proof. destruct l; simpl; [reflexivity|lia]. Qed.

(** The tags of the sandbox, and the one reading of the clock they are
    computed from. *)
Lemma prepare_tags name s n l :
  let tr := trace (prepare host name s) in
  In (n, Some l) (created_tags tr) ->
  exists now,
    readings tr = [now] /\ n = name /\
    l = [mkTag "collect-by" (string_of_Z (now + 86400000))].
Proof.
  intros tr I. subst tr. unfold prepare in *.
  rewrite bind_trace in I |- *.
  pose proof (@ensureDomain_untagged s n l) as U1.
  pose proof (nil_of_length
                (proj1 (proj2 (proj2 (ensureDomain_within host s))))) as R1.
  unfold created_tags, readings in *.
  rewrite flat_map_app in I |- *. rewrite R1.
  apply in_app_or in I. destruct I as [I|I]; [elim (U1 I)|].
  destruct (result (ensureDomain host s)) as [[]| |]; [|elim I..].
  set (s1 := final (ensureDomain host s)) in *.
  rewrite bind_trace in I |- *.
  pose proof (@ensureUpstreams_untagged s1 n l) as U2.
  pose proof (nil_of_length
                (proj1 (proj2 (proj2 (ensureUpstreams_within host s1)))))
    as R2.
  unfold created_tags, readings in *.
  rewrite flat_map_app in I |- *. rewrite R2.
  apply in_app_or in I. destruct I as [I|I]; [elim (U2 I)|].
  destruct (result (ensureUpstreams host s1)) as [[]| |]; [|elim I..].
  set (s2 := final (ensureUpstreams host s1)) in *.
  rewrite bind_trace, date_now_eq in I |- *. simpl in I |- *.
  set (now := fst (dateNow host s2)) in *.
  set (s3 := snd (dateNow host s2)) in *.
  match type of I with context [ensureRepository host name ?o s3] =>
    pose proof (nil_of_length
      (proj1 (proj2 (proj2
         (ensureRepository_sandbox_within host name
            (Some "Testing repository")
            (Some [npmUpstream; pypiUpstream; nugetUpstream; mavenUpstream])
            (Some [(COLLECT_BY_TAG, string_of_Z (now + REPO_LIFETIME_MS))])
            s3))))) as R3;
    destruct (ensureRepository_created_tags name o s3) as [E|E]
  end; unfold created_tags, readings in *; rewrite E in I; simpl in I.
  - elim I.
  - destruct I as [I|[]]. rewrite R3. inversion I. exists now.
    repeat split.
Qed.

(** When the tags read hold a single ["collect-by"] tag, the repository
    is requested for deletion exactly when the number of its value is
    below the clock. *)
Lemma gc_repo_single_tag repo s s1 v :
  aws host (ListTagsForResource (arn repo)) s =
    (inr (Some [mkTag "collect-by" v]), s1) ->
  delete_requests (trace (gc_repo host repo s)) =
  if js_lt (Number host v) (of_Z (fst (dateNow host s1)))
  then [(domainName repo, name repo)] else [].
Proof.
  intros H. unfold gc_repo. rewrite (bind_ok _ (call_ok H)).
  cbv beta iota. unfold trace at 1.
  set (t := mkTag "collect-by" v).
  set (b := js_lt (Number host v) (of_Z (fst (dateNow host s1)))).
  assert (F : find (is_collectable host) [t] s1 =
              mkOutcome (Ok (if b then Some t else None))
                (snd (dateNow host s1)) [EvNow (fst (dateNow host s1))]).
  { rewrite find_cons. unfold bind. rewrite is_collectable_eq. simpl.
    fold b. destruct b; reflexivity. }
  rewrite (bind_ok _ F). unfold trace at 1.
  destruct b; [|reflexivity].
  unfold bind, console_log, call. simpl.
  match goal with |- context [aws host ?q ?st] =>
    destruct (aws host q st) end; reflexivity.
Qed.
End Lifetime.

(** X17: the tags that [prepare] gives to a repository it creates are
    the single tag ["collect-by"] with the decimal value of the clock, as
    read by that run, plus 24 hours; and when the sweep is given these
    tags for a repository, and the number of that decimal is the integer
    it stands for, it requests the deletion of the repository exactly
    when more than 24 hours separate the reading of [prepare] from the
    reading of the sweep. *)
Theorem sandbox_lifetime :
  forall (W : Type) (host : Host W) (repositoryName n : string) (s : W)
         (l : list Tag) (now : Z) (repo : RepositorySummary) (s' s1 : W),
    let o := prepare host repositoryName s in
    In (n, Some l) (created_tags (trace o)) ->
    In now (readings (trace o)) ->
    Number host (string_of_Z (now + 86400000)) = of_Z (now + 86400000) ->
    aws host (ListTagsForResource (arn repo)) s' = (inr (Some l), s1) ->
    n = repositoryName /\
    l = [mkTag "collect-by" (string_of_Z (now + 86400000))] /\
    delete_requests (trace (gc_repo host repo s')) =
    if now + 86400000 <? fst (dateNow host s1)
    then [(domainName repo, name repo)] else [].
Proof.
  intros W host name n s l now repo s' s1 o I Rd Num H. subst o.
  destruct (prepare_tags I) as (now' & E & -> & ->).
  rewrite E in Rd. destruct Rd as [<-|[]].
  split; [reflexivity|]. split; [reflexivity|].
  rewrite (gc_repo_single_tag H), Num, js_lt_of_Z. reflexivity.
Qed.

Lemma sandbox_lifetime_witness :
  let h := Registry.host Registry.no_faults 2 in
  let repo :=
    mkSummary "test-abc" "test-cdk" (Registry.arn_of "test-cdk" "test-abc") in
  let later ms := sleepFor h ms provisioned in
  delete_requests (trace (gc_repo h repo (later (25 * 3600 * 1000)))) =
    [("test-cdk", "test-abc")] /\
  delete_requests (trace (gc_repo h repo (later (1 * 3600 * 1000)))) = [].
Proof.
  intros h repo later.
  assert (I : In ("test-abc", Some [mkTag "collect-by" "1700086400000"])
                (created_tags
                   (trace (prepare h "test-abc"
                             (Registry.empty 1700000000000)))))
    by (vm_compute; repeat first [left; reflexivity | right]).
  assert (Rd : In 1700000000000
                 (readings
                    (trace (prepare h "test-abc"
                              (Registry.empty 1700000000000)))))
    by (vm_compute; repeat first [left; reflexivity | right]).
  split.
  - exact (proj2 (proj2
      (@sandbox_lifetime _ h "test-abc" "test-abc"
         (Registry.empty 1700000000000) _ 1700000000000 repo
         (later (25 * 3600 * 1000)) _ I Rd eq_refl eq_refl))).
  - exact (proj2 (proj2
      (@sandbox_lifetime _ h "test-abc" "test-abc"
         (Registry.empty 1700000000000) _ 1700000000000 repo
         (later (1 * 3600 * 1000)) _ I Rd eq_refl eq_refl))).
Defined.

(** ** The order of the sweep *)

Section SweepOrder.
Context {W : Type} (host : Host W).

Lemma gc_repo_tag_requests repo s :
  tag_requests (trace (gc_repo host repo s)) = [arn repo].
Proof.
  destruct (gc_repo_cases host repo s)
    as [(e & _ & T)|[(tags & ts & _ & T & _)|
        (tags & ts & a & t & T0 & _ & T & _)]]; rewrite T.
  - reflexivity.
  - destruct (views_of_readings ts) as (_ & _ & _ & _ & Q & _).
    unfold tag_requests in *. simpl. now rewrite Q.
  - destruct (views_of_readings ts) as (_ & _ & _ & _ & Q & _).
    unfold tag_requests in *. simpl. rewrite flat_map_app, Q. reflexivity.
Qed.

Lemma for_of_gc_repo_order l s :
  let o := for_of l (gc_repo host) s in
  exists rest,
    map arn l = tag_requests (trace o) ++ rest /\
    (result o = Ok tt -> rest = []).
Proof.
  revert s. induction l as [|r l IH]; intros s o; subst o.
  - exists []. split; reflexivity.
  - simpl for_of. rewrite bind_trace, bind_result.
    unfold tag_requests in *. rewrite flat_map_app.
    pose proof (gc_repo_tag_requests r s) as G. unfold tag_requests in G.
    rewrite G. destruct (result (gc_repo host r s)) as [[]|e|].
    + destruct (IH (final (gc_repo host r s))) as (rest & E & F).
      exists rest. simpl. rewrite E. split; [reflexivity|exact F].
    + exists (map arn l). simpl. split; [reflexivity|discriminate].
    + exists (map arn l). simpl. split; [reflexivity|discriminate].
Qed.

Lemma gc_pages_order fuel token s :
  let o := gc_pages host fuel token s in
  exists rest,
    map arn (listed (trace o)) = tag_requests (trace o) ++ rest /\
    (result o = Ok tt -> rest = []).
Proof.
  revert token s. induction fuel as [|fuel IH]; intros token s o; subst o.
  - exists []. split; [reflexivity|discriminate].
  - simpl gc_pages.
    destruct (aws host (ListRepositories token) s) as [[e|page] s1] eqn:C.
    + rewrite (bind_throw _ (call_throw C)).
      exists []. split; [reflexivity|discriminate].
    + rewrite (bind_ok _ (call_ok C)). cbn [result final trace].
      rewrite bind_trace, bind_result.
      set (l := match repositories page with Some l => l | None => [] end).
      destruct (for_of_gc_repo_order l s1) as (rest & E & F).
      destruct (for_of_gc_repo host l s1) as (_ & L & _).
      unfold listed, tag_requests in *. simpl flat_map.
      rewrite !flat_map_app, L. fold l.
      destruct (result (for_of l (gc_repo host) s1)) as [[]|e|].
      * rewrite (F eq_refl), app_nil_r in E.
        destruct (truthy (nextToken page)).
        -- destruct (IH (nextToken page) (final (for_of l (gc_repo host) s1)))
             as (rest' & E' & F').
           exists rest'. simpl app. rewrite map_app, E, E', app_assoc.
           split; [reflexivity|exact F'].
        -- exists []. simpl. rewrite !app_nil_r. split; [exact E|reflexivity].
      * exists rest. simpl. rewrite !app_nil_r.
        split; [exact E|discriminate].
      * exists rest. simpl. rewrite !app_nil_r.
        split; [exact E|discriminate].
Qed.
End SweepOrder.

(** X18: [gc] examines the repositories in the order in which the pages
    list them, each one once: at any end of the run the tags requested
    are those of a first part of the repositories listed, and of all of
    them when the sweep completes. *)
Theorem gc_examines_in_order :
  forall (W : Type) (host : Host W) (fuel : nat) (s : W),
    let o := gc host fuel s in
    exists rest,
      map arn (listed (trace o)) = tag_requests (trace o) ++ rest /\
      (result o = Ok tt -> rest = []).
Proof.
  intros W host fuel s o. subst o.
  destruct (gc_cases host fuel s) as [(e & T & Re)|(s1 & T & Re)];
    cbv zeta in *; rewrite T.
  - exists []. split; reflexivity.
  - destruct (gc_pages_order host fuel None s1) as (rest & E & F).
    exists rest. rewrite Re. split; [exact E|exact F].
Qed.

Lemma gc_examines_in_order_witness :
  let o := gc (Registry.host Registry.no_faults 2) 10 sweep_state in
  result o = Ok tt /\
  exists rest,
    map arn (listed (trace o)) = tag_requests (trace o) ++ rest /\
    (result o = Ok tt -> rest = []).
Proof.
  intros o. split; [reflexivity|].
  exact (@gc_examines_in_order _ (Registry.host Registry.no_faults 2) 10
           sweep_state).
Defined.

(** * Runs and the registry *)

(** ** What a run records is what the host did *)

Section Honest.
Context {W : Type} (host : Host W).

Lemma performed_app s a b s' s'' :
  performed host s a s' -> performed host s' b s'' ->
  performed host s (a ++ b) s''.
Proof.
  revert s. induction a as [|ev a IH]; intros s Ha Hb.
  - simpl in Ha. subst s'. exact Hb.
  - destruct ev; simpl in *;
      try (destruct Ha as [E Ha]; split; [exact E|]); now apply IH.
Qed.

Lemma performed_split s a b s'' :
  performed host s (a ++ b) s'' ->
  exists s', performed host s a s' /\ performed host s' b s''.
Proof.
  revert s. induction a as [|ev a IH]; intros s H.
  - exists s. split; [reflexivity|exact H].
  - destruct ev; simpl in *;
      try (destruct H as [E H]);
      destruct (IH _ H) as (s' & H1 & H2); exists s'; auto.
Qed.

Lemma performed_fun s tr s1 s2 :
  performed host s tr s1 -> performed host s tr s2 -> s1 = s2.
Proof.
  revert s. induction tr as [|ev tr IH]; intros s H1 H2.
  - simpl in *. congruence.
  - destruct ev; simpl in *;
      try (destruct H1 as [_ H1]; destruct H2 as [_ H2]); eauto.
Qed.

Lemma honest_ret {A} (a : A) : honest host (ret a).
Proof. intros s. reflexivity. Qed.

Lemma honest_throw {A} e : honest host (throw (A:=A) e).
Proof. intros s. reflexivity. Qed.

Lemma honest_bind {A B} (m : M W A) (k : A -> M W B) :
  honest host m -> (forall a, honest host (k a)) -> honest host (bind m k).
Proof.
  intros Hm Hk s. unfold bind.
  destruct (result (m s)) as [a|e|] eqn:R; cbn [trace final];
    [|apply Hm..].
  exact (performed_app (Hm s) (Hk a (final (m s)))).
Qed.

Lemma honest_try_catch {A} (m : M W A) h :
  honest host m -> (forall e, honest host (h e)) ->
  honest host (try_catch m h).
Proof.
  intros Hm Hh s. unfold try_catch.
  destruct (result (m s)) as [a|e|] eqn:R; cbn [trace final];
    [apply Hm| |apply Hm].
  exact (performed_app (Hm s) (Hh e (final (m s)))).
Qed.

Lemma honest_call {R} (q : Request R) : honest host (call host q).
Proof.
  intros s. unfold call. destruct (aws host q s) as [a s'] eqn:E.
  simpl. rewrite E. split; reflexivity.
Qed.

Lemma honest_date_now : honest host (date_now host).
Proof. intros s. rewrite date_now_eq. simpl. split; reflexivity. Qed.

Lemma honest_sleep ms : honest host (sleep host ms).
Proof. intros s. reflexivity. Qed.

Lemma honest_console_log args : honest host (console_log host args).
Proof. intros s. reflexivity. Qed.

Lemma honest_console_debug msg : honest host (console_debug host msg).
Proof. intros s. reflexivity. Qed.

Lemma honest_retry_loop {A} (block : M W A) attempts :
  honest host block -> honest host (retry_loop host attempts block).
Proof.
  intros Hb. induction attempts as [|n IH]; simpl;
    apply honest_try_catch; try exact Hb; intros e;
    apply honest_bind; try apply honest_console_debug; intros _.
  - apply honest_throw.
  - apply honest_bind; [apply honest_sleep|intros _; exact IH].
Qed.

Lemma honest_for_of {A} (l : list A) (body : A -> M W unit) :
  (forall x, honest host (body x)) -> honest host (for_of l body).
Proof.
  intros Hb. induction l as [|x l IH]; simpl; [apply honest_ret|].
  apply honest_bind; [apply Hb|intros _; exact IH].
Qed.

Lemma honest_domainExists : honest host (domainExists host).
Proof.
  unfold domainExists. apply honest_try_catch.
  - apply honest_bind; [apply honest_call|intros _; apply honest_ret].
  - intros e. destruct (negb _); [apply honest_throw|apply honest_ret].
Qed.

Lemma honest_repositoryExists n : honest host (repositoryExists host n).
Proof.
  unfold repositoryExists. apply honest_try_catch.
  - apply honest_bind; [apply honest_call|intros _; apply honest_ret].
  - intros e. destruct (negb _); [apply honest_throw|apply honest_ret].
Qed.

Lemma honest_ensureDomain : honest host (ensureDomain host).
Proof.
  unfold ensureDomain. apply honest_bind; [apply honest_domainExists|].
  intros []; [apply honest_ret|apply honest_call].
Qed.

Lemma honest_ensureRepository n options :
  honest host (ensureRepository host n options).
Proof.
  unfold ensureRepository.
  apply honest_bind; [apply honest_repositoryExists|].
  intros []; [apply honest_ret|].
  apply honest_bind; [apply honest_call|intros _].
  destruct (truthy _); [|apply honest_ret].
  destruct (optional opt_external options); [|apply honest_ret].
  apply honest_retry_loop, honest_call.
Qed.

Lemma honest_ensureUpstreams : honest host (ensureUpstreams host).
Proof.
  unfold ensureUpstreams.
  repeat (apply honest_bind; [apply honest_ensureRepository|intros _]).
  apply honest_ensureRepository.
Qed.

Lemma honest_prepare name : honest host (prepare host name).
Proof.
  unfold prepare.
  apply honest_bind; [apply honest_ensureDomain|intros _].
  apply honest_bind; [apply honest_ensureUpstreams|intros _].
  apply honest_bind; [apply honest_date_now|intros now].
  apply honest_ensureRepository.
Qed.

Lemma honest_loginInformation name : honest host (loginInformation host name).
Proof.
  unfold loginInformation.
  repeat (apply honest_bind; [apply honest_call|intros ?]).
  apply honest_ret.
Qed.

Lemma honest_find l : honest host (find (is_collectable host) l).
Proof.
  induction l as [|t l IH]; [apply honest_ret|].
  intros s. rewrite find_cons. revert s.
  apply honest_bind.
  - unfold is_collectable. destruct (String.eqb _ _); [|apply honest_ret].
    apply honest_bind; [apply honest_date_now|intros ?; apply honest_ret].
  - intros []; [apply honest_ret|exact IH].
Qed.

Lemma honest_gc_repo repo : honest host (gc_repo host repo).
Proof.
  unfold gc_repo. apply honest_bind; [apply honest_call|intros tags].
  apply honest_bind.
  - destruct tags; [apply honest_find|apply honest_ret].
  - intros [t|]; [|apply honest_ret].
    apply honest_bind; [apply honest_console_log|intros _].
    apply honest_call.
Qed.

Lemma honest_gc_pages fuel token : honest host (gc_pages host fuel token).
Proof.
  revert token. induction fuel as [|fuel IH]; intros token;
    [intros s; reflexivity|].
  simpl. apply honest_bind; [apply honest_call|intros page].
  apply honest_bind;
    [apply honest_for_of; intros; apply honest_gc_repo|intros _].
  destruct (truthy _); [apply IH|apply honest_ret].
Qed.

Lemma honest_gc fuel : honest host (gc host fuel).
Proof.
  unfold gc. apply honest_bind; [apply honest_domainExists|].
  intros []; simpl; [apply honest_gc_pages|apply honest_ret].
Qed.
End Honest.

(** ** The steps of provisioning *)

Section Steps.
Context {W : Type} (host : Host W).

Lemma prepare_steps name s :
  let o := prepare host name s in
  result o = Ok tt ->
  exists s1 s2 s3 s4 s5 s6 td t1 t2 t3 t4 now ts,
    trace o = td ++ t1 ++ t2 ++ t3 ++ t4 ++ EvNow now :: ts /\
    (performed host s td s1 /\ domain_ensured td) /\
    (performed host s1 t1 s2 /\
     upstream_ensured "npm-upstream" "The upstream repository for NPM"
       "public:npmjs" t1) /\
    (performed host s2 t2 s3 /\
     upstream_ensured "maven-upstream" "The upstream repository for Maven"
       "public:maven-central" t2) /\
    (performed host s3 t3 s4 /\
     upstream_ensured "nuget-upstream" "The upstream repository for NuGet"
       "public:nuget-org" t3) /\
    (performed host s4 t4 s5 /\
     upstream_ensured "pypi-upstream" "The upstream repository for PyPI"
       "public:pypi" t4) /\
    dateNow host s5 = (now, s6) /\
    (performed host s6 ts (final o) /\ sandbox_ensured name now ts).
Proof.
  intros o H. subst o. unfold prepare in *.
  apply bind_ok_inv in H. destruct H as ([] & Rd & H & T0 & F0).
  rewrite T0, F0. clear T0 F0.
  apply bind_ok_inv in H. destruct H as ([] & Ru & H & T0 & F0).
  rewrite T0, F0. clear T0 F0.
  apply bind_ok_inv in H. destruct H as (now & Rn & H & T0 & F0).
  rewrite T0, F0. clear T0 F0.
  set (s1 := final (ensureDomain host s)) in *.
  rewrite date_now_eq in Rn, H |- *. cbn [result trace final] in Rn, H |- *.
  inversion Rn; subst now. clear Rn.
  unfold ensureUpstreams in Ru, H |- *.
  apply bind_ok_inv in Ru. destruct Ru as ([] & R1 & Ru & T0 & F1).
  rewrite T0, F1 in *. clear T0 F1.
  set (s2 := final (ensureRepository host npmUpstream _ s1)) in *.
  apply bind_ok_inv in Ru. destruct Ru as ([] & R2 & Ru & T0 & F1).
  rewrite T0, F1 in *. clear T0 F1.
  set (s3 := final (ensureRepository host mavenUpstream _ s2)) in *.
  apply bind_ok_inv in Ru. destruct Ru as ([] & R3 & R4 & T0 & F1).
  rewrite T0, F1 in *. clear T0 F1.
  set (s4 := final (ensureRepository host nugetUpstream _ s3)) in *.
  set (s5 := final (ensureRepository host pypiUpstream _ s4)) in *.
  rewrite <- !app_assoc.
  exists s1, s2, s3, s4, s5, (snd (dateNow host s5)).
  do 7 eexists. split; [reflexivity|].
  split; [split; [apply honest_ensureDomain|exact (ensureDomain_ok Rd)]|].
  split; [split; [apply honest_ensureRepository
                 |apply ensureRepository_upstream_ok; [discriminate|exact R1]]|].
  split; [split; [apply honest_ensureRepository
                 |apply ensureRepository_upstream_ok; [discriminate|exact R2]]|].
  split; [split; [apply honest_ensureRepository
                 |apply ensureRepository_upstream_ok; [discriminate|exact R3]]|].
  split; [split; [apply honest_ensureRepository
                 |apply ensureRepository_upstream_ok; [discriminate|exact R4]]|].
  split; [apply surjective_pairing|].
  split; [apply honest_ensureRepository|exact (ensureRepository_sandbox_ok H)].
Qed.
End Steps.

(** Against C4 as stated: when the sandbox is there already, [prepare]
    succeeds without creating it.  One day and an hour after the sandbox
    ["test-abc"] was provisioned, a second [prepare] sends no creation
    request at all, and the sandbox keeps the tag of the first day: no
    repository is created with the clock of this run plus 24 hours. *)
Lemma prepare_leaves_existing_sandbox :
  let h := Registry.host Registry.no_faults 2 in
  let o := prepare h "test-abc" provisioned_later in
  result o = Ok tt /\
  readings (trace o) = [1700090000000] /\
  create_requests (trace o) = [] /\
  map Registry.repo_tags
    (filter (Registry.is_repo "test-cdk" "test-abc")
       (Registry.repos (final o))) =
    [[mkTag "collect-by" "1700086400000"]].
Proof. vm_compute. auto. Qed.

(** C4, amended: a run of [prepare] that succeeds consists, in this
    order, of the step that ensures the domain, the steps that ensure the
    npm, maven, nuget and pypi upstreams, a reading [now] of the clock,
    and the step that ensures the sandbox.  Each step is what the
    registry did from the state the step before left it in: a probe that
    the registry answered positively and nothing else, or a probe that
    it answered not-found followed by the creation that it accepted, and
    for an upstream by the association with its public source, accepted
    after at most three rejections.  The creation of the sandbox carries
    the description, the four upstreams and the tag ["collect-by"] with
    the decimal value of [now] plus 24 hours; a sandbox that the probe
    finds is left as it is. *)
Theorem prepare_in_order :
  forall (W : Type) (host : Host W) (repositoryName : string) (s : W),
    let o := prepare host repositoryName s in
    result o = Ok tt ->
    exists s1 s2 s3 s4 s5 s6 td t1 t2 t3 t4 now ts,
      trace o = td ++ t1 ++ t2 ++ t3 ++ t4 ++ EvNow now :: ts /\
      (performed host s td s1 /\ domain_ensured td) /\
      (performed host s1 t1 s2 /\
       upstream_ensured "npm-upstream" "The upstream repository for NPM"
         "public:npmjs" t1) /\
      (performed host s2 t2 s3 /\
       upstream_ensured "maven-upstream" "The upstream repository for Maven"
         "public:maven-central" t2) /\
      (performed host s3 t3 s4 /\
       upstream_ensured "nuget-upstream" "The upstream repository for NuGet"
         "public:nuget-org" t3) /\
      (performed host s4 t4 s5 /\
       upstream_ensured "pypi-upstream" "The upstream repository for PyPI"
         "public:pypi" t4) /\
      dateNow host s5 = (now, s6) /\
      (performed host s6 ts (final o) /\
       sandbox_ensured repositoryName now ts).
Proof.
  intros W host repositoryName s o H. exact (prepare_steps H).
Qed.

Lemma prepare_in_order_witness :
  let h := Registry.host Registry.no_faults 2 in
  let s := Registry.empty 1700000000000 in
  let o := prepare h "test-abc" s in
  create_requests (trace o) =
    ["npm-upstream"; "maven-upstream"; "nuget-upstream"; "pypi-upstream";
     "test-abc"] /\
  exists s1 s2 s3 s4 s5 s6 td t1 t2 t3 t4 now ts,
    trace o = td ++ t1 ++ t2 ++ t3 ++ t4 ++ EvNow now :: ts /\
    (performed h s td s1 /\ domain_ensured td) /\
    (performed h s1 t1 s2 /\
     upstream_ensured "npm-upstream" "The upstream repository for NPM"
       "public:npmjs" t1) /\
    (performed h s2 t2 s3 /\
     upstream_ensured "maven-upstream" "The upstream repository for Maven"
       "public:maven-central" t2) /\
    (performed h s3 t3 s4 /\
     upstream_ensured "nuget-upstream" "The upstream repository for NuGet"
       "public:nuget-org" t3) /\
    (performed h s4 t4 s5 /\
     upstream_ensured "pypi-upstream" "The upstream repository for PyPI"
       "public:pypi" t4) /\
    dateNow h s5 = (now, s6) /\
    (performed h s6 ts (final o) /\ sandbox_ensured "test-abc" now ts).
Proof.
  intros h s o. split; [reflexivity|].
  apply (@prepare_in_order _ h "test-abc" s). vm_compute. reflexivity.
Defined.

(** ** Provisioning twice, from absence *)

Section Absence.
Context {W : Type} (host : Host W).
Variable repo_present : string -> W -> bool.
Variable n : string.
Hypothesis Hinv : invents_nothing host repo_present n.

Lemma creates_false {R} (q : Request R) a :
  ~ In n (create_requests_of (EvAws q a)) -> creates n q = false.
Proof.
  destruct q; simpl; try reflexivity. intros H.
  apply String.eqb_neq. intros ->. apply H. left. reflexivity.
Qed.

Lemma absent_kept s tr s' :
  performed host s tr s' -> repo_present n s = false ->
  ~ In n (create_requests tr) -> repo_present n s' = false.
Proof.
  destruct Hinv as (Ha & Hn & Hs & Hl & Hd & _).
  revert s. induction tr as [|ev tr IH]; intros s P A C.
  - simpl in P. now subst.
  - assert (C1 : ~ In n (create_requests_of ev))
      by (intros I; apply C; unfold create_requests; simpl;
          apply in_or_app; now left).
    assert (C2 : ~ In n (create_requests tr))
      by (intros I; apply C; unfold create_requests; simpl;
          apply in_or_app; now right).
    destruct ev as [R q a|t|ms|args|msg]; simpl in P.
    + destruct P as [_ P]. apply (IH _ P); [|exact C2].
      apply Ha; [exact (creates_false C1)|exact A].
    + destruct P as [_ P]. apply (IH _ P); auto.
    + apply (IH _ P); auto.
    + apply (IH _ P); auto.
    + apply (IH _ P); auto.
Qed.

(** A successful [prepare] that starts without the sandbox finds it
    missing. *)
Lemma prepare_finds_missing s :
  result (prepare host n s) = Ok tt -> repo_present n s = false ->
  In n (missing (trace (prepare host n s))).
Proof.
  intros H A.
  destruct (in_dec string_dec n (missing (trace (prepare host n s))))
    as [I|NI]; [exact I|exfalso].
  pose proof (prepare_creations host n s) as Cm. cbv zeta in Cm.
  destruct (prepare_steps H)
    as (s1 & s2 & s3 & s4 & s5 & s6 & td & t1 & t2 & t3 & t4 & now & ts &
        T & [Pd _] & [P1 _] & [P2 _] & [P3 _] & [P4 _] & Dn & [Ps Es]).
  cbv zeta in T, Ps. rewrite T in NI, Cm.
  assert (Pre : performed host s
                  (td ++ t1 ++ t2 ++ t3 ++ t4 ++ [EvNow now]) s6).
  { repeat (eapply performed_app; [eassumption|]).
    simpl. rewrite Dn. split; reflexivity. }
  assert (Split : td ++ t1 ++ t2 ++ t3 ++ t4 ++ EvNow now :: ts =
                  (td ++ t1 ++ t2 ++ t3 ++ t4 ++ [EvNow now]) ++ ts)
    by (rewrite <- !app_assoc; reflexivity).
  rewrite Split in NI, Cm.
  set (pre := td ++ t1 ++ t2 ++ t3 ++ t4 ++ [EvNow now]) in *.
  assert (Ec : create_requests (pre ++ ts) =
               create_requests pre ++ create_requests ts)
    by apply flat_map_app.
  assert (Em : missing (pre ++ ts) = missing pre ++ missing ts)
    by apply flat_map_app.
  assert (A6 : repo_present n s6 = false).
  { apply (absent_kept Pre A). intros I. apply NI. rewrite <- Cm, Ec.
    apply in_or_app. now left. }
  destruct (proj2 (proj2 (proj2 (proj2 (proj2 Hinv)))) s6 A6)
    as (e & Ee & Ne).
  destruct Es as [->|(e' & N' & ->)].
  - simpl in Ps. destruct Ps as [Ep _]. rewrite Ee in Ep. discriminate.
  - apply NI. rewrite Em. apply in_or_app. right. unfold missing.
    cbn [flat_map]. rewrite (missing_probe _ _ N'). left. reflexivity.
Qed.
End Absence.

Section ReferenceAbsence.
Variables (plan : Registry.Plan) (pageSize : nat).
Hypothesis probes_served :
  forall k R (q : Request R), is_probe q = true -> @plan k R q = None.
Variable n : string.

Lemma existsb_filter_false {A} (f g : A -> bool) l :
  existsb f l = false -> existsb f (filter g l) = false.
Proof.
  induction l as [|x l IH]; simpl; [reflexivity|].
  intros H. apply orb_false_iff in H. destruct H as [H1 H2].
  destruct (g x); simpl; [rewrite H1|]; auto.
Qed.

Lemma serve_keeps_absent {R} (q : Request R) st :
  creates n q = false ->
  Registry.has_repo st "test-cdk" n = false ->
  Registry.has_repo (snd (Registry.serve pageSize q st)) "test-cdk" n = false.
Proof.
  intros Hq H. destruct q; simpl in Hq |- *;
    repeat match goal with
           | |- context [if ?b then _ else _] => destruct b eqn:?
           end; simpl; auto.
  - unfold Registry.has_repo in *. simpl. rewrite existsb_app, H. simpl.
    unfold Registry.is_repo. simpl. rewrite Hq.
    now rewrite andb_false_r.
  - unfold Registry.has_repo in *. simpl.
    rewrite has_repo_associate. exact H.
  - unfold Registry.has_repo in *. simpl.
    now apply existsb_filter_false.
Qed.

Lemma reference_invents_nothing :
  invents_nothing (Registry.host plan pageSize)
    (fun m st => Registry.has_repo st "test-cdk" m) n.
Proof.
  split; [|split; [|split; [|split; [|split]]]]; simpl; auto.
  - intros R q st Hq H. unfold Registry.handle.
    destruct (@plan (Registry.served st) R q); simpl; [exact H|].
    now apply serve_keeps_absent.
  - intros st H. unfold Registry.handle.
    rewrite (probes_served _ (q:=DescribeRepository "test-cdk" n) eq_refl).
    simpl.
    change (Registry.has_repo (Registry.tick st) "test-cdk" n)
      with (Registry.has_repo st "test-cdk" n).
    rewrite H. exists Registry.notFound. split; reflexivity.
Qed.
End ReferenceAbsence.

(** Against C2 as stated: when the sandbox is there before the first
    call, two calls of [prepare] in a row both succeed and no
    [createRepository] request names the sandbox: not exactly one. *)
Lemma prepare_twice_creates_nothing :
  let h := Registry.host Registry.no_faults 2 in
  let o1 := prepare h "test-abc" provisioned in
  let o2 := prepare h "test-abc" (final o1) in
  Registry.has_repo provisioned "test-cdk" "test-abc" = true /\
  result o1 = Ok tt /\ result o2 = Ok tt /\
  count_occ string_dec (create_requests (trace o1 ++ trace o2))
    "test-abc" = 0%nat.
Proof. vm_compute. auto. Qed.

(** C2, amended: on a registry that remembers, two calls of [prepare] in
    a row on the same name, the first of which succeeds, both succeed
    and leave the sandbox present; the second consists of the probes of
    the domain, of the four upstreams and of the sandbox, all answered
    positively by the registry, and creates nothing.  Over the two calls
    at most one [createRepository] request names the sandbox: none when
    the sandbox was present before the first call, and exactly one when
    it was absent, on a registry that invents nothing. *)
Theorem prepare_twice :
  forall (W : Type) (host : Host W)
         (domain_present : W -> bool) (repo_present : string -> W -> bool)
         (repositoryName : string) (s : W),
    remembers host domain_present repo_present ->
    let o1 := prepare host repositoryName s in
    let o2 := prepare host repositoryName (final o1) in
    let creations :=
      count_occ string_dec (create_requests (trace o1 ++ trace o2))
        repositoryName in
    result o1 = Ok tt ->
    (performed host s (trace o1) (final o1) /\
     performed host (final o1) (trace o2) (final o2)) /\
    result o2 = Ok tt /\
    (exists now,
       trace o2 =
       [EvAws (DescribeDomain "test-cdk") (inr tt);
        EvAws (DescribeRepository "test-cdk" "npm-upstream") (inr tt);
        EvAws (DescribeRepository "test-cdk" "maven-upstream") (inr tt);
        EvAws (DescribeRepository "test-cdk" "nuget-upstream") (inr tt);
        EvAws (DescribeRepository "test-cdk" "pypi-upstream") (inr tt);
        EvNow now;
        EvAws (DescribeRepository "test-cdk" repositoryName) (inr tt)]) /\
    create_requests (trace o2) = [] /\
    repo_present repositoryName (final o2) = true /\
    (creations <= 1)%nat /\
    (repo_present repositoryName s = true -> creations = 0%nat) /\
    (invents_nothing host repo_present repositoryName ->
     repo_present repositoryName s = false -> creations = 1%nat).
Proof.
  intros W host dp rp n s Hrem o1 o2 creations H1.
  destruct (prepare_again Hrem H1) as (R2 & T2 & Q & C & M).
  fold o1 o2 in R2, T2, Q, C, M. fold creations in C, M.
  split; [split; apply honest_prepare|].
  split; [exact R2|]. split; [exact T2|]. split; [exact Q|].
  split.
  { pose proof (prepare_establishes Hrem R2) as E. fold o2 in E.
    apply andb_true_iff in E. exact (proj2 E). }
  split; [exact C|]. split.
  - intros Ps.
    destruct (tidy_prepare Hrem H1) as (P1 & _ & _ & Cm).
    fold o1 in P1, Cm. destruct (P1 Ps) as [NI _].
    subst creations. unfold create_requests in *. rewrite flat_map_app.
    fold create_requests in *. rewrite Q, app_nil_r, Cm.
    now apply count_occ_not_In.
  - intros Hinv A. apply M. exact (prepare_finds_missing Hinv H1 A).
Qed.

Lemma prepare_twice_witness :
  let h := Registry.host Registry.no_faults 2 in
  let s := Registry.empty 1700000000000 in
  let o1 := prepare h "test-abc" s in
  let o2 := prepare h "test-abc" (final o1) in
  Registry.has_repo s "test-cdk" "test-abc" = false /\
  result o2 = Ok tt /\
  create_requests (trace o2) = [] /\
  Registry.has_repo (final o2) "test-cdk" "test-abc" = true /\
  count_occ string_dec (create_requests (trace o1 ++ trace o2))
    "test-abc" = 1%nat.
Proof.
  intros h s o1 o2.
  assert (R1 : result o1 = Ok tt) by (vm_compute; reflexivity).
  destruct (@prepare_twice _ h _ _ "test-abc" s
              (reference_remembers 2 (fun _ _ _ _ => eq_refl)) R1)
    as (_ & R2 & _ & Q & P & _ & _ & One).
  split; [reflexivity|]. split; [exact R2|]. split; [exact Q|].
  split; [exact P|].
  apply One; [|reflexivity].
  apply (reference_invents_nothing 2 (fun _ _ _ _ => eq_refl)).
Defined.

(** ** The sweep, repository by repository *)

Section SweepExamined.
Context {W : Type} (host : Host W).

Lemma clock_readings_length n s : length (clock_readings host n s) = n.
Proof. revert s. induction n; intros s; simpl; auto. Qed.

Lemma due_without_tags tags s : collect_tags tags = [] -> due host tags s = false.
Proof. intros H. unfold due. rewrite H. reflexivity. Qed.

Lemma existsb_filter {A} (f g : A -> bool) l :
  existsb f (filter g l) = existsb (fun x => g x && f x) l.
Proof.
  induction l as [|x l IH]; simpl; [reflexivity|].
  destruct (g x); simpl; now rewrite IH.
Qed.

Lemma past_still number now ks ts :
  Forall (eq now) ts -> length ts = length ks ->
  existsb (past number) (combine ks ts) =
  existsb (fun t => js_lt (number (value t)) (of_Z now)) ks.
Proof.
  intros F. revert ks. induction F as [|t ts E F IH]; intros [|k ks] L;
    try discriminate; [reflexivity|].
  simpl in *. subst t. unfold past at 1. simpl. f_equal. apply IH. lia.
Qed.

Lemma due_still tags s now :
  Forall (eq now) (clock_readings host (length (collect_tags tags)) s) ->
  due host tags s = expired (Number host) now tags.
Proof.
  intros F. unfold due.
  rewrite (past_still _ F (clock_readings_length _ _)).
  destruct tags as [l|]; [|reflexivity].
  unfold collect_tags, collect_keys, expired. rewrite existsb_filter.
  reflexivity.
Qed.

Lemma begins_afresh_app a b :
  begins_afresh a = true -> begins_afresh b = true ->
  begins_afresh (a ++ b) = true.
Proof. destruct a; simpl; auto. Qed.

Lemma gc_repo_begins r s : begins_afresh (trace (gc_repo host r s)) = true.
Proof.
  unfold gc_repo, bind at 1, call.
  destruct (aws host (ListTagsForResource (arn r)) s) as [[e|tags] s1];
    reflexivity.
Qed.

Lemma for_of_begins l s :
  begins_afresh (trace (for_of l (gc_repo host) s)) = true.
Proof.
  destruct l as [|r l]; [reflexivity|]. simpl for_of.
  rewrite bind_trace. pose proof (gc_repo_begins r s) as B.
  destruct (trace (gc_repo host r s)) eqn:E; [|exact B].
  exfalso. revert E. unfold gc_repo, bind at 1, call.
  destruct (aws host (ListTagsForResource (arn r)) s) as [[e|tags] s1];
    discriminate.
Qed.

Lemma gc_pages_begins fuel token s :
  begins_afresh (trace (gc_pages host fuel token s)) = true.
Proof.
  destruct fuel as [|fuel]; [reflexivity|]. simpl. unfold bind at 1, call.
  destruct (aws host (ListRepositories token) s) as [[e|page] s1];
    reflexivity.
Qed.

(** A run of the loop body that succeeds is the request for the tags,
    answered by the registry, and the examination that follows. *)
Lemma gc_repo_exam r s :
  result (gc_repo host r s) = Ok tt ->
  exists tags s1,
    aws host (ListTagsForResource (arn r)) s = (inr tags, s1) /\
    trace (gc_repo host r s) =
      EvAws (ListTagsForResource (arn r)) (inr tags) ::
      examination host r tags s1.
Proof.
  intros H.
  destruct (aws host (ListTagsForResource (arn r)) s) as [[e|tags] s1] eqn:E.
  - unfold gc_repo in H. rewrite (bind_throw _ (call_throw E)) in H.
    discriminate.
  - exists tags, s1. split; [reflexivity|].
    destruct (gc_repo_answered E) as (s2 & a & T & D1 & D0).
    cbv zeta in T, D1, D0. rewrite T. unfold examination.
    destruct (due host tags s1); [|reflexivity].
    destruct (D1 eq_refl) as [_ Ra]. rewrite H in Ra.
    destruct a as [e|[]]; [discriminate|reflexivity].
Qed.

Lemma for_of_exam l s r :
  result (for_of l (gc_repo host) s) = Ok tt -> In r l ->
  exists pre tags s1 post,
    trace (for_of l (gc_repo host) s) =
      pre ++ EvAws (ListTagsForResource (arn r)) (inr tags) ::
      examination host r tags s1 ++ post /\
    performed host s
      (pre ++ [EvAws (ListTagsForResource (arn r)) (inr tags)]) s1 /\
    begins_afresh post = true.
Proof.
  revert s. induction l as [|x l IH]; intros s H I; [elim I|].
  simpl for_of in *. destruct (bind_ok_inv H) as ([] & Rx & Rl & T & _).
  rewrite T. destruct I as [->|I].
  - destruct (gc_repo_exam Rx) as (tags & s1 & E & Tx).
    exists [], tags, s1, (trace (for_of l (gc_repo host)
                                   (final (gc_repo host r s)))).
    rewrite Tx. split; [reflexivity|].
    split; [simpl; rewrite E; split; reflexivity|apply for_of_begins].
  - destruct (IH _ Rl I) as (pre & tags & s1 & post & Tl & P & B).
    exists (trace (gc_repo host x s) ++ pre), tags, s1, post.
    rewrite Tl. split; [rewrite <- ?app_assoc; reflexivity|]. split; [|exact B].
    rewrite <- app_assoc.
    exact (performed_app (honest_gc_repo host x s) P).
Qed.

Lemma gc_pages_exam fuel token s r :
  result (gc_pages host fuel token s) = Ok tt ->
  In r (listed (trace (gc_pages host fuel token s))) ->
  exists pre tags s1 post,
    trace (gc_pages host fuel token s) =
      pre ++ EvAws (ListTagsForResource (arn r)) (inr tags) ::
      examination host r tags s1 ++ post /\
    performed host s
      (pre ++ [EvAws (ListTagsForResource (arn r)) (inr tags)]) s1 /\
    begins_afresh post = true.
Proof.
  revert token s. induction fuel as [|fuel IH]; intros token s H I;
    [discriminate H|].
  simpl gc_pages in *.
  destruct (aws host (ListRepositories token) s) as [[e|page] s1] eqn:E.
  { rewrite (bind_throw _ (call_throw E)) in H. discriminate. }
  rewrite (bind_ok _ (call_ok E)) in H, I |- *.
  cbn [result final trace] in H, I |- *.
  set (l := match repositories page with Some l => l | None => [] end) in *.
  destruct (bind_ok_inv H) as ([] & Rf & Rr & T & _).
  rewrite T in I |- *.
  destruct (for_of_gc_repo host l s1) as (_ & Lf & _).
  unfold listed in I, Lf. simpl flat_map in I.
  rewrite flat_map_app, Lf in I. fold l in I. simpl app in I.
  apply in_app_or in I. destruct I as [I|I].
  - destruct (for_of_exam Rf I) as (pre & tags & s2 & post & Tf & P & B).
    exists (EvAws (ListRepositories token) (inr page) :: pre), tags, s2.
    eexists. rewrite Tf. split.
    + simpl. rewrite <- ?app_assoc. simpl. rewrite <- ?app_assoc.
      reflexivity.
    + split; [simpl; rewrite E; split; [reflexivity|exact P]|].
      apply begins_afresh_app; [exact B|].
      destruct (truthy (nextToken page)); [apply gc_pages_begins|reflexivity].
  - destruct (truthy (nextToken page)) eqn:Tk; [|elim I].
    destruct (IH _ _ Rr I) as (pre & tags & s2 & post & Tr & P & B).
    exists (EvAws (ListRepositories token) (inr page) ::
            trace (for_of l (gc_repo host) s1) ++ pre), tags, s2, post.
    rewrite Tr. split; [simpl; rewrite <- ?app_assoc; reflexivity|].
    split; [|exact B]. simpl. rewrite E. split; [reflexivity|].
    rewrite <- app_assoc.
    refine (performed_app _ P).
    apply honest_for_of. intros; apply honest_gc_repo.
Qed.

Lemma gc_exam fuel s r :
  result (gc host fuel s) = Ok tt ->
  In r (listed (trace (gc host fuel s))) ->
  exists pre tags s1 post,
    trace (gc host fuel s) =
      pre ++ EvAws (ListTagsForResource (arn r)) (inr tags) ::
      examination host r tags s1 ++ post /\
    performed host s
      (pre ++ [EvAws (ListTagsForResource (arn r)) (inr tags)]) s1 /\
    begins_afresh post = true.
Proof.
  unfold gc.
  destruct (aws host (DescribeDomain domain) s) as [[e|[]] s1] eqn:E.
  - destruct (not_found e) eqn:N.
    + rewrite (bind_ok _ (domainExists_missing E N)). intros _ [].
    + rewrite (bind_throw _ (domainExists_throws E N)). discriminate.
  - rewrite (bind_ok _ (domainExists_found E)).
    cbn [negb result final trace]. intros H I.
    destruct (gc_pages_exam H I) as (pre & tags & s2 & post & T & P & B).
    exists (EvAws (DescribeDomain domain) (inr tt) :: pre), tags, s2, post.
    rewrite T. split; [reflexivity|]. split; [|exact B].
    simpl. rewrite E. split; [reflexivity|exact P].
Qed.

(** When the sweep ends. *)

Lemma gc_pages_out_of_fuel fuel token s :
  result (gc_pages host fuel token s) = OutOfFuel ->
  forallb truthy (page_tokens (trace (gc_pages host fuel token s))) = true.
Proof.
  revert token s. induction fuel as [|fuel IH]; intros token s H;
    [reflexivity|].
  simpl gc_pages in *.
  destruct (aws host (ListRepositories token) s) as [[e|page] s1] eqn:E.
  { rewrite (bind_throw _ (call_throw E)) in H. discriminate. }
  rewrite (bind_ok _ (call_ok E)) in H |- *.
  cbn [result final trace] in H |- *.
  set (l := match repositories page with Some l => l | None => [] end) in *.
  rewrite bind_result in H. rewrite bind_trace.
  destruct (repo_event_no_page (for_of_gc_repo_alphabet host l s1))
    as [_ Pt].
  destruct (for_of_gc_repo host l s1) as (_ & _ & _ & Nf).
  unfold page_tokens in *. simpl flat_map. rewrite flat_map_app, Pt.
  destruct (result (for_of l (gc_repo host) s1)) as [[]|e|];
    [|discriminate|elim Nf; reflexivity].
  destruct (truthy (nextToken page)) eqn:Tk; [|discriminate].
  simpl. rewrite Tk. simpl. exact (IH _ _ H).
Qed.

Lemma gc_completes fuel s :
  let o := gc host fuel s in
  forallb (fun ev => negb (rejected ev)) (trace o) = true ->
  (exists t, In t (page_tokens (trace o)) /\ truthy t = false) ->
  result o = Ok tt.
Proof.
  intros o Nr (t & I & F). subst o.
  destruct (gc_cases host fuel s) as [(e & T & _)|(s1 & T & Re)];
    cbv zeta in *; rewrite T in Nr, I.
  - discriminate Nr.
  - rewrite Re. simpl in Nr, I.
    destruct (gc_pages_sweep_ok host fuel None s1) as [_ Ord].
    unfold orderly in Ord.
    destruct (result (gc_pages host fuel None s1)) as [[]|e|] eqn:R.
    + reflexivity.
    + destruct Ord as (pre & ev & Tp & _ & Rj). rewrite Tp in Nr.
      rewrite forallb_app in Nr. apply andb_true_iff in Nr.
      destruct Nr as [_ Nr]. simpl in Nr.
      destruct ev as [R0 q [e'|r']| | | |]; try discriminate Rj.
      discriminate Nr.
    + pose proof (gc_pages_out_of_fuel R) as All.
      rewrite forallb_forall in All. rewrite (All t I) in F. discriminate.
Qed.
(** A sweep that completes on a domain that is there has asked for the
    pages one after the other. *)
Lemma gc_pages_asked fuel s s1 :
  aws host (DescribeDomain "test-cdk") s = (inr tt, s1) ->
  result (gc host fuel s) = Ok tt ->
  exists toks last,
    page_requests (trace (gc host fuel s)) = None :: toks /\
    page_tokens (trace (gc host fuel s)) = toks ++ [last] /\
    forallb truthy toks = true /\ truthy last = false.
Proof.
  intros E. unfold gc. rewrite (bind_ok _ (domainExists_found E)).
  cbn [negb result final trace]. intros H.
  destruct (gc_pages_chain H) as (toks & last & E1 & E2 & E3 & E4).
  exists toks, last. unfold page_requests, page_tokens in *.
  rewrite !flat_map_app, E1, E2. simpl. auto.
Qed.
End SweepExamined.



(** ** Login information, request by request *)

(** C8, amended: [loginInformation] fails whenever the registry rejects
    one of its requests.  Its run is what the registry did; it begins
    with the token request, which names the domain only, whatever the
    sandbox is called; and whichever of the five requests the registry
    rejects first (the token request, or the lookup of the npm, maven,
    nuget or pypi endpoint of the sandbox), the run ends there with the
    error of that request, the requests after it are not made, and the
    state is the one the rejected request left. *)
Theorem loginInformation_fails_on_first_rejection :
  forall (W : Type) (host : Host W) (repositoryName : string) (s : W),
    let tokenRequest := GetAuthorizationToken "test-cdk" 43200 in
    let lookup := GetRepositoryEndpoint "test-cdk" repositoryName in
    let o := loginInformation host repositoryName s in
    performed host s (trace o) (final o) /\
    (exists a, hd_error (trace o) = Some (EvAws tokenRequest a)) /\
    (forall pre ev post e,
       trace o = pre ++ ev :: post -> rejection_of ev = Some e ->
       post = [] /\ result o = Throw e) /\
    (forall e s1, aws host tokenRequest s = (inl e, s1) ->
       o = mkOutcome (Throw e) s1 [EvAws tokenRequest (inl e)]) /\
    (forall tok s1, aws host tokenRequest s = (inr tok, s1) ->
     (forall e s2, aws host (lookup "npm") s1 = (inl e, s2) ->
        o = mkOutcome (Throw e) s2
              [EvAws tokenRequest (inr tok); EvAws (lookup "npm") (inl e)]) /\
     (forall npm s2, aws host (lookup "npm") s1 = (inr npm, s2) ->
      (forall e s3, aws host (lookup "maven") s2 = (inl e, s3) ->
         o = mkOutcome (Throw e) s3
               [EvAws tokenRequest (inr tok); EvAws (lookup "npm") (inr npm);
                EvAws (lookup "maven") (inl e)]) /\
      (forall maven s3, aws host (lookup "maven") s2 = (inr maven, s3) ->
       (forall e s4, aws host (lookup "nuget") s3 = (inl e, s4) ->
          o = mkOutcome (Throw e) s4
                [EvAws tokenRequest (inr tok);
                 EvAws (lookup "npm") (inr npm);
                 EvAws (lookup "maven") (inr maven);
                 EvAws (lookup "nuget") (inl e)]) /\
       (forall nuget s4, aws host (lookup "nuget") s3 = (inr nuget, s4) ->
        forall e s5, aws host (lookup "pypi") s4 = (inl e, s5) ->
          o = mkOutcome (Throw e) s5
                [EvAws tokenRequest (inr tok);
                 EvAws (lookup "npm") (inr npm);
                 EvAws (lookup "maven") (inr maven);
                 EvAws (lookup "nuget") (inr nuget);
                 EvAws (lookup "pypi") (inl e)])))).
Proof.
  intros W host name s tokenRequest lookup o. subst o tokenRequest lookup.
  split; [apply honest_loginInformation|].
  split.
  { unfold loginInformation. rewrite bind_trace. unfold call at 1.
    change (12 * 3600) with 43200.
    destruct (aws host (GetAuthorizationToken domain 43200) s) as [a s1].
    exists a. reflexivity. }
  split.
  { intros pre ev post e T Rj.
    exact (orderly_rejection (loginInformation_orderly host name s) T Rj). }
  unfold loginInformation. change (12 * 3600) with 43200.
  change domain with "test-cdk".
  split.
  { intros e s1 E0. rewrite (bind_throw _ (call_throw E0)). reflexivity. }
  intros tok s1 E0. rewrite (bind_ok _ (call_ok E0)).
  cbn [result final trace]. split.
  { intros e s2 E1. rewrite (bind_throw _ (call_throw E1)). reflexivity. }
  intros npm s2 E1. rewrite (bind_ok _ (call_ok E1)).
  cbn [result final trace]. split.
  { intros e s3 E2. rewrite (bind_throw _ (call_throw E2)). reflexivity. }
  intros maven s3 E2. rewrite (bind_ok _ (call_ok E2)).
  cbn [result final trace]. split.
  { intros e s4 E3. rewrite (bind_throw _ (call_throw E3)). reflexivity. }
  intros nuget s4 E3 e s5 E4. rewrite (bind_ok _ (call_ok E3)).
  cbn [result final trace].
  rewrite (bind_throw _ (call_throw E4)). reflexivity.
Qed.

Lemma loginInformation_fails_on_first_rejection_witness :
  let h := Registry.host Registry.no_faults 2 in
  loginInformation h "test-missing" domain_only =
  mkOutcome (Throw Registry.notFound)
    (Registry.tick (Registry.tick domain_only))
    [EvAws (GetAuthorizationToken "test-cdk" 43200)
       (inr "token-for-test-cdk");
     EvAws (GetRepositoryEndpoint "test-cdk" "test-missing" "npm")
       (inl Registry.notFound)].
Proof.
  intros h.
  exact (proj1
    (proj2 (proj2 (proj2 (proj2
       (@loginInformation_fails_on_first_rejection _ h "test-missing"
          domain_only))))
       "token-for-test-cdk" (Registry.tick domain_only) eq_refl)
    Registry.notFound (Registry.tick (Registry.tick domain_only)) eq_refl).
Defined.
